(** * Sannsvar: recommendation cache, single-flight generation and paging

    A shallow embedding of the catalog handler ([handlers/catalog.ts]),
    the similar-content handler ([handlers/similar.ts]) and the SQLite
    cache repository ([db/CacheRepository.ts]), with the properties of
    the design document stated over it.

    Asynchronous functions are embedded as the state machines they
    compile to: one function for each stretch of code that runs between
    two [await]s, over an explicit record of the process-wide state
    (the two cache tables, the in-flight registry, the promises and a
    log of the calls made to the generation backend). *)

From Stdlib Require Import ZArith Lia List String Ascii Bool Sorted Permutation.
From Stdlib Require Import DecimalString.
From stdpp Require Import gmap strings list fin_maps.

Local Open Scope Z_scope.

(* ===================================================================== *)
(** ** node:crypto, [createHash('sha256')] *)
(* ===================================================================== *)

Module Sha256.

Definition mask32 : Z := 0xFFFFFFFF.
Definition w32 (x : Z) : Z := Z.land x mask32.
Definition add32 (x y : Z) : Z := w32 (x + y).
Definition rotr (n x : Z) : Z :=
  Z.lor (Z.shiftr x n) (w32 (Z.shiftl x (32 - n))).
Definition not32 (x : Z) : Z := Z.lxor x mask32.

Definition Ch (x y z : Z) : Z := Z.lxor (Z.land x y) (Z.land (not32 x) z).
Definition Maj (x y z : Z) : Z :=
  Z.lxor (Z.lxor (Z.land x y) (Z.land x z)) (Z.land y z).
Definition bsig0 (x : Z) : Z := Z.lxor (Z.lxor (rotr 2 x) (rotr 13 x)) (rotr 22 x).
Definition bsig1 (x : Z) : Z := Z.lxor (Z.lxor (rotr 6 x) (rotr 11 x)) (rotr 25 x).
Definition ssig0 (x : Z) : Z := Z.lxor (Z.lxor (rotr 7 x) (rotr 18 x)) (Z.shiftr x 3).
Definition ssig1 (x : Z) : Z := Z.lxor (Z.lxor (rotr 17 x) (rotr 19 x)) (Z.shiftr x 10).

(** The round constants are the first 32 bits of the fractional parts
    of the cube roots of the first 64 primes, the initial hash value
    those of the square roots of the first 8. *)
Definition primes : list Z :=
  [ 2; 3; 5; 7; 11; 13; 17; 19; 23; 29; 31; 37; 41; 43; 47; 53; 59; 61; 67; 71;
    73; 79; 83; 89; 97; 101; 103; 107; 109; 113; 127; 131; 137; 139; 149; 151;
    157; 163; 167; 173; 179; 181; 191; 193; 197; 199; 211; 223; 227; 229; 233;
    239; 241; 251; 257; 263; 269; 271; 277; 281; 283; 293; 307; 311 ].

(** Integer cube root of [x], found bit by bit from bit [n - 1] down. *)
Fixpoint cube_root (n : nat) (x r : Z) : Z :=
  match n with
  | O => r
  | S m =>
      let c := Z.lor r (Z.shiftl 1 (Z.of_nat m)) in
      if c * c * c <=? x then cube_root m x c else cube_root m x r
  end.

Definition K : list Z :=
  Eval vm_compute in map (fun p => w32 (cube_root 40 (Z.shiftl p 96) 0)) primes.

Definition H0 : list Z :=
  Eval vm_compute in map (fun p => w32 (Z.sqrt (Z.shiftl p 64))) (firstn 8 primes).

(** The message is the UTF-8 encoding of the JavaScript string; a Rocq
    [string] is taken to be that byte sequence. *)
Fixpoint bytes_of_string (s : string) : list Z :=
  match s with
  | EmptyString => []
  | String c r => Z.of_N (N_of_ascii c) :: bytes_of_string r
  end.

(** Big-endian bytes of [x], [n] of them. *)
Fixpoint be_bytes (n : nat) (x : Z) : list Z :=
  match n with
  | O => []
  | S m => Z.land (Z.shiftr x (8 * Z.of_nat m)) 0xFF :: be_bytes m x
  end.

Definition pad (msg : list Z) : list Z :=
  let len := Z.of_nat (length msg) in
  let zeros := Z.to_nat ((55 - len) mod 64) in
  msg ++ 0x80 :: repeat 0 zeros ++ be_bytes 8 (8 * len).

Fixpoint words (fuel : nat) (bs : list Z) : list Z :=
  match fuel, bs with
  | S f, b0 :: b1 :: b2 :: b3 :: r =>
      Z.lor (Z.shiftl b0 24) (Z.lor (Z.shiftl b1 16) (Z.lor (Z.shiftl b2 8) b3))
      :: words f r
  | _, _ => []
  end.

Fixpoint schedule (fuel : nat) (w : list Z) : list Z :=
  match fuel with
  | O => w
  | S f =>
      let t := length w in
      let wt := add32 (add32 (ssig1 (nth (t - 2) w 0)) (nth (t - 7) w 0))
                      (add32 (ssig0 (nth (t - 15) w 0)) (nth (t - 16) w 0)) in
      schedule f (w ++ [wt])
  end.

Definition round (st : list Z) (kw : Z * Z) : list Z :=
  match st with
  | [a; b; c; d; e; f; g; h] =>
      let t1 := add32 (add32 (add32 h (bsig1 e)) (add32 (Ch e f g) (fst kw))) (snd kw) in
      let t2 := add32 (bsig0 a) (Maj a b c) in
      [add32 t1 t2; a; b; c; add32 d t1; e; f; g]
  | _ => st
  end.

Fixpoint zip2 (xs ys : list Z) : list (Z * Z) :=
  match xs, ys with
  | x :: xs', y :: ys' => (x, y) :: zip2 xs' ys'
  | _, _ => []
  end.

Fixpoint add_state (xs ys : list Z) : list Z :=
  match xs, ys with
  | x :: xs', y :: ys' => add32 x y :: add_state xs' ys'
  | _, _ => []
  end.

Definition compress (h : list Z) (block : list Z) : list Z :=
  let w := schedule 48 block in
  add_state h (fold_left round (zip2 K w) h).

Fixpoint blocks (fuel : nat) (h : list Z) (ws : list Z) : list Z :=
  match fuel with
  | O => h
  | S f =>
      match ws with
      | [] => h
      | _ => blocks f (compress h (firstn 16 ws)) (skipn 16 ws)
      end
  end.

Definition digest_words (s : string) : list Z :=
  let bs := pad (bytes_of_string s) in
  let ws := words (length bs) bs in
  blocks (length ws) H0 ws.

Definition hex_digit (d : Z) : ascii :=
  if d <? 10 then ascii_of_N (Z.to_N (48 + d)) else ascii_of_N (Z.to_N (87 + d)).

Fixpoint hex_of (n : nat) (x : Z) : string :=
  match n with
  | O => EmptyString
  | S m => String (hex_digit (Z.land (Z.shiftr x (4 * Z.of_nat m)) 0xF)) (hex_of m x)
  end.

(** [createHash('sha256').update(s).digest('hex')] *)
Definition hexdigest (s : string) : string :=
  fold_right (fun w acc => String.append (hex_of 8 w) acc) EmptyString (digest_words s).

End Sha256.

(* ===================================================================== *)
(** ** [types.ts] *)
(* ===================================================================== *)

Inductive HistoryKind := movie_item | show_item.
Inductive ContentType := movie | series.

Record WatchHistoryItem := {
  h_imdbId : string;
  h_title : string;
  h_year : Z;
  h_type : HistoryKind;
  h_genres : list string;
  h_rating : option Z;
  h_watchedAt : Z;            (* the [Date], as its [getTime()] in ms *)
  h_runtime : option Z;
  h_certification : option string
}.

Record Recommendation := {
  imdbId : string;
  title : string;
  reason : string
}.

Record AIResponse := {
  recommendations : list Recommendation;
  analysis : option string
}.

Record StremioMeta := {
  meta_id : string;
  meta_type : ContentType;
  meta_name : string;
  meta_description : string
}.

Record OAuthTokens := {
  accessToken : string;
  refreshToken : string;
  expiresAt : Z;
  email : option string
}.

Record UserConfig := {
  geminiApiKey : option string;
  temperature : Z;            (* passed through to the backend untouched *)
  traktAccessToken : string;
  traktRefreshToken : string;
  googleOAuth : option OAuthTokens;
  openaiOAuth : option OAuthTokens;
  claudeOAuth : option OAuthTokens
}.

Record SimilarTo := {
  st_imdbId : string;
  st_title : string;
  st_type : ContentType
}.

Record AIConfig := {
  apiKey : string;
  ai_accessToken : option string;
  ai_temperature : Z;
  excludeImdbIds : option (list string);
  count : option Z;
  categoryId : option string;
  similarTo : option SimilarTo
}.

(** The errors the handlers tell apart with [instanceof]
    ([AIResponseParseError] extends [AIProviderError]). *)
Inductive Error :=
| TraktServiceError (message : string)
| AIProviderError (message : string)
| PlainError (message : string).

(** A settled promise: fulfilled with a value or rejected with an error. *)
Inductive Settled (A : Type) :=
| Fulfilled (v : A)
| Rejected (e : Error).
Arguments Fulfilled {A} v.
Arguments Rejected {A} e.

(** [arr.join(sep)] on strings. *)
Fixpoint join (sep : string) (l : list string) : string :=
  match l with
  | [] => ""
  | [x] => x
  | x :: r => x +:+ sep +:+ join sep r
  end.

(** Template-literal rendering of an integral number. *)
Definition string_of_Z (z : Z) : string := NilZero.string_of_int (Z.to_int z).

(** [ids.includes(x)] *)
Definition includes (ids : list string) (x : string) : bool :=
  existsb (String.eqb x) ids.

(** [arr.slice(start, end)] with JavaScript's treatment of negative and
    out-of-range indices. *)
Definition slice {A} (l : list A) (start end_ : Z) : list A :=
  let len := Z.of_nat (length l) in
  let k := if start <? 0 then Z.max (len + start) 0 else Z.min start len in
  let final := if end_ <? 0 then Z.max (len + end_) 0 else Z.min end_ len in
  firstn (Z.to_nat (Z.max (final - k) 0)) (skipn (Z.to_nat k) l).

(* ===================================================================== *)
(** ** [db/schema.ts] and [db/CacheRepository.ts] *)
(* ===================================================================== *)

Module CacheRepository.

(** A TEXT column holding JSON: either the serialisation of a value or
    text on which [JSON.parse] throws. *)
Inductive Json (A : Type) :=
| JsonOf (v : A)
| Malformed (raw : string).
Arguments JsonOf {A} v.
Arguments Malformed {A} raw.

Definition JSON_stringify {A} (v : A) : Json A := JsonOf v.
Definition JSON_parse {A} (j : Json A) : option A :=
  match j with
  | JsonOf v => Some v
  | Malformed _ => None
  end.

Record HistoryCacheRow := {
  hc_data : Json (list WatchHistoryItem);
  trakt_username : option string;
  item_count : Z;
  hc_created_at : Z;
  hc_updated_at : Z
}.

Record RecommendationCacheRow := {
  data : Json (list Recommendation);
  history_hash : string;
  created_at : Z;
  updated_at : Z
}.

(** The two tables, each with primary key [user_id]. *)
Record Database := {
  history_cache : gmap string HistoryCacheRow;
  recommendation_cache : gmap string RecommendationCacheRow
}.

Definition CACHE_TTL_history : Z := 60 * 60.
Definition CACHE_TTL_recommendations : Z := 60 * 60 * 4.

(** [Math.floor(Date.now() / 1000)], from the clock reading in ms. *)
Definition unix_now (clock : Z) : Z := clock / 1000.

Definition hashHistory (history : list WatchHistoryItem) : string :=
  let data :=
    join "|" (map (fun h => h_imdbId h +:+ ":" +:+ string_of_Z (h_watchedAt h)) history) in
  substring 0 16 (Sha256.hexdigest data).

Definition isValid (clock updatedAt ttlSeconds : Z) : bool :=
  unix_now clock - updatedAt <? ttlSeconds.

Definition getHistory (db : Database) (clock : Z) (userId : string)
  : option (list WatchHistoryItem) :=
  match history_cache db !! userId with
  | None => None
  | Some row =>
      if negb (isValid clock (hc_updated_at row) CACHE_TTL_history) then None
      else JSON_parse (hc_data row)
  end.

Definition setHistory (db : Database) (clock : Z) (userId : string)
    (history : list WatchHistoryItem) (traktUsername : option string) : Database :=
  let now := unix_now clock in
  let created :=
    match history_cache db !! userId with
    | Some old => hc_created_at old      (* ON CONFLICT: created_at is kept *)
    | None => now
    end in
  {| history_cache :=
       <[userId := {| hc_data := JSON_stringify history;
                      trakt_username := traktUsername;
                      item_count := Z.of_nat (length history);
                      hc_created_at := created;
                      hc_updated_at := now |}]> (history_cache db);
     recommendation_cache := recommendation_cache db |}.

Definition getRecommendations (db : Database) (clock : Z) (userId : string)
    (currentHistory : list WatchHistoryItem) : option (list Recommendation) :=
  match recommendation_cache db !! userId with
  | None => None
  | Some row =>
      if negb (isValid clock (updated_at row) CACHE_TTL_recommendations) then None
      else
        let currentHash := hashHistory currentHistory in
        if negb (String.eqb (history_hash row) currentHash) then None
        else JSON_parse (data row)
  end.

Definition setRecommendations (db : Database) (clock : Z) (userId : string)
    (recs : list Recommendation) (history : list WatchHistoryItem) : Database :=
  let now := unix_now clock in
  let created :=
    match recommendation_cache db !! userId with
    | Some old => created_at old
    | None => now
    end in
  {| history_cache := history_cache db;
     recommendation_cache :=
       <[userId := {| data := JSON_stringify recs;
                      history_hash := hashHistory history;
                      created_at := created;
                      updated_at := now |}]> (recommendation_cache db) |}.

Definition empty_db : Database :=
  {| history_cache := ∅; recommendation_cache := ∅ |}.

Definition invalidateHistory (db : Database) (userId : string) : Database :=
  {| history_cache := delete userId (history_cache db);
     recommendation_cache := recommendation_cache db |}.

Definition invalidateRecommendations (db : Database) (userId : string) : Database :=
  {| history_cache := history_cache db;
     recommendation_cache := delete userId (recommendation_cache db) |}.

(** The rows the two [DELETE ... WHERE updated_at < ?] statements of
    [cleanupExpired] remove. *)
Definition history_expired (bound : Z) (kv : string * HistoryCacheRow) : Prop :=
  hc_updated_at (snd kv) < bound.

Definition recommendation_expired (bound : Z) (kv : string * RecommendationCacheRow) : Prop :=
  updated_at (snd kv) < bound.

#[global] Instance history_expired_dec (bound : Z) (kv : string * HistoryCacheRow) :
  Decision (history_expired bound kv) := decide (hc_updated_at (snd kv) < bound).

#[global] Instance recommendation_expired_dec (bound : Z)
    (kv : string * RecommendationCacheRow) :
  Decision (recommendation_expired bound kv) := decide (updated_at (snd kv) < bound).

Record CleanupResult := {
  historyDeleted : nat;
  recommendationsDeleted : nat
}.

Definition cleanupExpired (db : Database) (clock : Z) : CleanupResult * Database :=
  let now := unix_now clock in
  let h_bound := now - CACHE_TTL_history in
  let r_bound := now - CACHE_TTL_recommendations in
  ({| historyDeleted := size (filter (history_expired h_bound) (history_cache db));
      recommendationsDeleted :=
        size (filter (recommendation_expired r_bound) (recommendation_cache db)) |},
   {| history_cache :=
        filter (fun kv => ~ history_expired h_bound kv) (history_cache db);
      recommendation_cache :=
        filter (fun kv => ~ recommendation_expired r_bound kv) (recommendation_cache db) |}).

Record Stats := {
  historyCount : nat;
  recommendationCount : nat
}.

Definition getStats (db : Database) : Stats :=
  {| historyCount := size (history_cache db);
     recommendationCount := size (recommendation_cache db) |}.

End CacheRepository.

(* ===================================================================== *)
(** ** [handlers/catalog.ts] *)
(* ===================================================================== *)

Module Catalog.
Import CacheRepository.

Inductive ProviderType := gemini | openai | claude | groq | deepseek | openrouter.

Record ProviderInfo := {
  pi_type : ProviderType;
  pi_accessToken : string
}.

(** The arguments of one [provider.getRecommendations] call. *)
Record BackendCall := {
  bc_provider : ProviderType;
  bc_history : list WatchHistoryItem;
  bc_config : AIConfig
}.

(** Truthiness of [config.xOAuth?.accessToken]. *)
Definition oauth_token (o : option OAuthTokens) : option string :=
  match o with
  | Some t => if String.eqb (accessToken t) "" then None else Some (accessToken t)
  | None => None
  end.

Definition push_provider (ty : ProviderType) (o : option OAuthTokens)
    (providers : list ProviderInfo) : list ProviderInfo :=
  match oauth_token o with
  | Some tok => providers ++ [{| pi_type := ty; pi_accessToken := tok |}]
  | None => providers
  end.

Definition getAvailableProviders (config : UserConfig) : list ProviderInfo :=
  push_provider claude (claudeOAuth config)
    (push_provider openai (openaiOAuth config)
      (push_provider gemini (googleOAuth config) [])).

(** [selectProvider]: the chosen adapter, the base [aiConfig] and the
    new value of the module-level round-robin counter, or the thrown
    error. *)
Definition selectProvider (no_credentials : string) (config : UserConfig) (providerCounter : nat)
  : Error + (ProviderType * AIConfig * nat) :=
  let providers := getAvailableProviders config in
  let base key tok :=
    {| apiKey := key; ai_accessToken := tok; ai_temperature := temperature config;
       excludeImdbIds := None; count := None; categoryId := None; similarTo := None |} in
  if (0 <? length providers)%nat then
    let selectedIndex := (providerCounter mod length providers)%nat in
    match nth_error providers selectedIndex with
    | Some selected =>
        inr (pi_type selected, base "" (Some (pi_accessToken selected)), S providerCounter)
    | None => inl (PlainError "selected is undefined")
    end
  else
    match geminiApiKey config with
    | Some key =>
        if String.eqb key "" then inl (PlainError no_credentials)
        else inr (gemini, base key None, providerCounter)
    | None => inl (PlainError no_credentials)
    end.

Definition FIRST_BATCH_SIZE : Z := 15.
Definition SECOND_BATCH_SIZE : Z := 45.
Definition BATCH_SIZE : Z := 100.
Definition PREFETCH_THRESHOLD : Z := 30.
Definition PAGE_SIZE : Z := 15.

Definition getBatchSize (existingCount : Z) : Z * string :=
  if existingCount =? 0 then (FIRST_BATCH_SIZE, "initial (15)")
  else if existingCount <=? FIRST_BATCH_SIZE then (SECOND_BATCH_SIZE, "second (45)")
  else (BATCH_SIZE, "standard (100)").

Definition extractUserId (config : UserConfig) : string :=
  substring 0 16 (traktAccessToken config).

(** The arguments of [generateBatch] (the [cache] argument is the
    repository over the shared database). *)
Record GenArgs := {
  g_userId : string;
  g_config : UserConfig;
  g_history : list WatchHistoryItem;
  g_existingRecs : list Recommendation;
  g_categoryId : string
}.

Definition generateKey (a : GenArgs) : string :=
  g_userId a +:+ ":" +:+ g_categoryId a +:+ ":generate".

(** What the body of [generatePromise] holds on to while it waits for
    the backend. *)
Record Closure := {
  c_args : GenArgs;
  c_isFirstBatch : bool;
  c_excludeIds : list string
}.

(** The process-wide state. *)
Record World := {
  database : Database;
  generationInProgress : gmap string nat;      (* key -> generatePromise *)
  settled : gmap nat (Settled (list Recommendation));
  awaitingBackend : gmap nat Closure;          (* bodies suspended at the backend call *)
  nextPromise : nat;
  providerCounter : nat;
  backendCalls : list (string * BackendCall)   (* requesting key, arguments *)
}.

Definition initial : World :=
  {| database := empty_db; generationInProgress := ∅; settled := ∅;
     awaitingBackend := ∅; nextPromise := 0%nat; providerCounter := 0%nat;
     backendCalls := [] |}.

Definition with_database (w : World) (d : Database) : World :=
  {| database := d; generationInProgress := generationInProgress w;
     settled := settled w; awaitingBackend := awaitingBackend w;
     nextPromise := nextPromise w; providerCounter := providerCounter w;
     backendCalls := backendCalls w |}.

Definition with_registry (w : World) (r : gmap string nat) : World :=
  {| database := database w; generationInProgress := r;
     settled := settled w; awaitingBackend := awaitingBackend w;
     nextPromise := nextPromise w; providerCounter := providerCounter w;
     backendCalls := backendCalls w |}.

Definition settle (w : World) (p : nat) (r : Settled (list Recommendation)) : World :=
  {| database := database w; generationInProgress := generationInProgress w;
     settled := <[p := r]> (settled w); awaitingBackend := delete p (awaitingBackend w);
     nextPromise := nextPromise w; providerCounter := providerCounter w;
     backendCalls := backendCalls w |}.

Definition no_credentials_catalog : string :=
  "No AI credentials configured. Please connect an AI provider or add an API key.".

(** [generateBatch] up to its [await generatePromise]: the registry
    look-up, and for a new generation the body of [generatePromise] up
    to its [await provider.getRecommendations(...)], then the
    [generationInProgress.set]. Returns the promise whose outcome the
    caller will receive. *)
Definition generateBatch (w : World) (a : GenArgs) : nat * World :=
  let cacheKey := generateKey a in
  match generationInProgress w !! cacheKey with
  | Some existing => (existing, w)
  | None =>
      let batchSize := fst (getBatchSize (Z.of_nat (length (g_existingRecs a)))) in
      let isFirstBatch := (length (g_existingRecs a) =? 0)%nat in
      let p := nextPromise w in
      match selectProvider no_credentials_catalog (g_config a) (providerCounter w) with
      | inl e =>
          (p, {| database := database w;
                 generationInProgress := <[cacheKey := p]> (generationInProgress w);
                 settled := <[p := Rejected e]> (settled w);
                 awaitingBackend := awaitingBackend w;
                 nextPromise := S p;
                 providerCounter := providerCounter w;
                 backendCalls := backendCalls w |})
      | inr (provider, aiConfig, counter') =>
          let excludeIds := map imdbId (g_existingRecs a) in
          let call :=
            {| bc_provider := provider;
               bc_history := g_history a;
               bc_config :=
                 {| apiKey := apiKey aiConfig;
                    ai_accessToken := ai_accessToken aiConfig;
                    ai_temperature := ai_temperature aiConfig;
                    excludeImdbIds := Some excludeIds;
                    count := Some batchSize;
                    categoryId := Some (g_categoryId a);
                    similarTo := None |} |} in
          (p, {| database := database w;
                 generationInProgress := <[cacheKey := p]> (generationInProgress w);
                 settled := settled w;
                 awaitingBackend :=
                   <[p := {| c_args := a; c_isFirstBatch := isFirstBatch;
                             c_excludeIds := excludeIds |}]> (awaitingBackend w);
                 nextPromise := S p;
                 providerCounter := counter';
                 backendCalls := backendCalls w ++ [(cacheKey, call)] |})
      end
  end.

(** The rest of the body of [generatePromise], run when the backend
    call of promise [p] settles with [outcome]. *)
Definition generatePromise_resume (w : World) (clock : Z) (p : nat)
    (outcome : Settled AIResponse) : World :=
  match awaitingBackend w !! p with
  | None => w
  | Some c =>
      let a := c_args c in
      match outcome with
      | Rejected e => settle w p (Rejected e)
      | Fulfilled response =>
          let newRecs :=
            List.filter (fun r => negb (includes (c_excludeIds c) (imdbId r)))
                   (recommendations response) in
          let allRecs := g_existingRecs a ++ newRecs in
          let w1 :=
            with_database w
              (setRecommendations (database w) clock (g_userId a) allRecs (g_history a)) in
          let w2 :=
            if c_isFirstBatch c && (12 <=? Z.of_nat (length newRecs)) then
              (* not awaited: only the effects of the call remain *)
              snd (generateBatch w1
                     {| g_userId := g_userId a; g_config := g_config a;
                        g_history := g_history a; g_existingRecs := allRecs;
                        g_categoryId := g_categoryId a |})
            else w1 in
          settle w2 p (Fulfilled newRecs)
      end
  end.

(** The [finally] block of the call that created the promise. *)
Definition generateBatch_finally (w : World) (cacheKey : string) : World :=
  with_registry w (delete cacheKey (generationInProgress w)).

Definition triggerPrefetch (w : World) (a : GenArgs) : World :=
  if decide (is_Some (generationInProgress w !! generateKey a)) then w
  else snd (generateBatch w a).

Definition recommendationsToMetas (recs : list Recommendation)
    (contentType : ContentType) : list StremioMeta :=
  map (fun rec => {| meta_id := imdbId rec; meta_type := contentType;
                     meta_name := title rec; meta_description := reason rec |}) recs.

Definition createFallbackCatalog (message : string) : list StremioMeta :=
  [ {| meta_id := "error"; meta_type := movie;
       meta_name := "Configuration Required"; meta_description := message |} ].

(** The creator's [await generatePromise] returns or throws once the
    promise has settled, and its [finally] block runs. *)
Definition creator_unwinds (w : World) (cacheKey : string) : World :=
  match generationInProgress w !! cacheKey with
  | Some p =>
      match settled w !! p with
      | Some _ => generateBatch_finally w cacheKey
      | None => w
      end
  | None => w
  end.

(** With nothing else running: the backend call of [p] is answered
    with [outcome], the body of [generatePromise] runs to its end and
    the creator of the promise, registered under [cacheKey], unwinds. *)
Definition generation_completes (w : World) (clock : Z) (p : nat)
    (cacheKey : string) (outcome : Settled AIResponse) : World :=
  creator_unwinds (generatePromise_resume w clock p outcome) cacheKey.

(** Process environment. *)
Record Env := {
  TRAKT_CLIENT_ID : string;
  TRAKT_CLIENT_SECRET : string
}.

Record Request := {
  rq_config : UserConfig;
  rq_contentType : ContentType;
  rq_categoryId : string;
  rq_skip : Z
}.

(** Where a [getCatalog] call is suspended. *)
Inductive CatalogState :=
| AwaitTraktHistory
    (* [traktService.getWatchHistory(50)] is pending *)
| AwaitTraktProfile (history : list WatchHistoryItem)
    (* [traktService.getUserProfile().catch(() => null)] is pending *)
| AwaitWatchHistory (history : list WatchHistoryItem)
    (* [getWatchHistory] has returned, [getCatalog] resumes next *)
| AwaitGenerate (history : list WatchHistoryItem)
                (allRecommendations : list Recommendation) (p : nat)
    (* [await generateBatch(...)] *)
| Returned (metas : list StremioMeta).

(** What a suspended call is resumed with. *)
Inductive Resumption :=
| TraktHistoryIs (r : Settled (list WatchHistoryItem))
| TraktProfileIs (username : option string)
| Tick.

Definition catalogKey (userId categoryId : string) : string :=
  userId +:+ ":" +:+ categoryId.

(** The [catch] block of [getCatalog]. *)
Definition getCatalog_catch (e : Error) : list StremioMeta :=
  match e with
  | TraktServiceError m => createFallbackCatalog ("Trakt error: " +:+ m)
  | AIProviderError m => createFallbackCatalog ("AI error: " +:+ m)
  | PlainError _ => createFallbackCatalog "Failed to generate recommendations"
  end.

Definition genArgs (rq : Request) (history : list WatchHistoryItem)
    (existingRecs : list Recommendation) : GenArgs :=
  {| g_userId := extractUserId (rq_config rq); g_config := rq_config rq;
     g_history := history; g_existingRecs := existingRecs;
     g_categoryId := rq_categoryId rq |}.

(** Steps 3 and 4 of [getCatalog]. *)
Definition getCatalog_serve (w : World) (rq : Request)
    (history : list WatchHistoryItem) (allRecommendations : list Recommendation)
  : CatalogState * World :=
  let startIndex := rq_skip rq in
  let endIndex := rq_skip rq + PAGE_SIZE in
  let remainingAfterThisPage := Z.of_nat (length allRecommendations) - endIndex in
  let w' :=
    if remainingAfterThisPage <? PREFETCH_THRESHOLD
    then triggerPrefetch w (genArgs rq history allRecommendations)
    else w in
  let pageRecommendations := slice allRecommendations startIndex endIndex in
  (Returned (recommendationsToMetas pageRecommendations (rq_contentType rq)), w').

(** [getCatalog] from the return of [getWatchHistory] to its next
    suspension. *)
Definition getCatalog_withHistory (w : World) (clock : Z) (rq : Request)
    (history : list WatchHistoryItem) : CatalogState * World :=
  let userId := extractUserId (rq_config rq) in
  let cacheKey := catalogKey userId (rq_categoryId rq) in
  if (length history =? 0)%nat then
    (Returned (createFallbackCatalog
                 "No watch history found. Watch some content on Trakt first!"), w)
  else
    let allRecommendations :=
      default [] (getRecommendations (database w) clock cacheKey history) in
    let endIndex := rq_skip rq + PAGE_SIZE in
    if Z.of_nat (length allRecommendations) <? endIndex then
      let '(p, w') := generateBatch w (genArgs rq history allRecommendations) in
      (AwaitGenerate history allRecommendations p, w')
    else getCatalog_serve w rq history allRecommendations.

(** [getCatalog] (with the [getWatchHistory] it calls first) up to its
    first suspension. *)
Definition getCatalog (env : Env) (w : World) (clock : Z) (rq : Request)
  : CatalogState * World :=
  if String.eqb (TRAKT_CLIENT_ID env) "" || String.eqb (TRAKT_CLIENT_SECRET env) "" then
    (Returned (createFallbackCatalog "Trakt credentials not configured"), w)
  else
    let userId := extractUserId (rq_config rq) in
    match getHistory (database w) clock userId with
    | Some history => (AwaitWatchHistory history, w)
    | None => (AwaitTraktHistory, w)
    end.

(** One resumption of a suspended [getCatalog]. *)
Definition getCatalog_resume (w : World) (clock : Z) (rq : Request)
    (st : CatalogState) (r : Resumption) : CatalogState * World :=
  let userId := extractUserId (rq_config rq) in
  match st, r with
  | AwaitTraktHistory, TraktHistoryIs (Fulfilled history) =>
      (AwaitTraktProfile history, w)
  | AwaitTraktHistory, TraktHistoryIs (Rejected e) =>
      (Returned (getCatalog_catch e), w)
  | AwaitTraktProfile history, TraktProfileIs username =>
      (AwaitWatchHistory history,
       with_database w (setHistory (database w) clock userId history username))
  | AwaitWatchHistory history, Tick =>
      getCatalog_withHistory w clock rq history
  | AwaitGenerate history allRecommendations p, Tick =>
      match settled w !! p with
      | Some (Fulfilled newRecs) =>
          let allRecommendations' := allRecommendations ++ newRecs in
          let w1 :=
            with_database w
              (setRecommendations (database w) clock
                 (catalogKey userId (rq_categoryId rq)) allRecommendations' history) in
          getCatalog_serve w1 rq history allRecommendations'
      | Some (Rejected e) => (Returned (getCatalog_catch e), w)
      | None => (st, w)
      end
  | _, _ => (st, w)
  end.

(** [getWatchHistory] with nothing else running: the cached snapshot
    if [getHistory] finds one, else the answer [trakt] of
    [traktService.getWatchHistory(50)], stored together with the
    username of [profile]. *)
Definition getWatchHistory_alone (w : World) (clock : Z) (userId : string)
    (trakt : Settled (list WatchHistoryItem)) (profile : option string)
  : Settled (list WatchHistoryItem) * World :=
  match getHistory (database w) clock userId with
  | Some history => (Fulfilled history, w)
  | None =>
      match trakt with
      | Fulfilled history =>
          (Fulfilled history,
           with_database w (setHistory (database w) clock userId history profile))
      | Rejected e => (Rejected e, w)
      end
  end.

(** A request resumed with its history, driven to its return with
    nothing else running: a backend call it awaits answers [backend]. *)
Definition after_history (w : World) (clock : Z) (rq : Request)
    (history : list WatchHistoryItem) (backend : Settled AIResponse)
  : CatalogState * World :=
  let s := getCatalog_resume w clock rq (AwaitWatchHistory history) Tick in
  match fst s with
  | AwaitGenerate history' recs p =>
      let w' :=
        generation_completes (snd s) clock p
                             (generateKey (genArgs rq history' recs)) backend in
      getCatalog_resume w' clock rq (fst s) Tick
  | _ => s
  end.

(** One request served with nothing else running: the Trakt calls
    (if made) answer [trakt] and [profile], and the backend call
    awaited by the request (if it dispatched one) answers [backend]. *)
Definition getCatalog_alone (env : Env) (w : World) (clock : Z) (rq : Request)
    (trakt : Settled (list WatchHistoryItem)) (profile : option string)
    (backend : Settled AIResponse) : CatalogState * World :=
  let s1 := getCatalog env w clock rq in
  let s2 :=
    match fst s1 with
    | AwaitTraktHistory => getCatalog_resume (snd s1) clock rq (fst s1) (TraktHistoryIs trakt)
    | _ => s1
    end in
  let s3 :=
    match fst s2 with
    | AwaitTraktProfile _ => getCatalog_resume (snd s2) clock rq (fst s2) (TraktProfileIs profile)
    | _ => s2
    end in
  match fst s3 with
  | AwaitWatchHistory history => after_history (snd s3) clock rq history backend
  | _ => s3
  end.

Definition trakt_configured (env : Env) : bool :=
  negb (String.eqb (TRAKT_CLIENT_ID env) "") && negb (String.eqb (TRAKT_CLIENT_SECRET env) "").

(** The list a request holds after its expansion step: the usable
    cached list, extended by the new items when the page reaches past
    its end. *)
Definition accumulated (cached : list Recommendation) (skip : Z)
    (response : AIResponse) : list Recommendation :=
  if Z.of_nat (length cached) <? skip + PAGE_SIZE then
    cached ++ List.filter (fun r => negb (includes (map imdbId cached) (imdbId r)))
                          (recommendations response)
  else cached.

(** *** Traces of the coordinator *)

(** What can happen to the coordinator: some task calls
    [generateBatch]; the backend call of a promise is answered and the
    body of [generatePromise] runs to its end; the creator of the
    promise registered under a key unwinds. *)
Inductive Event :=
| Calls (a : GenArgs)
| BodyResumes (clock : Z) (p : nat) (outcome : Settled AIResponse)
| CreatorUnwinds (cacheKey : string).

(** The new state, and for a call the promise handed to the caller. *)
Definition step (w : World) (ev : Event) : World * option (GenArgs * nat) :=
  match ev with
  | Calls a => let r := generateBatch w a in (snd r, Some (a, fst r))
  | BodyResumes clock p outcome => (generatePromise_resume w clock p outcome, None)
  | CreatorUnwinds cacheKey => (creator_unwinds w cacheKey, None)
  end.

Fixpoint run (w : World) (evs : list Event) : World * list (GenArgs * nat) :=
  match evs with
  | [] => (w, [])
  | ev :: rest =>
      let s := step w ev in
      let r := run (fst s) rest in
      (fst r, match snd s with Some x => x :: snd r | None => snd r end)
  end.

(** The creator of the promise registered under [k] has not unwound
    during the trace: the registration of [k] stands throughout. *)
Definition registered_during (k : string) (evs : list Event) : Prop :=
  Forall (fun ev => ev <> CreatorUnwinds k) evs.

(** The backend invocations made on behalf of key [k]. *)
Definition calls_for (k : string) (log : list (string * BackendCall))
  : list (string * BackendCall) :=
  List.filter (fun c => String.eqb (fst c) k) log.

(** [selectProvider] finds something to call. *)
Definition has_credentials (config : UserConfig) : bool :=
  (0 <? length (getAvailableProviders config))%nat
  || match geminiApiKey config with
     | Some key => negb (String.eqb key "")
     | None => false
     end.

(** A generation for key [k] is in flight: registered as promise [p],
    its body [c] suspended at the backend call, with [log] the backend
    invocations made for [k] so far. *)
Definition in_flight (k : string) (p : nat) (c : Closure)
    (log : list (string * BackendCall)) (w : World) : Prop :=
  generationInProgress w !! k = Some p
  /\ awaitingBackend w !! p = Some c
  /\ generateKey (c_args c) = k
  /\ (p < nextPromise w)%nat
  /\ calls_for k (backendCalls w) = log.

(** Key [k] is registered as promise [p], which is either still
    waiting for the backend or settled and waiting for its creator to
    unwind; [log] are the backend invocations made for [k] so far. *)
Definition registered (k : string) (p : nat)
    (log : list (string * BackendCall)) (w : World) : Prop :=
  generationInProgress w !! k = Some p
  /\ (p < nextPromise w)%nat
  /\ calls_for k (backendCalls w) = log
  /\ ((exists c, awaitingBackend w !! p = Some c /\ generateKey (c_args c) = k)
      \/ (awaitingBackend w !! p = None /\ is_Some (settled w !! p))).

(** The body suspended by a dispatching call [generateBatch w a]. *)
Definition closure_of (a : GenArgs) : Closure :=
  {| c_args := a;
     c_isFirstBatch := (length (g_existingRecs a) =? 0)%nat;
     c_excludeIds := map imdbId (g_existingRecs a) |}.

(** What the body of [generatePromise] resolves or rejects with. *)
Definition generatePromise_result (c : Closure) (outcome : Settled AIResponse)
  : Settled (list Recommendation) :=
  match outcome with
  | Rejected e => Rejected e
  | Fulfilled response =>
      Fulfilled (List.filter (fun r => negb (includes (c_excludeIds c) (imdbId r)))
                             (recommendations response))
  end.

End Catalog.

(* ===================================================================== *)
(** ** [handlers/similar.ts] *)
(* ===================================================================== *)

Module Similar.
Import CacheRepository.

Definition SIMILAR_COUNT : Z := 10.

(** The state [getSimilar] works on: the shared database, its own
    module-level round-robin counter and the log of backend calls. *)
Record World := {
  database : Database;
  providerCounter : nat;
  backendCalls : list (string * Catalog.BackendCall)
}.

Inductive SimilarState :=
| AwaitBackend
| Returned (metas : list StremioMeta).

Definition similarKey (sourceImdbId : string) : string := "similar:" +:+ sourceImdbId.

Definition recommendationsToMetas (recs : list Recommendation)
    (contentType : ContentType) : list StremioMeta :=
  map (fun rec => {| meta_id := imdbId rec; meta_type := contentType;
                     meta_name := title rec; meta_description := reason rec |}) recs.

(** [getSimilar] up to its [await provider.getRecommendations(...)]. *)
Definition getSimilar (w : World) (clock : Z) (config : UserConfig)
    (sourceImdbId sourceTitle : string) (contentType : ContentType)
  : SimilarState * World :=
  let cacheKey := similarKey sourceImdbId in
  let cached := getRecommendations (database w) clock cacheKey [] in
  match cached with
  | Some (r :: rs) => (Returned (recommendationsToMetas (r :: rs) contentType), w)
  | _ =>
      match Catalog.selectProvider "No AI credentials configured" config (providerCounter w) with
      | inl _ => (Returned [], w)        (* caught: [return []] *)
      | inr (provider, aiConfig, counter') =>
          let call :=
            {| Catalog.bc_provider := provider;
               Catalog.bc_history := [];
               Catalog.bc_config :=
                 {| apiKey := apiKey aiConfig;
                    ai_accessToken := ai_accessToken aiConfig;
                    ai_temperature := ai_temperature aiConfig;
                    excludeImdbIds := None;
                    count := Some SIMILAR_COUNT;
                    categoryId := Some "similar";
                    similarTo := Some {| st_imdbId := sourceImdbId; st_title := sourceTitle;
                                         st_type := contentType |} |} |} in
          (AwaitBackend,
           {| database := database w; providerCounter := counter';
              backendCalls := backendCalls w ++ [(cacheKey, call)] |})
      end
  end.

(** [getSimilar] from the settling of the backend call to its return. *)
Definition getSimilar_resume (w : World) (clock : Z)
    (sourceImdbId : string) (contentType : ContentType)
    (outcome : Settled AIResponse) : list StremioMeta * World :=
  match outcome with
  | Rejected _ => ([], w)
  | Fulfilled response =>
      (recommendationsToMetas (recommendations response) contentType,
       {| database :=
            setRecommendations (database w) clock (similarKey sourceImdbId)
                               (recommendations response) [];
          providerCounter := providerCounter w;
          backendCalls := backendCalls w |})
  end.

Definition initial : World :=
  {| database := empty_db; providerCounter := 0%nat; backendCalls := [] |}.

(** [getSimilar] with nothing else running: a backend call, if one is
    made, answers [backend]. *)
Definition getSimilar_alone (w : World) (clock : Z) (config : UserConfig)
    (sourceImdbId sourceTitle : string) (contentType : ContentType)
    (backend : Settled AIResponse) : list StremioMeta * World :=
  match getSimilar w clock config sourceImdbId sourceTitle contentType with
  | (Returned metas, w') => (metas, w')
  | (AwaitBackend, w') => getSimilar_resume w' clock sourceImdbId contentType backend
  end.

End Similar.

(* ===================================================================== *)
(** ** [utils/imdbParser.ts] *)
(* ===================================================================== *)

Module ImdbParser.

(** [\d] *)
Definition is_digit (c : ascii) : bool :=
  (48 <=? nat_of_ascii c)%nat && (nat_of_ascii c <=? 57)%nat.

(** [/^tt\d{lo,hi}$/.test(id)] *)
Definition tt_digits (lo hi : nat) (id : string) : bool :=
  match id with
  | String "t" (String "t" digits) =>
      forallb is_digit (list_ascii_of_string digits)
      && (lo <=? String.length digits)%nat && (String.length digits <=? hi)%nat
  | _ => false
  end.

(** [IMDB_ID_REGEX = /^tt\d{7,9}$/] *)
Definition isValidImdbId (id : string) : bool := tt_digits 7 9 id.

Definition LBRACKET : ascii := "[".
Definition RBRACKET : ascii := "]".
Definition QUOTE : ascii := ascii_of_nat 34.
Definition BACKSLASH : ascii := ascii_of_nat 92.

(** The loop of [extractBalanced] from index [i] on, [text] being what
    is left to read: the index of the bracket that brings [depth] back
    to 0, if the loop reaches one. *)
Fixpoint scan (text : list ascii) (i : nat) (depth : Z) (inString escaped : bool)
  : option nat :=
  match text with
  | [] => None
  | char :: rest =>
      if escaped then scan rest (S i) depth inString false
      else if Ascii.eqb char BACKSLASH && inString then scan rest (S i) depth inString true
      else if Ascii.eqb char QUOTE then scan rest (S i) depth (negb inString) escaped
      else if inString then scan rest (S i) depth inString escaped
      else if Ascii.eqb char LBRACKET then scan rest (S i) (depth + 1) inString escaped
      else if Ascii.eqb char RBRACKET then
        if depth - 1 =? 0 then Some i
        else scan rest (S i) (depth - 1) inString escaped
      else scan rest (S i) depth inString escaped
  end.

Definition startsWith (text : list ascii) (c : ascii) : bool :=
  match text with
  | x :: _ => Ascii.eqb x c
  | [] => false
  end.

Definition extractBalanced (text : string) : option string :=
  let chars := list_ascii_of_string text in
  if negb (startsWith chars LBRACKET) then None
  else
    match scan chars 0 0 false false with
    | Some i => Some (string_of_list_ascii (slice chars 0 (Z.of_nat i + 1)))
    | None => None
    end.

(** [text.indexOf(c)], counting from [i]. *)
Fixpoint indexOf_from (text : list ascii) (c : ascii) (i : Z) : Z :=
  match text with
  | [] => -1
  | x :: rest => if Ascii.eqb x c then i else indexOf_from rest c (i + 1)
  end.

(** [text.lastIndexOf(c)], counting from [i], [found] being the last
    index seen so far. *)
Fixpoint lastIndexOf_from (text : list ascii) (c : ascii) (i found : Z) : Z :=
  match text with
  | [] => found
  | x :: rest => lastIndexOf_from rest c (i + 1) (if Ascii.eqb x c then i else found)
  end.

Definition extractJsonArray (text : string) : option string :=
  let chars := list_ascii_of_string text in
  if startsWith chars LBRACKET then extractBalanced text
  else
    let start := indexOf_from chars LBRACKET 0 in
    let end_ := lastIndexOf_from chars RBRACKET 0 (-1) in
    if (start =? -1) || (end_ =? -1) || (end_ <=? start) then None
    else Some (string_of_list_ascii (slice chars start (end_ + 1))).

(** An element of the array [JSON.parse] returned: a string, or
    anything else. *)
Inductive JsonItem :=
| JString (s : string)
| JOther.

(** The loop of [parseImdbList] over the parsed array, [seen] and
    [results] being what it has collected so far ([seen] holds the
    same strings as [results]). *)
Fixpoint parseImdbList_loop (parsed : list JsonItem) (seen : gset string)
    (results : list string) : list string :=
  match parsed with
  | [] => results
  | JOther :: rest => parseImdbList_loop rest seen results
  | JString item :: rest =>
      if negb (isValidImdbId item) then parseImdbList_loop rest seen results
      else if decide (item ∈ seen) then parseImdbList_loop rest seen results
      else parseImdbList_loop rest ({[ item ]} ∪ seen) (results ++ [item])
  end.

End ImdbParser.

(* ===================================================================== *)
(** ** [handlers/meta.ts] *)
(* ===================================================================== *)

Module Meta.

Record StremioMetaLink := {
  link_name : string;
  link_category : string;
  link_url : string
}.

(** The [StremioMeta] object as [getMeta] builds it: [id], [type],
    [name] and the optional [links]. *)
Record MetaDetail := {
  md_id : string;
  md_type : ContentType;
  md_name : string;
  md_links : option (list StremioMetaLink)
}.

Definition type_name (t : ContentType) : string :=
  match t with
  | movie => "movie"
  | series => "series"
  end.

(** [title || fallback] on an optional string. *)
Definition or_else (title : option string) (fallback : string) : string :=
  match title with
  | Some t => if String.eqb t "" then fallback else t
  | None => fallback
  end.

Inductive MetaState :=
| AwaitSimilar
| Returned (meta : option MetaDetail).

(** [getMeta] from the return of [getSimilar] on. *)
Definition getMeta_return (contentType : ContentType) (imdbId : string)
    (title : option string) (similarItems : list StremioMeta) : MetaDetail :=
  let links :=
    map (fun item =>
           {| link_name := meta_name item;
              link_category := "Similar";
              link_url := "stremio:///detail/" +:+ type_name (meta_type item)
                          +:+ "/" +:+ meta_id item |}) similarItems in
  {| md_id := imdbId;
     md_type := contentType;
     md_name := or_else title ("Loading... (" +:+ imdbId +:+ ")");
     md_links := if (0 <? length links)%nat then Some links else None |}.

(** [getMeta] up to the suspension of the [getSimilar] it awaits. *)
Definition getMeta (w : Similar.World) (clock : Z) (config : UserConfig)
    (contentType : ContentType) (imdbId : string) (title : option string)
  : MetaState * Similar.World :=
  if negb (ImdbParser.tt_digits 7 8 imdbId) then (Returned None, w)
  else
    let sourceTitle := or_else title ("Content " +:+ imdbId) in
    match Similar.getSimilar w clock config imdbId sourceTitle contentType with
    | (Similar.Returned similarItems, w') =>
        (Returned (Some (getMeta_return contentType imdbId title similarItems)), w')
    | (Similar.AwaitBackend, w') => (AwaitSimilar, w')
    end.

Definition getMeta_resume (w : Similar.World) (clock : Z)
    (contentType : ContentType) (imdbId : string) (title : option string)
    (outcome : Settled AIResponse) : option MetaDetail * Similar.World :=
  let r := Similar.getSimilar_resume w clock imdbId contentType outcome in
  (Some (getMeta_return contentType imdbId title (fst r)), snd r).

(** [getMeta] with nothing else running. *)
Definition getMeta_alone (w : Similar.World) (clock : Z) (config : UserConfig)
    (contentType : ContentType) (imdbId : string) (title : option string)
    (backend : Settled AIResponse) : option MetaDetail * Similar.World :=
  match getMeta w clock config contentType imdbId title with
  | (Returned meta, w') => (meta, w')
  | (AwaitSimilar, w') => getMeta_resume w' clock contentType imdbId title backend
  end.

End Meta.

(* ===================================================================== *)
(** ** [trakt/TraktService.ts]: [getWatchHistory] *)
(* ===================================================================== *)

Module Trakt.

(** A [TraktMovie] or [TraktShow], with the fields [getWatchHistory]
    reads. *)
Record TraktTitle := {
  t_title : string;
  t_year : Z;
  t_imdb : option string;           (* [ids.imdb] *)
  t_runtime : option Z;
  t_certification : option string;
  t_genres : option (list string)
}.

(** A [TraktWatchedMovie] or [TraktWatchedShow]; [last_watched_at] is
    the instant [new Date(item.last_watched_at)] denotes, in ms. *)
Record TraktWatched := {
  last_watched_at : Z;
  watched_title : TraktTitle
}.

(** A [TraktRatedMovie] or [TraktRatedShow]. *)
Record TraktRated := {
  rating : Z;
  rated_title : TraktTitle
}.

(** An [ids.imdb] that passes [if (imdbId)]. *)
Definition truthy (imdb : option string) : option string :=
  match imdb with
  | Some id => if String.eqb id "" then None else Some id
  | None => None
  end.

(** The rating lookup [Map] filled by the loop over the rated items. *)
Definition ratings (rated : list TraktRated) : gmap string Z :=
  fold_left (fun m item =>
               match truthy (t_imdb (rated_title item)) with
               | Some id => <[id := rating item]> m
               | None => m
               end) rated ∅.

(** The loop that pushes the watched items of one kind. *)
Definition convert (kind : HistoryKind) (lookup : gmap string Z)
    (watched : list TraktWatched) : list WatchHistoryItem :=
  flat_map (fun item =>
              match truthy (t_imdb (watched_title item)) with
              | None => []
              | Some imdbId =>
                  [ {| h_imdbId := imdbId;
                       h_title := t_title (watched_title item);
                       h_year := t_year (watched_title item);
                       h_type := kind;
                       h_genres := default [] (t_genres (watched_title item));
                       h_rating := lookup !! imdbId;
                       h_watchedAt := last_watched_at item;
                       h_runtime := t_runtime (watched_title item);
                       h_certification := t_certification (watched_title item) |} ]
              end) watched.

(** [history.sort((a, b) => b.watchedAt.getTime() - a.watchedAt.getTime())]:
    [Array.prototype.sort] is stable, so its result is the one of
    any stable sort; this one inserts each item before the first item
    that is not more recent. *)
Fixpoint insert_sorted (x : WatchHistoryItem) (l : list WatchHistoryItem)
  : list WatchHistoryItem :=
  match l with
  | [] => [x]
  | y :: rest =>
      if h_watchedAt y <=? h_watchedAt x then x :: y :: rest
      else y :: insert_sorted x rest
  end.

Definition sort_recent_first (l : list WatchHistoryItem) : list WatchHistoryItem :=
  fold_right insert_sorted [] l.

(** The items pushed by the two loops, before sorting. *)
Definition unified (watchedMovies watchedShows : list TraktWatched)
    (ratedMovies ratedShows : list TraktRated) : list WatchHistoryItem :=
  convert movie_item (ratings ratedMovies) watchedMovies
  ++ convert show_item (ratings ratedShows) watchedShows.

(** [getWatchHistory(limit)] from the fulfilment of its [Promise.all]
    with the four lists to its [return]. *)
Definition getWatchHistory (watchedMovies watchedShows : list TraktWatched)
    (ratedMovies ratedShows : list TraktRated) (limit : Z) : list WatchHistoryItem :=
  slice (sort_recent_first (unified watchedMovies watchedShows ratedMovies ratedShows))
        0 limit.

End Trakt.

(* ===================================================================== *)
(** ** Sample data for the scenarios *)
(* ===================================================================== *)

Module Scenario.
Import CacheRepository Catalog.

Definition env0 : Env :=
  {| TRAKT_CLIENT_ID := "trakt-client-id"; TRAKT_CLIENT_SECRET := "trakt-client-secret" |}.

(** A user with a Gemini API key and no OAuth provider. *)
Definition alice : UserConfig :=
  {| geminiApiKey := Some "AIza-alice"; temperature := 1;
     traktAccessToken := "alice-trakt-access-token"; traktRefreshToken := "alice-refresh";
     googleOAuth := None; openaiOAuth := None; claudeOAuth := None |}.

(** A user with no AI credentials at all. *)
Definition carol : UserConfig :=
  {| geminiApiKey := None; temperature := 1;
     traktAccessToken := "carol-trakt-access-token"; traktRefreshToken := "carol-refresh";
     googleOAuth := None; openaiOAuth := None; claudeOAuth := None |}.

Definition watched (id : string) (at_ms : Z) : WatchHistoryItem :=
  {| h_imdbId := id; h_title := "watched " +:+ id; h_year := 1994; h_type := movie_item;
     h_genres := ["drama"]; h_rating := None; h_watchedAt := at_ms;
     h_runtime := None; h_certification := None |}.

Definition history1 : list WatchHistoryItem := [watched "tt0111161" 1700000000000].

Definition rec_of (n : nat) : Recommendation :=
  {| imdbId := "tt" +:+ string_of_Z (1000000 + Z.of_nat n);
     title := "Title " +:+ string_of_Z (Z.of_nat n);
     reason := "because" |}.

(** [count] recommendations numbered from [from]. *)
Definition recs_from (from count : nat) : list Recommendation :=
  map rec_of (seq from count).

Definition response_of (recs : list Recommendation) : AIResponse :=
  {| recommendations := recs; analysis := None |}.

Definition page (cfg : UserConfig) (category : string) (skip : Z) : Request :=
  {| rq_config := cfg; rq_contentType := movie; rq_categoryId := category; rq_skip := skip |}.

Definition t0 : Z := 1700000100000.

Definition alice_id : string := extractUserId alice.

(** The first call for alice's "for-you" list, nothing cached. *)
Definition first_call : GenArgs := genArgs (page alice "for-you" 0) history1 [].

(** While it is registered: a second caller of the key, a caller of
    another category, that category's generation completing, the
    backend answering the key's own call, and a third caller of the key
    (with other arguments) arriving before the creator has unwound. *)
Definition coalescing_trace : list Event :=
  [ Calls first_call;
    Calls (genArgs (page alice "hidden-gems" 0) history1 []);
    BodyResumes t0 1%nat (Fulfilled (response_of (recs_from 100 15)));
    CreatorUnwinds (generateKey (genArgs (page alice "hidden-gems" 0) history1 []));
    BodyResumes t0 0%nat (Fulfilled (response_of (recs_from 0 15)));
    Calls (genArgs (page alice "for-you" 15) history1 (recs_from 200 3)) ].

(** The first expansion on an idle process, answered by [response]. *)
Definition first_expansion (response : AIResponse) : World :=
  let started := generateBatch initial first_call in
  generation_completes (snd started) t0 (fst started) (generateKey first_call)
                       (Fulfilled response).

(** A store with only alice's snapshot, taken at [t0]. *)
Definition snapshot_world : World :=
  with_database initial (setHistory empty_db t0 alice_id history1 (Some "alice")).

(** A first page request whose expansion the backend answers with
    nothing: the page is empty and [triggerPrefetch] has dispatched a
    new first expansion (nothing cached), which the backend then
    answers with [response]. *)
Definition empty_first_page : CatalogState * World :=
  getCatalog_alone env0 snapshot_world (t0 + 1000) (page alice "for-you" 0)
    (Rejected (PlainError "unused")) None (Fulfilled (response_of [])).

Definition prefetched_first_expansion (response : AIResponse) : World :=
  generation_completes (snd empty_first_page) (t0 + 2000) 1%nat
                       (generateKey first_call) (Fulfilled response).

(** A store with alice's snapshot taken at [t0] and [n] recommendations
    cached for her "for-you" list at [t0]. *)
Definition cached_world (n : nat) : World :=
  with_database initial
    (setRecommendations (setHistory empty_db t0 alice_id history1 (Some "alice"))
       t0 (catalogKey alice_id "for-you") (recs_from 0 n) history1).

Definition two_hours_ms : Z := 2 * 60 * 60 * 1000.

(** A user with two OAuth providers and no API key. *)
Definition bob : UserConfig :=
  {| geminiApiKey := None; temperature := 0;
     traktAccessToken := "bob-trakt-access-token"; traktRefreshToken := "bob-refresh";
     googleOAuth := Some {| accessToken := "ya29.bob"; refreshToken := "r1";
                            expiresAt := 1800000000; email := None |};
     openaiOAuth := None;
     claudeOAuth := Some {| accessToken := "sk-ant-bob"; refreshToken := "r2";
                            expiresAt := 1800000000; email := None |} |}.

(** The store after alice asked for titles similar to tt0111161 at
    [t0] and the backend answered with ten of them ... *)
Definition similar_stored : Similar.World :=
  let asked :=
    Similar.getSimilar Similar.initial t0 alice "tt0111161" "The Shawshank Redemption" movie in
  snd (Similar.getSimilar_resume (snd asked) t0 "tt0111161" movie
         (Fulfilled (response_of (recs_from 0 10)))).

(** ... and after bob's watch history was then refreshed. *)
Definition similar_later : Similar.World :=
  {| Similar.database :=
       setHistory (Similar.database similar_stored) (t0 + 5000) (extractUserId bob)
                  [watched "tt0068646" 1700000004000] (Some "bob");
     Similar.providerCounter := Similar.providerCounter similar_stored;
     Similar.backendCalls := Similar.backendCalls similar_stored |}.

(** Alice has since watched another title: her snapshot (taken at
    [t0]) is [history2], while the twenty recommendations stored for
    her "for-you" list were generated for [history1]. *)
Definition history2 : list WatchHistoryItem :=
  [watched "tt0068646" 1700000050000; watched "tt0111161" 1700000000000].

Definition changed_world : World :=
  with_database initial
    (setRecommendations (setHistory empty_db t0 alice_id history2 (Some "alice"))
       t0 (catalogKey alice_id "for-you") (recs_from 0 20) history1).

End Scenario.

(* ===================================================================== *)
(** * Properties *)
(* ===================================================================== *)

Import CacheRepository Catalog Scenario.

(** ** The digest *)

(** The FIPS 180-4 test vectors: the empty message and "abc". *)
Example sha256_empty :
  Sha256.hexdigest ""
  = "e3b0c44298fc1c149afbf4c8996fb92427ae41e4649b934ca495991b7852b855"%string.
Proof. vm_compute. reflexivity. Qed.

Example sha256_abc :
  Sha256.hexdigest "abc"
  = "ba7816bf8f01cfea414140de5dae2223b00361a396177a9cb410ff61f20015ad"%string.
Proof. vm_compute. reflexivity. Qed.

(** A message of 56 bytes, whose padding spills into a second block. *)
Example sha256_two_blocks :
  substring 0 16 (Sha256.hexdigest
    "aaaaaaaaaaaaaaaaaaaaaaaaaaaaaaaaaaaaaaaaaaaaaaaaaaaaaaaa")
  = "b35439a4ac6f0948"%string.
Proof. vm_compute. reflexivity. Qed.

(** The fingerprint of a one-item history is the digest of
    ["tt0111161:1700000000000"]. *)
Example hashHistory_one_item :
  hashHistory history1 = "53be0698dc19da96"%string.
Proof. vm_compute. reflexivity. Qed.

(** ** Batch sizing policy *)

Lemma getBatchSize_first : fst (getBatchSize 0) = FIRST_BATCH_SIZE.
Proof. reflexivity. Qed.

Lemma getBatchSize_second (n : Z) :
  0 < n <= FIRST_BATCH_SIZE -> fst (getBatchSize n) = SECOND_BATCH_SIZE.
Proof.
  intros [Hpos Hle]. unfold getBatchSize.
  destruct (Z.eqb_spec n 0) as [->|_]; [lia|].
  destruct (Z.leb_spec n FIRST_BATCH_SIZE); [reflexivity|lia].
Qed.

Lemma getBatchSize_standard (n : Z) :
  FIRST_BATCH_SIZE < n -> fst (getBatchSize n) = BATCH_SIZE.
Proof.
  intros Hgt. unfold getBatchSize. unfold FIRST_BATCH_SIZE in *.
  destruct (Z.eqb_spec n 0) as [->|_]; [lia|].
  destruct (Z.leb_spec n 15); [lia|reflexivity].
Qed.

(** C4, as stated: at 0, [FIRST_BATCH_SIZE + 1] = 16 and
    [FIRST_BATCH_SIZE + SECOND_BATCH_SIZE + 1] = 61 the sizes are 15, 100
    and 100, so the chain is not strictly increasing. *)
Lemma batch_tiering_fails_at_0_16_61 :
  ~ (fst (getBatchSize 0)
       < fst (getBatchSize (FIRST_BATCH_SIZE + 1))
       < fst (getBatchSize (FIRST_BATCH_SIZE + SECOND_BATCH_SIZE + 1))).
Proof.
  rewrite getBatchSize_first.
  rewrite !getBatchSize_standard by (unfold FIRST_BATCH_SIZE, SECOND_BATCH_SIZE; lia).
  unfold BATCH_SIZE. lia.
Qed.

(** C4, amended: the three tiers are strictly increasing when each is
    sampled inside its own range: [getBatchSize 0 < getBatchSize n <
    getBatchSize m] for every [0 < n <= FIRST_BATCH_SIZE < m]. *)
Theorem batch_tiers_strictly_increase (n m : Z) :
  0 < n <= FIRST_BATCH_SIZE ->
  FIRST_BATCH_SIZE < m ->
  fst (getBatchSize 0) < fst (getBatchSize n) < fst (getBatchSize m).
Proof.
  intros Hn Hm.
  rewrite getBatchSize_first, (getBatchSize_second n Hn), (getBatchSize_standard m Hm).
  unfold FIRST_BATCH_SIZE, SECOND_BATCH_SIZE, BATCH_SIZE. lia.
Qed.

Lemma batch_tiers_strictly_increase_witness :
  0 < 15 <= FIRST_BATCH_SIZE /\ FIRST_BATCH_SIZE < 16 /\
  fst (getBatchSize 0) < fst (getBatchSize 15) < fst (getBatchSize 16).
Proof.
  assert (H1 : 0 < 15 <= FIRST_BATCH_SIZE) by (unfold FIRST_BATCH_SIZE; lia).
  assert (H2 : FIRST_BATCH_SIZE < 16) by (unfold FIRST_BATCH_SIZE; lia).
  exact (conj H1 (conj H2 (batch_tiers_strictly_increase 15 16 H1 H2))).
Defined.

(** ** Freshness policy *)

Lemma isValid_spec (clock updatedAt ttl : Z) :
  isValid clock updatedAt ttl = true <-> unix_now clock - updatedAt < ttl.
Proof. unfold isValid. apply Z.ltb_lt. Qed.

(** The fingerprint only looks at the (content identifier, watch
    timestamp) pairs, in order. *)
Lemma hashHistory_pairs (h1 h2 : list WatchHistoryItem) :
  map (fun h => (h_imdbId h, h_watchedAt h)) h1
    = map (fun h => (h_imdbId h, h_watchedAt h)) h2 ->
  hashHistory h1 = hashHistory h2.
Proof.
  intros Heq. unfold hashHistory. do 3 f_equal.
  revert h2 Heq. induction h1 as [|x xs IH]; intros [|y ys] Heq; try discriminate.
  - reflexivity.
  - simpl in Heq. injection Heq as Hid Hat Hrest.
    simpl. rewrite Hid, Hat. f_equal. now apply IH.
Qed.

(** C5. The cache read returns a list exactly when the row exists, is
    younger than the recommendation TTL and carries the fingerprint of
    the current history, and the list is then the stored one (what the
    data column holds); in every other case it returns null. For a row
    holding the serialisation of a list, as every row written by
    [setRecommendations] does, the stored list is returned if and only
    if the row is younger than the TTL and the fingerprints agree. *)
Theorem getRecommendations_usable
    (db : Database) (clock : Z) (userId : string)
    (currentHistory : list WatchHistoryItem) :
  (forall recs,
      getRecommendations db clock userId currentHistory = Some recs <->
      exists row,
        recommendation_cache db !! userId = Some row
        /\ unix_now clock - updated_at row < CACHE_TTL_recommendations
        /\ history_hash row = hashHistory currentHistory
        /\ JSON_parse (data row) = Some recs)
  /\ (getRecommendations db clock userId currentHistory = None <->
      ~ exists row recs,
          recommendation_cache db !! userId = Some row
          /\ unix_now clock - updated_at row < CACHE_TTL_recommendations
          /\ history_hash row = hashHistory currentHistory
          /\ JSON_parse (data row) = Some recs)
  /\ (forall row stored,
        recommendation_cache db !! userId = Some row ->
        data row = JSON_stringify stored ->
        (getRecommendations db clock userId currentHistory = Some stored <->
         unix_now clock - updated_at row < CACHE_TTL_recommendations
         /\ history_hash row = hashHistory currentHistory)).
Proof.
  assert (Hsome : forall recs,
      getRecommendations db clock userId currentHistory = Some recs <->
      exists row,
        recommendation_cache db !! userId = Some row
        /\ unix_now clock - updated_at row < CACHE_TTL_recommendations
        /\ history_hash row = hashHistory currentHistory
        /\ JSON_parse (data row) = Some recs).
  { intros recs. unfold getRecommendations.
    destruct (recommendation_cache db !! userId) as [row|] eqn:Hrow.
    - destruct (isValid clock (updated_at row) CACHE_TTL_recommendations) eqn:Hvalid; simpl.
      + apply isValid_spec in Hvalid.
        destruct (String.eqb_spec (history_hash row) (hashHistory currentHistory)) as [Hh|Hh]; simpl.
        * split.
          -- intros Hp. exists row. auto.
          -- intros (row' & Hr & _ & _ & Hp). injection Hr as <-. exact Hp.
        * split; [discriminate|].
          intros (row' & Hr & _ & Hh' & _). injection Hr as <-. contradiction.
      + split; [discriminate|].
        intros (row' & Hr & Hlt & _). injection Hr as <-.
        apply isValid_spec in Hlt. congruence.
    - split; [discriminate|]. intros (row' & Hr & _). discriminate. }
  split; [exact Hsome|].
  split; [split|].
  - intros Hnone (row & recs & H).
    assert (Hs : getRecommendations db clock userId currentHistory = Some recs)
      by (apply Hsome; eauto).
    congruence.
  - intros Hno.
    destruct (getRecommendations db clock userId currentHistory) as [recs|] eqn:Hg; [|reflexivity].
    exfalso. apply Hno. destruct (proj1 (Hsome recs) eq_refl) as (row & H). eauto.
  - intros row stored Hrow Hdata. rewrite Hsome. split.
    + intros (row' & Hrow' & Hfresh & Hhash & _).
      rewrite Hrow in Hrow'. injection Hrow' as <-. split; assumption.
    + intros [Hfresh Hhash]. exists row. rewrite Hdata. repeat split; assumption.
Qed.

Lemma getRecommendations_usable_witness :
  let db := database (cached_world 20) in
  let key := catalogKey alice_id "for-you" in
  let row := {| data := JSON_stringify (recs_from 0 20);
                history_hash := "53be0698dc19da96";
                created_at := 1700000100; updated_at := 1700000100 |} in
  recommendation_cache db !! key = Some row
  /\ unix_now (t0 + 1000) - updated_at row < CACHE_TTL_recommendations
  /\ history_hash row = hashHistory history1
  /\ getRecommendations db (t0 + 1000) key history1 = Some (recs_from 0 20).
Proof.
  intros db key row.
  assert (H1 : recommendation_cache db !! key = Some row) by (vm_compute; reflexivity).
  assert (H2 : unix_now (t0 + 1000) - updated_at row < CACHE_TTL_recommendations)
    by (vm_compute; reflexivity).
  assert (H3 : history_hash row = hashHistory history1) by (vm_compute; reflexivity).
  exact (conj H1 (conj H2 (conj H3
           (proj2 (proj2 (proj2 (getRecommendations_usable db (t0 + 1000) key history1))
                         row (recs_from 0 20) H1 eq_refl)
                  (conj H2 H3))))).
Defined.

(** ** Single-flight generation coordinator *)

Lemma selectProvider_ok (msg : string) (config : UserConfig) (n : nat) :
  has_credentials config = true ->
  exists provider aiConfig n', selectProvider msg config n = inr (provider, aiConfig, n').
Proof.
  unfold has_credentials, selectProvider. intros Hc.
  destruct (0 <? length (getAvailableProviders config))%nat eqn:Hlen.
  - apply Nat.ltb_lt in Hlen.
    destruct (nth_error (getAvailableProviders config)
                (n mod length (getAvailableProviders config))) as [sel|] eqn:Hnth.
    + eauto.
    + apply nth_error_None in Hnth.
      pose proof (Nat.mod_upper_bound n (length (getAvailableProviders config))).
      lia.
  - simpl in Hc. destruct (geminiApiKey config) as [key|]; [|discriminate].
    destruct (String.eqb key ""); [discriminate|]. eauto.
Qed.

Lemma selectProvider_none (msg : string) (config : UserConfig) (n : nat) :
  has_credentials config = false ->
  selectProvider msg config n = inl (PlainError msg).
Proof.
  unfold has_credentials, selectProvider. intros Hc.
  apply orb_false_iff in Hc as [Hlen Hkey]. rewrite Hlen.
  destruct (geminiApiKey config) as [key|]; [|reflexivity].
  destruct (String.eqb key ""); [reflexivity|discriminate].
Qed.

(** A caller that finds the key registered is handed the registered
    promise and changes nothing. *)
Lemma generateBatch_attaches (w : World) (a : GenArgs) (p : nat) :
  generationInProgress w !! generateKey a = Some p ->
  generateBatch w a = (p, w).
Proof. intros H. unfold generateBatch. now rewrite H. Qed.

Lemma calls_for_app (k : string) (l1 l2 : list (string * BackendCall)) :
  calls_for k (l1 ++ l2) = calls_for k l1 ++ calls_for k l2.
Proof. unfold calls_for. apply List.filter_app. Qed.

Lemma calls_for_other (k k' : string) (call : BackendCall) (log : list (string * BackendCall)) :
  k' <> k -> calls_for k (log ++ [(k', call)]) = calls_for k log.
Proof.
  intros Hne. rewrite calls_for_app. unfold calls_for at 2. simpl.
  destruct (String.eqb_spec k' k); [contradiction|]. apply app_nil_r.
Qed.

Lemma calls_for_same (k : string) (call : BackendCall) (log : list (string * BackendCall)) :
  calls_for k (log ++ [(k, call)]) = calls_for k log ++ [(k, call)].
Proof.
  rewrite calls_for_app. unfold calls_for at 2. simpl. now rewrite String.eqb_refl.
Qed.

(** The first caller of a free key, with credentials, dispatches: one
    backend invocation for the key, and the generation is in flight. *)
Lemma generateBatch_dispatches (w : World) (a : GenArgs) :
  generationInProgress w !! generateKey a = None ->
  has_credentials (g_config a) = true ->
  exists call,
    fst (generateBatch w a) = nextPromise w
    /\ database (snd (generateBatch w a)) = database w
    /\ in_flight (generateKey a) (nextPromise w) (closure_of a)
         (calls_for (generateKey a) (backendCalls w) ++ [(generateKey a, call)])
         (snd (generateBatch w a)).
Proof.
  intros Hfree Hcred. unfold generateBatch. rewrite Hfree.
  destruct (selectProvider_ok no_credentials_catalog (g_config a) (providerCounter w) Hcred)
    as (provider & aiConfig & n' & ->).
  eexists. simpl. split; [reflexivity|]. split; [reflexivity|].
  unfold in_flight; simpl.
  rewrite !lookup_insert_eq, calls_for_same.
  repeat split; try reflexivity. lia.
Qed.

Lemma in_flight_registered (k : string) (p : nat) (c : Closure)
    (log : list (string * BackendCall)) (w : World) :
  in_flight k p c log w -> registered k p log w.
Proof.
  intros (Hreg & Hbody & Hkey & Hlt & Hlog). repeat split; try assumption.
  left. eauto.
Qed.

(** A call made while [k] is registered leaves the registration as it
    is, and is handed its promise if made under [k]. *)
Lemma registered_generateBatch (k : string) (p : nat)
    (log : list (string * BackendCall)) (w : World) (a : GenArgs) :
  registered k p log w ->
  registered k p log (snd (generateBatch w a))
  /\ (generateKey a = k -> fst (generateBatch w a) = p).
Proof.
  intros (Hreg & Hlt & Hlog & Hphase).
  destruct (String.eqb_spec (generateKey a) k) as [Heq|Hne].
  - rewrite <- Heq in Hreg. rewrite (generateBatch_attaches w a p Hreg). simpl.
    rewrite Heq in Hreg. repeat split; assumption.
  - split; [|contradiction]. unfold generateBatch.
    destruct (generationInProgress w !! generateKey a) as [q|]; [repeat split; assumption|].
    destruct (selectProvider no_credentials_catalog (g_config a) (providerCounter w))
      as [e|[[provider aiConfig] n']]; unfold registered; simpl.
    + rewrite lookup_insert_ne by assumption.
      rewrite (lookup_insert_ne (settled w)) by lia.
      repeat split; try assumption. lia.
    + rewrite lookup_insert_ne by assumption.
      rewrite (lookup_insert_ne (awaitingBackend w)) by lia.
      rewrite calls_for_other by assumption.
      repeat split; try assumption. lia.
Qed.

Lemma registered_settle (k : string) (p q : nat)
    (log : list (string * BackendCall)) (w : World) (r : Settled (list Recommendation)) :
  registered k p log w -> registered k p log (settle w q r).
Proof.
  intros (Hreg & Hlt & Hlog & Hphase). unfold registered, settle; simpl.
  repeat split; try assumption.
  destruct (Nat.eq_dec q p) as [->|Hne].
  - right. rewrite lookup_delete_eq, lookup_insert_eq. eauto.
  - rewrite lookup_delete_ne, lookup_insert_ne by assumption. exact Hphase.
Qed.

(** The body of any promise running to its end leaves the registration
    of [k] as it is: its chained call is an ordinary call. *)
Lemma registered_resume (k : string) (p q : nat)
    (log : list (string * BackendCall)) (w : World) (clock : Z)
    (outcome : Settled AIResponse) :
  registered k p log w ->
  registered k p log (generatePromise_resume w clock q outcome).
Proof.
  intros Hreg. unfold generatePromise_resume.
  destruct (awaitingBackend w !! q) as [c'|]; [|assumption].
  destruct outcome as [response|e]; apply registered_settle; [|assumption].
  destruct (c_isFirstBatch c' && _); [|exact Hreg].
  apply registered_generateBatch. exact Hreg.
Qed.

Lemma registered_unwinds_other (k k' : string) (p : nat)
    (log : list (string * BackendCall)) (w : World) :
  k' <> k -> registered k p log w -> registered k p log (creator_unwinds w k').
Proof.
  intros Hne Hreg. unfold creator_unwinds.
  destruct (generationInProgress w !! k') as [q|]; [|assumption].
  destruct (settled w !! q); [|assumption].
  destruct Hreg as (Hreg & Hrest).
  unfold registered, generateBatch_finally, with_registry; simpl.
  rewrite lookup_delete_ne by assumption. split; assumption.
Qed.

Lemma registered_step (k : string) (p : nat)
    (log : list (string * BackendCall)) (w : World) (ev : Event) :
  registered k p log w ->
  ev <> CreatorUnwinds k ->
  registered k p log (fst (step w ev))
  /\ (forall a q, snd (step w ev) = Some (a, q) -> generateKey a = k -> q = p).
Proof.
  intros Hreg Hev. destruct ev as [a|clock q outcome|k']; simpl.
  - destruct (registered_generateBatch k p log w a Hreg) as [Hreg' Hp].
    split; [assumption|]. intros a' q' [= <- <-]. exact Hp.
  - split; [now apply registered_resume|discriminate].
  - split; [|discriminate]. apply registered_unwinds_other; [congruence|assumption].
Qed.

Lemma registered_run (k : string) (p : nat)
    (log : list (string * BackendCall)) (evs : list Event) :
  forall w,
    registered k p log w ->
    registered_during k evs ->
    registered k p log (fst (run w evs))
    /\ (forall a q, In (a, q) (snd (run w evs)) -> generateKey a = k -> q = p).
Proof.
  induction evs as [|ev rest IH]; intros w Hreg Hduring; simpl.
  - split; [assumption|]. intros a q [].
  - inversion Hduring as [|? ? Hev Hrest]; subst.
    destruct (registered_step k p log w ev Hreg Hev) as [Hreg' Hret].
    destruct (IH _ Hreg' Hrest) as [Hreg'' Hrets].
    split; [assumption|].
    intros a q Hmem Hk. destruct (snd (step w ev)) as [[a' q']|] eqn:Hs.
    + destruct Hmem as [[= <- <-]|Hmem]; [now apply (Hret a' q')|now apply (Hrets a q)].
    + now apply (Hrets a q).
Qed.

(** When the backend call of an in-flight generation is answered, the
    chained call made by the body finds the key still registered: no
    backend invocation is added and nothing new is registered; the
    promise settles with the result of the body. *)
Lemma resume_in_flight (k : string) (p : nat) (c : Closure)
    (log : list (string * BackendCall)) (w : World) (clock : Z)
    (outcome : Settled AIResponse) :
  in_flight k p c log w ->
  let w' := generatePromise_resume w clock p outcome in
  backendCalls w' = backendCalls w
  /\ generationInProgress w' = generationInProgress w
  /\ awaitingBackend w' = delete p (awaitingBackend w)
  /\ settled w' !! p = Some (generatePromise_result c outcome)
  /\ database w'
     = match generatePromise_result c outcome with
       | Rejected _ => database w
       | Fulfilled newRecs =>
           setRecommendations (database w) clock (g_userId (c_args c))
             (g_existingRecs (c_args c) ++ newRecs) (g_history (c_args c))
       end.
Proof.
  intros (Hreg & Hbody & Hkey & Hlt & Hlog). simpl.
  unfold generatePromise_resume. rewrite Hbody.
  destruct outcome as [response|e]; simpl.
  - set (w1 := with_database w _).
    set (chained := {| g_userId := _ |}).
    assert (Hattach : generateBatch w1 chained = (p, w1)).
    { apply generateBatch_attaches. unfold generateKey in *. simpl. now rewrite Hkey. }
    destruct (c_isFirstBatch c && _); [rewrite Hattach|]; simpl;
      rewrite lookup_insert_eq; repeat split; reflexivity.
  - rewrite lookup_insert_eq. repeat split; reflexivity.
Qed.

(** ... and once its creator has unwound, the key has left the
    registry. *)
Lemma generation_completes_in_flight (k : string) (p : nat) (c : Closure)
    (log : list (string * BackendCall)) (w : World) (clock : Z)
    (outcome : Settled AIResponse) :
  in_flight k p c log w ->
  let w' := generation_completes w clock p k outcome in
  backendCalls w' = backendCalls w
  /\ generationInProgress w' = delete k (generationInProgress w)
  /\ settled w' !! p = Some (generatePromise_result c outcome)
  /\ database w' = database (generatePromise_resume w clock p outcome).
Proof.
  intros Hin. destruct (resume_in_flight k p c log w clock outcome Hin)
    as (Hlog & Hreg & _ & Hres & _).
  destruct Hin as (Hk & _). simpl. unfold generation_completes, creator_unwinds.
  rewrite Hreg, Hk, Hres. unfold generateBatch_finally, with_registry; simpl.
  rewrite Hreg. repeat split; assumption.
Qed.

Lemma generation_completes_registered (k : string) (p : nat)
    (log : list (string * BackendCall)) (w : World) (clock : Z)
    (outcome : Settled AIResponse) :
  registered k p log w ->
  let w' := generation_completes w clock p k outcome in
  calls_for k (backendCalls w') = log
  /\ generationInProgress w' !! k = None
  /\ is_Some (settled w' !! p).
Proof.
  intros (Hreg & Hlt & Hlog & [(c & Hbody & Hkey)|(Hbody & Hsettled)]); simpl.
  - assert (Hin : in_flight k p c log w) by (repeat split; assumption).
    destruct (generation_completes_in_flight k p c log w clock outcome Hin)
      as (Hlog' & Hreg' & Hres & _).
    rewrite Hlog', Hreg', Hres, lookup_delete_eq. repeat split; eauto.
  - unfold generation_completes, generatePromise_resume, creator_unwinds.
    rewrite Hbody, Hreg. destruct Hsettled as [r Hr]. rewrite Hr.
    unfold generateBatch_finally, with_registry; simpl.
    rewrite lookup_delete_eq, Hr. repeat split; eauto.
Qed.

(** C1. Single-flight coalescing. The first caller of a key that has
    nothing registered (its configuration naming a backend) dispatches.
    Whatever happens until the creator of that promise unwinds (calls
    under the same key or under others, backend calls being answered,
    the key's own included, other generations completing), the backend
    has been invoked exactly once for the key and every caller of the
    key holds the first caller's promise. When the generation has
    completed there is still that one invocation, the key has left the
    registry, and all callers receive the one outcome of the promise. *)
Theorem single_flight_coalescing (w : World) (first : GenArgs) (others : list Event) :
  let k := generateKey first in
  let started := generateBatch w first in
  let finished := run (snd started) others in
  generationInProgress w !! k = None ->
  has_credentials (g_config first) = true ->
  registered_during k others ->
  length (calls_for k (backendCalls (fst finished)))
    = S (length (calls_for k (backendCalls w)))
  /\ (forall a q, In (a, q) (snd finished) -> generateKey a = k -> q = fst started)
  /\ forall clock outcome,
       let w' := generation_completes (fst finished) clock (fst started) k outcome in
       length (calls_for k (backendCalls w')) = S (length (calls_for k (backendCalls w)))
       /\ generationInProgress w' !! k = None
       /\ exists result,
            settled w' !! fst started = Some result
            /\ forall a q, In (a, q) (snd finished) -> generateKey a = k ->
                           settled w' !! q = Some result.
Proof.
  intros k started finished Hfree Hcred Hduring.
  destruct (generateBatch_dispatches w first Hfree Hcred) as (call & Hp & _ & Hin).
  fold k in Hin. fold started in Hp, Hin.
  apply in_flight_registered in Hin.
  destruct (registered_run k _ _ others _ Hin Hduring) as [Hreg Hrets].
  fold finished in Hreg, Hrets. rewrite Hp.
  assert (Hlen : forall l, l = calls_for k (backendCalls w) ++ [(k, call)] ->
                           length l = S (length (calls_for k (backendCalls w)))).
  { intros l ->. rewrite length_app. simpl. lia. }
  split; [apply Hlen; now destruct Hreg as (_ & _ & -> & _)|].
  split; [exact Hrets|].
  intros clock outcome w'.
  destruct (generation_completes_registered k _ _ (fst finished) clock outcome Hreg)
    as (Hlog & Hgone & [result Hres]).
  fold w' in Hlog, Hgone, Hres.
  split; [now apply Hlen|]. split; [exact Hgone|].
  exists result. split; [exact Hres|].
  intros a q Hmem Hk. now rewrite (Hrets a q Hmem Hk).
Qed.

Lemma single_flight_coalescing_witness :
  let w := initial in
  let first := first_call in
  let others := coalescing_trace in
  let k := generateKey first in
  let started := generateBatch w first in
  let finished := run (snd started) others in
  generationInProgress w !! k = None
  /\ has_credentials (g_config first) = true
  /\ registered_during k others
  /\ length (calls_for k (backendCalls (fst finished)))
       = S (length (calls_for k (backendCalls w)))
  /\ (forall a q, In (a, q) (snd finished) -> generateKey a = k -> q = fst started)
  /\ forall clock outcome,
       let w' := generation_completes (fst finished) clock (fst started) k outcome in
       length (calls_for k (backendCalls w')) = S (length (calls_for k (backendCalls w)))
       /\ generationInProgress w' !! k = None
       /\ exists result,
            settled w' !! fst started = Some result
            /\ forall a q, In (a, q) (snd finished) -> generateKey a = k ->
                           settled w' !! q = Some result.
Proof.
  intros w first others k started finished.
  assert (H1 : generationInProgress w !! k = None) by reflexivity.
  assert (H2 : has_credentials (g_config first) = true) by reflexivity.
  assert (H3 : registered_during k others).
  { repeat constructor; intros H; vm_compute in H; discriminate H. }
  exact (conj H1 (conj H2 (conj H3 (single_flight_coalescing w first others H1 H2 H3)))).
Defined.

(** Without credentials the body throws before it reaches the backend:
    the promise is rejected at birth and the backend is not invoked. *)
Lemma generateBatch_without_credentials (w : World) (a : GenArgs) :
  generationInProgress w !! generateKey a = None ->
  has_credentials (g_config a) = false ->
  backendCalls (snd (generateBatch w a)) = backendCalls w
  /\ settled (snd (generateBatch w a)) !! fst (generateBatch w a)
       = Some (Rejected (PlainError no_credentials_catalog)).
Proof.
  intros Hfree Hcred. unfold generateBatch.
  rewrite Hfree, (selectProvider_none _ _ _ Hcred). simpl.
  now rewrite lookup_insert_eq.
Qed.

(** A page request of a user without AI credentials: no backend call,
    one placeholder entry. *)
Example page_without_credentials :
  let served :=
    getCatalog_alone env0 initial t0 (page carol "for-you" 0)
      (Fulfilled history1) (Some "carol") (Fulfilled (response_of (recs_from 0 15))) in
  fst served = Returned (createFallbackCatalog "Failed to generate recommendations")
  /\ backendCalls (snd served) = []
  /\ generationInProgress (snd served) = ∅.
Proof. vm_compute. repeat split. Qed.

(** C3. The first expansion of a key (nothing cached) is answered with
    15 of the 15 items asked for. The chained call made by the promise
    body finds the key still registered and is handed the very promise
    that is settling: when the expansion has completed, the backend has
    been invoked once, for 15 items, and nothing is in flight. The same
    through [getCatalog]: a first expansion dispatched by
    [triggerPrefetch] (after a page request whose own expansion brought
    nothing) is answered with 15 items, and no call for the next tier
    follows. *)
Theorem chained_prefetch_coalesces_onto_itself :
  let w' := first_expansion (response_of (recs_from 0 15)) in
  let w'' := prefetched_first_expansion (response_of (recs_from 0 15)) in
  (g_existingRecs first_call = []
   /\ settled w' !! 0%nat = Some (Fulfilled (recs_from 0 15))
   /\ map (fun c => count (bc_config (snd c))) (backendCalls w') = [Some 15]
   /\ awaitingBackend w' = ∅
   /\ generationInProgress w' = ∅)
  /\ (fst empty_first_page = Returned []
      /\ (c_isFirstBatch <$> awaitingBackend (snd empty_first_page) !! 1%nat) = Some true
      /\ settled w'' !! 1%nat = Some (Fulfilled (recs_from 0 15))
      /\ map (fun c => count (bc_config (snd c))) (backendCalls w'') = [Some 15; Some 15]
      /\ awaitingBackend w'' = ∅
      /\ generationInProgress w'' = ∅).
Proof. vm_compute. repeat split. Qed.

(** The write made by the promise body goes to the row [userId] and
    leaves every other row as it was. *)
Lemma generatePromise_resume_writes_userId (w : World) (clock : Z) (p : nat)
    (c : Closure) (response : AIResponse) (key : string) :
  awaitingBackend w !! p = Some c ->
  key <> g_userId (c_args c) ->
  recommendation_cache (database (generatePromise_resume w clock p (Fulfilled response))) !! key
    = recommendation_cache (database w) !! key.
Proof.
  intros Hbody Hne. unfold generatePromise_resume. rewrite Hbody.
  set (w1 := with_database w _).
  assert (Hw1 : recommendation_cache (database w1) !! key
                = recommendation_cache (database w) !! key).
  { subst w1. simpl. now rewrite lookup_insert_ne by congruence. }
  assert (Hgen : forall a, database (snd (generateBatch w1 a)) = database w1).
  { intros a. unfold generateBatch.
    destruct (generationInProgress w1 !! generateKey a); [reflexivity|].
    destruct (selectProvider _ _ _) as [e|[[? ?] ?]]; reflexivity. }
  destruct (c_isFirstBatch c && _); simpl; [rewrite Hgen|]; exact Hw1.
Qed.

(** Within one user the rows are distinct: a combined key determines
    its category and never equals the bare user id. *)
Lemma string_app_inv_head (s t1 t2 : string) : s +:+ t1 = s +:+ t2 -> t1 = t2.
Proof. induction s as [|ch s IH]; simpl; [trivial|]. intros [= H]. now apply IH. Qed.

Lemma catalogKey_category (userId c1 c2 : string) :
  catalogKey userId c1 = catalogKey userId c2 -> c1 = c2.
Proof.
  unfold catalogKey. intros H. apply string_app_inv_head in H.
  now apply (string_app_inv_head ":") in H.
Qed.

Lemma string_app_length (s t : string) :
  String.length (s +:+ t) = (String.length s + String.length t)%nat.
Proof. induction s as [|ch s IH]; simpl; [reflexivity|]. now rewrite IH. Qed.

Lemma catalogKey_not_userId (userId c : string) : catalogKey userId c <> userId.
Proof.
  unfold catalogKey. intros H. apply (f_equal String.length) in H.
  rewrite string_app_length in H. simpl in H. lia.
Qed.

(** So no expansion under one category touches the list stored for
    another category of the same user, neither by the write of the
    promise body nor by the write of the request that awaited it. *)
Lemma expansion_leaves_other_categories (w : World) (clock : Z) (p : nat)
    (c : Closure) (response : AIResponse) (category : string) :
  awaitingBackend w !! p = Some c ->
  recommendation_cache (database (generatePromise_resume w clock p (Fulfilled response)))
    !! catalogKey (g_userId (c_args c)) category
  = recommendation_cache (database w) !! catalogKey (g_userId (c_args c)) category.
Proof.
  intros Hbody. apply (generatePromise_resume_writes_userId w clock p c response _ Hbody).
  apply catalogKey_not_userId.
Qed.

Lemma generateBatch_database (w : World) (a : GenArgs) :
  database (snd (generateBatch w a)) = database w.
Proof.
  unfold generateBatch. destruct (generationInProgress w !! generateKey a); [reflexivity|].
  destruct (selectProvider _ _ _) as [e|[[? ?] ?]]; reflexivity.
Qed.

Lemma getCatalog_resume_leaves_other_categories (w : World) (clock : Z) (rq : Request)
    (history : list WatchHistoryItem) (cached : list Recommendation) (p : nat)
    (category : string) :
  category <> rq_categoryId rq ->
  recommendation_cache
    (database (snd (getCatalog_resume w clock rq (AwaitGenerate history cached p) Tick)))
    !! catalogKey (extractUserId (rq_config rq)) category
  = recommendation_cache (database w) !! catalogKey (extractUserId (rq_config rq)) category.
Proof.
  intros Hne. simpl. destruct (settled w !! p) as [[newRecs|e]|]; try reflexivity.
  unfold getCatalog_serve. cbn [snd].
  set (w1 := with_database w _).
  assert (Hw1 : recommendation_cache (database w1)
                  !! catalogKey (extractUserId (rq_config rq)) category
                = recommendation_cache (database w)
                  !! catalogKey (extractUserId (rq_config rq)) category).
  { subst w1. simpl. rewrite lookup_insert_ne; [reflexivity|].
    intros H. apply catalogKey_category in H. congruence. }
  destruct (_ <? PREFETCH_THRESHOLD); [|exact Hw1].
  unfold triggerPrefetch. destruct (decide _); [exact Hw1|].
  now rewrite generateBatch_database.
Qed.

(** C2. After the first expansion of alice's "for-you" list, the list
    it produced is stored in the row keyed by her user id alone; the
    row of the combined key (userId, categoryId) does not exist. *)
Theorem generateBatch_stores_under_userId_only :
  let w' := first_expansion (response_of (recs_from 0 15)) in
  g_userId first_call = alice_id
  /\ g_categoryId first_call = "for-you"%string
  /\ recommendation_cache (database w') !! catalogKey alice_id "for-you" = None
  /\ exists row,
       recommendation_cache (database w') !! alice_id = Some row
       /\ data row = JSON_stringify (recs_from 0 15).
Proof.
  vm_compute. repeat split. eexists. split; reflexivity.
Qed.

(** What the exclusion filter does guarantee: no new item carries an
    identifier of the list the expansion started from ... *)
Lemma includes_In (ids : list string) (x : string) :
  includes ids x = true <-> In x ids.
Proof.
  unfold includes. rewrite existsb_exists. split.
  - intros (y & Hy & Heq). apply String.eqb_eq in Heq. now subst.
  - intros Hx. exists x. split; [assumption|apply String.eqb_refl].
Qed.

Lemma generatePromise_result_excludes (c : Closure) (response : AIResponse)
    (newRecs : list Recommendation) :
  generatePromise_result c (Fulfilled response) = Fulfilled newRecs ->
  forall r, In r newRecs -> ~ In (imdbId r) (c_excludeIds c).
Proof.
  intros [= <-] r Hr Hex. apply List.filter_In in Hr as [_ Hkeep].
  apply includes_In in Hex. rewrite Hex in Hkeep. discriminate.
Qed.

(** ... so a list without repeats stays without repeats when the
    backend's answer has none of its own. *)
Lemma expansion_keeps_NoDup (a : GenArgs) (response : AIResponse)
    (newRecs : list Recommendation) :
  List.NoDup (map imdbId (g_existingRecs a)) ->
  List.NoDup (map imdbId (recommendations response)) ->
  generatePromise_result (closure_of a) (Fulfilled response) = Fulfilled newRecs ->
  List.NoDup (map imdbId (g_existingRecs a ++ newRecs)).
Proof.
  intros Hold Hnew Hres.
  pose proof (generatePromise_result_excludes _ _ _ Hres) as Hex.
  injection Hres as <-.
  set (keep := fun r => negb (includes (c_excludeIds (closure_of a)) (imdbId r))) in *.
  assert (Hfilter : List.NoDup (map imdbId (List.filter keep (recommendations response)))).
  { clear Hex. induction (recommendations response) as [|r rs IH]; simpl; [constructor|].
    inversion Hnew as [|? ? Hnotin Hrest]; subst.
    destruct (keep r); simpl; [|now apply IH].
    constructor; [|now apply IH].
    intros Hin. apply Hnotin. apply in_map_iff in Hin as (r' & Hid & Hr').
    apply List.filter_In in Hr' as [Hr' _]. apply in_map_iff. eauto. }
  rewrite map_app. apply List.NoDup_app; [exact Hold|exact Hfilter|].
  intros x Hx Hx'. apply in_map_iff in Hx' as (r & <- & Hr).
  exact (Hex r Hr Hx).
Qed.

(** C7. The backend answers the first expansion with the same item
    twice. Both copies pass the exclusion filter, are stored, and are
    returned; served through [getCatalog], the accumulated list under
    the combined key holds the identifier twice as well. *)
Theorem repeated_item_in_response_is_kept :
  let response := response_of [rec_of 0; rec_of 0] in
  let w' := first_expansion response in
  let served :=
    getCatalog_alone env0 snapshot_world t0 (page alice "for-you" 0)
                     (Fulfilled history1) None (Fulfilled response) in
  settled w' !! 0%nat = Some (Fulfilled [rec_of 0; rec_of 0])
  /\ (exists row,
        recommendation_cache (database (snd served)) !! catalogKey alice_id "for-you" = Some row
        /\ data row = JSON_stringify [rec_of 0; rec_of 0])
  /\ ~ List.NoDup (map imdbId [rec_of 0; rec_of 0]).
Proof.
  split; [vm_compute; reflexivity|]. split.
  - vm_compute. eexists. split; reflexivity.
  - intros H. inversion H as [|x l Hnot _]; subst. apply Hnot. left. reflexivity.
Qed.

(** ** Page server *)

Lemma getCatalog_alone_history (env : Env) (w : World) (clock : Z) (rq : Request)
    (trakt : Settled (list WatchHistoryItem)) (profile : option string)
    (backend : Settled AIResponse) :
  trakt_configured env = true ->
  getCatalog_alone env w clock rq trakt profile backend
  = match getWatchHistory_alone w clock (extractUserId (rq_config rq)) trakt profile with
    | (Fulfilled history, w1) => after_history w1 clock rq history backend
    | (Rejected e, _) => (Returned (getCatalog_catch e), w)
    end.
Proof.
  unfold trakt_configured. intros Henv.
  apply andb_true_iff in Henv as [Hid Hsecret].
  apply negb_true_iff in Hid, Hsecret.
  unfold getCatalog_alone, getCatalog, getWatchHistory_alone.
  rewrite Hid, Hsecret. simpl.
  destruct (getHistory (database w) clock (extractUserId (rq_config rq))) as [history|];
    [reflexivity|].
  destruct trakt as [history|e]; reflexivity.
Qed.

Lemma length_eqb_0 {A} (l : list A) : l <> [] -> (length l =? 0)%nat = false.
Proof. destruct l; [contradiction|reflexivity]. Qed.

Lemma getCatalog_serve_returns (w : World) (rq : Request)
    (history : list WatchHistoryItem) (all : list Recommendation) :
  fst (getCatalog_serve w rq history all)
  = Returned (recommendationsToMetas (slice all (rq_skip rq) (rq_skip rq + PAGE_SIZE))
                                     (rq_contentType rq)).
Proof. reflexivity. Qed.

(** A request whose awaited generation was rejected returns the
    placeholder of its [catch] block and touches nothing. *)
Lemma getCatalog_resume_rejected (w : World) (clock : Z) (rq : Request)
    (history : list WatchHistoryItem) (cached : list Recommendation) (p : nat) (e : Error) :
  settled w !! p = Some (Rejected e) ->
  getCatalog_resume w clock rq (AwaitGenerate history cached p) Tick
  = (Returned (getCatalog_catch e), w).
Proof. intros H. simpl. now rewrite H. Qed.

Lemma getCatalog_resume_fulfilled (w : World) (clock : Z) (rq : Request)
    (history : list WatchHistoryItem) (cached newRecs : list Recommendation) (p : nat) :
  settled w !! p = Some (Fulfilled newRecs) ->
  fst (getCatalog_resume w clock rq (AwaitGenerate history cached p) Tick)
  = Returned (recommendationsToMetas
                (slice (cached ++ newRecs) (rq_skip rq) (rq_skip rq + PAGE_SIZE))
                (rq_contentType rq)).
Proof. intros H. simpl. now rewrite H. Qed.

(** The page lies within the usable cached list: no expansion. *)
Lemma after_history_within_cache (w : World) (clock : Z) (rq : Request)
    (history : list WatchHistoryItem) (backend : Settled AIResponse) :
  history <> [] ->
  let cached :=
    default [] (getRecommendations (database w) clock
                  (catalogKey (extractUserId (rq_config rq)) (rq_categoryId rq)) history) in
  rq_skip rq + PAGE_SIZE <= Z.of_nat (length cached) ->
  fst (after_history w clock rq history backend)
  = Returned (recommendationsToMetas (slice cached (rq_skip rq) (rq_skip rq + PAGE_SIZE))
                                     (rq_contentType rq)).
Proof.
  intros Hne cached Hlen. unfold after_history. simpl.
  unfold getCatalog_withHistory. rewrite (length_eqb_0 history Hne).
  fold cached. destruct (Z.ltb_spec (Z.of_nat (length cached)) (rq_skip rq + PAGE_SIZE)); [lia|].
  reflexivity.
Qed.

(** The page reaches past the usable cached list and nothing is in
    flight for the key: the request dispatches, and resumes with what
    the promise body made of the backend's answer. *)
Lemma after_history_expands (w : World) (clock : Z) (rq : Request)
    (history : list WatchHistoryItem) (backend : Settled AIResponse) :
  history <> [] ->
  let cached :=
    default [] (getRecommendations (database w) clock
                  (catalogKey (extractUserId (rq_config rq)) (rq_categoryId rq)) history) in
  Z.of_nat (length cached) < rq_skip rq + PAGE_SIZE ->
  generationInProgress w !! generateKey (genArgs rq history cached) = None ->
  has_credentials (rq_config rq) = true ->
  exists p w',
    settled w' !! p = Some (generatePromise_result (closure_of (genArgs rq history cached)) backend)
    /\ (forall e, backend = Rejected e -> database w' = database w)
    /\ after_history w clock rq history backend
       = getCatalog_resume w' clock rq (AwaitGenerate history cached p) Tick.
Proof.
  intros Hne cached Hlen Hfree Hcred.
  destruct (generateBatch_dispatches w (genArgs rq history cached) Hfree Hcred)
    as (call & Hp & Hdb & Hin).
  destruct (generation_completes_in_flight _ _ _ _ _ clock backend Hin)
    as (_ & _ & Hres & Hdb').
  destruct (resume_in_flight _ _ _ _ _ clock backend Hin) as (_ & _ & _ & _ & Hdb'').
  set (k := generateKey (genArgs rq history cached)) in *.
  set (w1 := snd (generateBatch w (genArgs rq history cached))) in *.
  set (w2 := generation_completes w1 clock (nextPromise w) k backend) in *.
  exists (nextPromise w), w2. split; [exact Hres|]. split.
  - intros e ->. simpl in Hdb''. now rewrite Hdb', Hdb'', Hdb.
  - unfold after_history. simpl. unfold getCatalog_withHistory.
    rewrite (length_eqb_0 history Hne). fold cached.
    destruct (Z.ltb_spec (Z.of_nat (length cached)) (rq_skip rq + PAGE_SIZE)); [|lia].
    destruct (generateBatch w (genArgs rq history cached)) as [p w1'] eqn:Hg.
    simpl in Hp. subst p. simpl in w1. subst w1. reflexivity.
Qed.

(** C6, as stated: twenty items are cached for alice's "for-you" list
    and she asks for the page at 15. The expansion fails with a
    generation error. The five cached items of that page are not
    returned; the answer is one placeholder carrying the error. *)
Lemma generation_failure_hides_cached_items :
  let rq := page alice "for-you" 15 in
  let answer :=
    fst (getCatalog_alone env0 (cached_world 20) (t0 + 1000) rq
           (Rejected (PlainError "unused")) None
           (Rejected (AIProviderError "quota exceeded"))) in
  getRecommendations (database (cached_world 20)) (t0 + 1000)
                     (catalogKey alice_id "for-you") history1 = Some (recs_from 0 20)
  /\ slice (recs_from 0 20) 15 30 = recs_from 15 5
  /\ answer = Returned (createFallbackCatalog "AI error: quota exceeded")
  /\ answer <> Returned (recommendationsToMetas (recs_from 15 5) movie).
Proof.
  vm_compute. repeat split. intros H. discriminate H.
Qed.

(** C6, amended. A request served alone whose page reaches past the
    usable cached list and whose expansion the backend fails with [e]
    does not throw: it returns the single placeholder entry built by
    the [catch] block from [e] (description ["AI error: <message>"] for
    a generation error), not the cached items, and it leaves the
    database, cached list included, as it was. *)
Theorem generation_failure_returns_placeholder
    (env : Env) (w w1 : World) (clock : Z) (rq : Request)
    (trakt : Settled (list WatchHistoryItem)) (profile : option string)
    (history : list WatchHistoryItem) (cached : list Recommendation) (e : Error) :
  trakt_configured env = true ->
  getWatchHistory_alone w clock (extractUserId (rq_config rq)) trakt profile
    = (Fulfilled history, w1) ->
  history <> [] ->
  getRecommendations (database w1) clock
    (catalogKey (extractUserId (rq_config rq)) (rq_categoryId rq)) history = Some cached ->
  Z.of_nat (length cached) < rq_skip rq + PAGE_SIZE ->
  generationInProgress w1 !! generateKey (genArgs rq history cached) = None ->
  has_credentials (rq_config rq) = true ->
  let r := getCatalog_alone env w clock rq trakt profile (Rejected e) in
  fst r = Returned (getCatalog_catch e)
  /\ database (snd r) = database w1
  /\ (forall m, e = AIProviderError m ->
                fst r = Returned (createFallbackCatalog ("AI error: " +:+ m))).
Proof.
  intros Henv Hhist Hne Hcached Hlen Hfree Hcred r.
  assert (Hr : fst r = Returned (getCatalog_catch e) /\ database (snd r) = database w1).
  { subst r. rewrite (getCatalog_alone_history _ _ _ _ _ _ _ Henv), Hhist.
    pose proof (after_history_expands w1 clock rq history (Rejected e) Hne) as Hexp.
    cbv zeta in Hexp. rewrite Hcached in Hexp. cbn [default] in Hexp.
    destruct (Hexp Hlen Hfree Hcred) as (p & w' & Hres & Hdb & ->).
    rewrite (getCatalog_resume_rejected _ _ _ _ _ _ _ Hres). simpl.
    split; [reflexivity|]. now apply (Hdb e). }
  destruct Hr as [Hfst Hdb]. repeat split; try assumption.
  intros m ->. exact Hfst.
Qed.

Lemma generation_failure_returns_placeholder_witness :
  let env := env0 in
  let w := cached_world 20 in
  let clock := t0 + 1000 in
  let rq := page alice "for-you" 15 in
  let trakt : Settled (list WatchHistoryItem) := Rejected (PlainError "unused") in
  let e := AIProviderError "quota exceeded" in
  let r := getCatalog_alone env w clock rq trakt None (Rejected e) in
  trakt_configured env = true
  /\ getWatchHistory_alone w clock (extractUserId (rq_config rq)) trakt None
     = (Fulfilled history1, w)
  /\ history1 <> []
  /\ getRecommendations (database w) clock
       (catalogKey (extractUserId (rq_config rq)) (rq_categoryId rq)) history1
     = Some (recs_from 0 20)
  /\ Z.of_nat (length (recs_from 0 20)) < rq_skip rq + PAGE_SIZE
  /\ generationInProgress w !! generateKey (genArgs rq history1 (recs_from 0 20)) = None
  /\ has_credentials (rq_config rq) = true
  /\ fst r = Returned (getCatalog_catch e)
  /\ database (snd r) = database w
  /\ (forall m, e = AIProviderError m ->
                fst r = Returned (createFallbackCatalog ("AI error: " +:+ m))).
Proof.
  intros env w clock rq trakt e r.
  assert (H1 : trakt_configured env = true) by reflexivity.
  assert (H2 : getWatchHistory_alone w clock (extractUserId (rq_config rq)) trakt None
               = (Fulfilled history1, w)) by (vm_compute; reflexivity).
  assert (H3 : history1 <> []) by discriminate.
  assert (H4 : getRecommendations (database w) clock
                 (catalogKey (extractUserId (rq_config rq)) (rq_categoryId rq)) history1
               = Some (recs_from 0 20)) by (vm_compute; reflexivity).
  assert (H5 : Z.of_nat (length (recs_from 0 20)) < rq_skip rq + PAGE_SIZE)
    by (vm_compute; reflexivity).
  assert (H6 : generationInProgress w !! generateKey (genArgs rq history1 (recs_from 0 20))
               = None) by reflexivity.
  assert (H7 : has_credentials (rq_config rq) = true) by reflexivity.
  exact (conj H1 (conj H2 (conj H3 (conj H4 (conj H5 (conj H6 (conj H7
           (generation_failure_returns_placeholder env w w clock rq trakt None
              history1 (recs_from 0 20) e H1 H2 H3 H4 H5 H6 H7)))))))).
Defined.

(** C8, as stated: alice's snapshot is in the store but two hours old
    (the history TTL is one hour) and the Trakt fetch fails. The
    request is not served from the snapshot: it returns the placeholder
    of the [catch] block. The snapshot stays in the store. *)
Lemma expired_snapshot_is_not_served :
  let w := snapshot_world in
  let clock := t0 + two_hours_ms in
  hc_data <$> history_cache (database w) !! alice_id = Some (JSON_stringify history1)
  /\ hc_updated_at <$> history_cache (database w) !! alice_id = Some (unix_now t0)
  /\ CACHE_TTL_history <= unix_now clock - unix_now t0
  /\ getCatalog_alone env0 w clock (page alice "for-you" 0)
       (Rejected (TraktServiceError "HTTP 503")) None
       (Fulfilled (response_of (recs_from 0 15)))
     = (Returned (createFallbackCatalog "Trakt error: HTTP 503"), w).
Proof.
  vm_compute. repeat split. intros H. discriminate H.
Qed.

(** C8, amended. With the Trakt application credentials configured: a
    snapshot that [getHistory] accepts (present, within the history TTL)
    is what the request is served from, whatever the provider would
    answer; when there is no such snapshot and the provider fetch fails
    with [e], the request does not throw, returns the single
    placeholder entry of the [catch] block (description
    ["Trakt error: <message>"] for a Trakt error) and leaves the store,
    any older snapshot included, untouched. *)
Theorem provider_failure_returns_placeholder
    (env : Env) (w : World) (clock : Z) (rq : Request)
    (trakt : Settled (list WatchHistoryItem)) (profile : option string)
    (backend : Settled AIResponse) :
  trakt_configured env = true ->
  (forall history,
      getHistory (database w) clock (extractUserId (rq_config rq)) = Some history ->
      getCatalog_alone env w clock rq trakt profile backend
      = after_history w clock rq history backend)
  /\ (forall e,
        getHistory (database w) clock (extractUserId (rq_config rq)) = None ->
        trakt = Rejected e ->
        getCatalog_alone env w clock rq trakt profile backend
        = (Returned (getCatalog_catch e), w))
  /\ (forall m,
        getCatalog_catch (TraktServiceError m)
        = createFallbackCatalog ("Trakt error: " +:+ m)).
Proof.
  intros Henv. rewrite (getCatalog_alone_history _ _ _ _ _ _ _ Henv).
  unfold getWatchHistory_alone. repeat split.
  - intros history ->. reflexivity.
  - intros e -> ->. reflexivity.
Qed.

Lemma provider_failure_returns_placeholder_witness :
  let w := snapshot_world in
  let clock := t0 + two_hours_ms in
  let rq := page alice "for-you" 0 in
  let trakt : Settled (list WatchHistoryItem) := Rejected (TraktServiceError "HTTP 503") in
  let backend := Fulfilled (response_of (recs_from 0 15)) in
  trakt_configured env0 = true
  /\ getHistory (database w) clock (extractUserId (rq_config rq)) = None
  /\ getCatalog_alone env0 w clock rq trakt None backend
     = (Returned (getCatalog_catch (TraktServiceError "HTTP 503")), w).
Proof.
  intros w clock rq trakt backend.
  assert (H1 : trakt_configured env0 = true) by reflexivity.
  assert (H2 : getHistory (database w) clock (extractUserId (rq_config rq)) = None)
    by (vm_compute; reflexivity).
  exact (conj H1 (conj H2
           (proj1 (proj2 (provider_failure_returns_placeholder env0 w clock rq trakt None
                            backend H1))
                  (TraktServiceError "HTTP 503") H2 eq_refl))).
Defined.

(** C9, as stated: alice has a history, nothing is cached and the
    backend answers with no recommendation. The final slice is empty
    and the request returns the empty list, not a placeholder. *)
Lemma empty_slice_returns_empty_list :
  let rq := page alice "for-you" 0 in
  let answer :=
    fst (getCatalog_alone env0 snapshot_world (t0 + 1000) rq
           (Rejected (PlainError "unused")) None (Fulfilled (response_of []))) in
  slice (accumulated [] (rq_skip rq) (response_of []))
        (rq_skip rq) (rq_skip rq + PAGE_SIZE) = []
  /\ answer = Returned []
  /\ forall m, answer <> Returned [m].
Proof.
  vm_compute. repeat split. intros m H. discriminate H.
Qed.

(** C9, amended. A request served alone that gets past the history
    check (a non-empty history) and whose expansion, if any, succeeds
    returns exactly the entries of the final slice
    [[skip, skip + PAGE_SIZE)] of the accumulated list: when that slice
    is empty it returns the empty list. (The placeholder entry is what
    the three early exits return: missing Trakt credentials, an empty
    history, a caught error.) *)
Theorem final_slice_is_returned_as_is
    (env : Env) (w w1 : World) (clock : Z) (rq : Request)
    (trakt : Settled (list WatchHistoryItem)) (profile : option string)
    (history : list WatchHistoryItem) (response : AIResponse) :
  trakt_configured env = true ->
  getWatchHistory_alone w clock (extractUserId (rq_config rq)) trakt profile
    = (Fulfilled history, w1) ->
  history <> [] ->
  generationInProgress w1 !! generateKey (genArgs rq history []) = None ->
  has_credentials (rq_config rq) = true ->
  let cached :=
    default [] (getRecommendations (database w1) clock
                  (catalogKey (extractUserId (rq_config rq)) (rq_categoryId rq)) history) in
  let all := accumulated cached (rq_skip rq) response in
  let r := getCatalog_alone env w clock rq trakt profile (Fulfilled response) in
  fst r = Returned (recommendationsToMetas
                      (slice all (rq_skip rq) (rq_skip rq + PAGE_SIZE)) (rq_contentType rq))
  /\ (slice all (rq_skip rq) (rq_skip rq + PAGE_SIZE) = [] -> fst r = Returned []).
Proof.
  intros Henv Hhist Hne Hfree Hcred cached all r.
  assert (Hr : fst r = Returned (recommendationsToMetas
                 (slice all (rq_skip rq) (rq_skip rq + PAGE_SIZE)) (rq_contentType rq))).
  { subst r all. rewrite (getCatalog_alone_history _ _ _ _ _ _ _ Henv), Hhist.
    unfold accumulated.
    destruct (Z.ltb_spec (Z.of_nat (length cached)) (rq_skip rq + PAGE_SIZE)) as [Hlt|Hge].
    - destruct (after_history_expands w1 clock rq history (Fulfilled response) Hne Hlt Hfree Hcred)
        as (p & w' & Hres & _ & ->).
      now rewrite (getCatalog_resume_fulfilled _ _ _ _ _ _ _ Hres).
    - now apply after_history_within_cache. }
  split; [exact Hr|]. intros Hempty. now rewrite Hr, Hempty.
Qed.

Lemma final_slice_is_returned_as_is_witness :
  let w := snapshot_world in
  let clock := t0 + 1000 in
  let rq := page alice "for-you" 0 in
  let trakt : Settled (list WatchHistoryItem) := Rejected (PlainError "unused") in
  let response := response_of [] in
  let cached :=
    default [] (getRecommendations (database w) clock
                  (catalogKey (extractUserId (rq_config rq)) (rq_categoryId rq)) history1) in
  let all := accumulated cached (rq_skip rq) response in
  let r := getCatalog_alone env0 w clock rq trakt None (Fulfilled response) in
  trakt_configured env0 = true
  /\ getWatchHistory_alone w clock (extractUserId (rq_config rq)) trakt None
     = (Fulfilled history1, w)
  /\ history1 <> []
  /\ generationInProgress w !! generateKey (genArgs rq history1 []) = None
  /\ has_credentials (rq_config rq) = true
  /\ fst r = Returned (recommendationsToMetas
                         (slice all (rq_skip rq) (rq_skip rq + PAGE_SIZE)) (rq_contentType rq))
  /\ (slice all (rq_skip rq) (rq_skip rq + PAGE_SIZE) = [] -> fst r = Returned []).
Proof.
  intros w clock rq trakt response cached all r.
  assert (H1 : trakt_configured env0 = true) by reflexivity.
  assert (H2 : getWatchHistory_alone w clock (extractUserId (rq_config rq)) trakt None
               = (Fulfilled history1, w)) by (vm_compute; reflexivity).
  assert (H3 : history1 <> []) by discriminate.
  assert (H4 : generationInProgress w !! generateKey (genArgs rq history1 []) = None)
    by reflexivity.
  assert (H5 : has_credentials (rq_config rq) = true) by reflexivity.
  exact (conj H1 (conj H2 (conj H3 (conj H4 (conj H5
           (final_slice_is_returned_as_is env0 w w clock rq trakt None history1 response
              H1 H2 H3 H4 H5)))))).
Defined.

(** ** Similar-to lists *)

Lemma setRecommendations_lookup (db : Database) (clock : Z) (key : string)
    (recs : list Recommendation) (history : list WatchHistoryItem) :
  exists created,
    recommendation_cache (setRecommendations db clock key recs history) !! key
    = Some {| data := JSON_stringify recs; history_hash := hashHistory history;
              created_at := created; updated_at := unix_now clock |}.
Proof. unfold setRecommendations. simpl. rewrite lookup_insert_eq. eauto. Qed.

Lemma setRecommendations_other (db : Database) (clock : Z) (key key' : string)
    (recs : list Recommendation) (history : list WatchHistoryItem) :
  key' <> key ->
  recommendation_cache (setRecommendations db clock key recs history) !! key'
  = recommendation_cache db !! key'.
Proof. intros Hne. unfold setRecommendations. simpl. now rewrite lookup_insert_ne. Qed.

(** A row written for [history] at [clock1] is read back for [history']
    at [clock2] exactly when it is younger than the TTL and the two
    fingerprints agree. *)
Lemma getRecommendations_after_set (db db' : Database) (clock1 clock2 : Z) (key : string)
    (recs : list Recommendation) (history history' : list WatchHistoryItem) :
  recommendation_cache db' !! key
    = recommendation_cache (setRecommendations db clock1 key recs history) !! key ->
  getRecommendations db' clock2 key history'
  = if (unix_now clock2 - unix_now clock1 <? CACHE_TTL_recommendations)
       && String.eqb (hashHistory history) (hashHistory history')
    then Some recs else None.
Proof.
  intros Hrow. destruct (setRecommendations_lookup db clock1 key recs history) as [created Hset].
  rewrite Hset in Hrow. unfold getRecommendations. rewrite Hrow.
  cbn [updated_at history_hash data]. unfold isValid.
  destruct (unix_now clock2 - unix_now clock1 <? CACHE_TTL_recommendations); [|reflexivity].
  cbn [negb andb].
  destruct (String.eqb (hashHistory history) (hashHistory history')); reflexivity.
Qed.

(** C10. [getSimilar] reads and writes the row ["similar:<id>"] with the
    fingerprint of the empty history. So the list stored when one
    user's request was answered is, as long as that row is in place
    (whatever else changes, history snapshots included), returned to
    every user asking for the same source title, whatever their
    configuration, until its age reaches the recommendation TTL; from
    then on the read misses. *)
Theorem similar_list_is_shared_across_users
    (w w' : Similar.World) (clock1 clock2 : Z) (sourceImdbId : string)
    (typeA typeB : ContentType) (response : AIResponse) :
  let stored := snd (Similar.getSimilar_resume w clock1 sourceImdbId typeA (Fulfilled response)) in
  recommendation_cache (Similar.database w') !! Similar.similarKey sourceImdbId
    = recommendation_cache (Similar.database stored) !! Similar.similarKey sourceImdbId ->
  recommendations response <> [] ->
  (unix_now clock2 - unix_now clock1 < CACHE_TTL_recommendations ->
   forall (config : UserConfig) (sourceTitle : string),
     Similar.getSimilar w' clock2 config sourceImdbId sourceTitle typeB
     = (Similar.Returned (Similar.recommendationsToMetas (recommendations response) typeB), w'))
  /\ (CACHE_TTL_recommendations <= unix_now clock2 - unix_now clock1 ->
      getRecommendations (Similar.database w') clock2 (Similar.similarKey sourceImdbId) [] = None).
Proof.
  intros stored Hrow Hne.
  pose proof (getRecommendations_after_set _ _ clock1 clock2 _ _ [] [] Hrow) as Hget.
  rewrite String.eqb_refl, andb_true_r in Hget.
  split.
  - intros Hfresh config sourceTitle.
    apply Z.ltb_lt in Hfresh. rewrite Hfresh in Hget.
    unfold Similar.getSimilar. rewrite Hget.
    destruct (recommendations response) as [|r rs]; [contradiction|reflexivity].
  - intros Hold. apply Z.ltb_ge in Hold. now rewrite Hold in Hget.
Qed.

Lemma similar_list_is_shared_across_users_witness :
  let w := Similar.initial in
  let w' := similar_later in
  let response := response_of (recs_from 0 10) in
  let stored := snd (Similar.getSimilar_resume w t0 "tt0111161" movie (Fulfilled response)) in
  recommendation_cache (Similar.database w') !! Similar.similarKey "tt0111161"
    = recommendation_cache (Similar.database stored) !! Similar.similarKey "tt0111161"
  /\ recommendations response <> []
  /\ unix_now (t0 + 5000) - unix_now t0 < CACHE_TTL_recommendations
  /\ forall (config : UserConfig) (sourceTitle : string),
       Similar.getSimilar w' (t0 + 5000) config "tt0111161" sourceTitle series
       = (Similar.Returned (Similar.recommendationsToMetas (recommendations response) series), w').
Proof.
  intros w w' response stored.
  assert (H1 : recommendation_cache (Similar.database w') !! Similar.similarKey "tt0111161"
               = recommendation_cache (Similar.database stored) !! Similar.similarKey "tt0111161")
    by (vm_compute; reflexivity).
  assert (H2 : recommendations response <> []) by discriminate.
  assert (H3 : unix_now (t0 + 5000) - unix_now t0 < CACHE_TTL_recommendations)
    by (vm_compute; reflexivity).
  exact (conj H1 (conj H2 (conj H3
           (proj1 (similar_list_is_shared_across_users w w' t0 (t0 + 5000) "tt0111161"
                     movie series response H1 H2) H3)))).
Defined.

(* ===================================================================== *)
(** * Further properties of the cache repository *)
(* ===================================================================== *)

Lemma unix_now_mono (c1 c2 : Z) : c1 <= c2 -> unix_now c1 <= unix_now c2.
Proof. intros H. unfold unix_now. apply Z.div_le_mono; lia. Qed.

Lemma getHistory_after_set (db : Database) (c1 c2 : Z) (userId : string)
    (history : list WatchHistoryItem) (name : option string) :
  getHistory (setHistory db c1 userId history name) c2 userId
  = (if unix_now c2 - unix_now c1 <? CACHE_TTL_history then Some history else None).
Proof.
  unfold getHistory, setHistory. cbn [history_cache]. rewrite lookup_insert_eq.
  cbn [hc_updated_at hc_data]. unfold isValid.
  destruct (unix_now c2 - unix_now c1 <? CACHE_TTL_history); reflexivity.
Qed.

(** X1. A snapshot written by [setHistory] is read back by [getHistory]
    for the same user exactly while it is younger than the history
    TTL; reads for other users and the recommendation table are not
    affected by the write. *)
Theorem setHistory_getHistory (db : Database) (c1 c2 : Z) (userId : string)
    (history : list WatchHistoryItem) (name : option string) :
  getHistory (setHistory db c1 userId history name) c2 userId
    = (if unix_now c2 - unix_now c1 <? CACHE_TTL_history then Some history else None)
  /\ (forall other, other <> userId ->
        getHistory (setHistory db c1 userId history name) c2 other = getHistory db c2 other)
  /\ recommendation_cache (setHistory db c1 userId history name) = recommendation_cache db.
Proof.
  split; [|split].
  - apply getHistory_after_set.
  - intros other Hne. unfold getHistory, setHistory. cbn [history_cache].
    now rewrite lookup_insert_ne by congruence.
  - reflexivity.
Qed.

(** X2. A list written by [setRecommendations] for one history is read
    back under the same key for a history [h'] exactly while it is
    younger than the recommendation TTL and [h'] has the fingerprint of
    the history it was written for; other keys and the history table
    are not affected by the write. *)
Theorem setRecommendations_getRecommendations (db : Database) (c1 c2 : Z) (key : string)
    (recs : list Recommendation) (h h' : list WatchHistoryItem) :
  getRecommendations (setRecommendations db c1 key recs h) c2 key h'
    = (if (unix_now c2 - unix_now c1 <? CACHE_TTL_recommendations)
          && String.eqb (hashHistory h) (hashHistory h')
       then Some recs else None)
  /\ (forall other h'', other <> key ->
        getRecommendations (setRecommendations db c1 key recs h) c2 other h''
        = getRecommendations db c2 other h'')
  /\ history_cache (setRecommendations db c1 key recs h) = history_cache db.
Proof.
  split; [|split].
  - now apply (getRecommendations_after_set db).
  - intros other h'' Hne. unfold getRecommendations.
    now rewrite setRecommendations_other.
  - reflexivity.
Qed.

(** X3. The upsert keeps the creation time of a row: [created_at] is
    the time of the first write under a key and is not changed by later
    writes, while the list, the fingerprint and [updated_at] are those
    of the last write. *)
Theorem setRecommendations_upsert (db : Database) (c1 c2 : Z) (key : string)
    (recs1 recs2 : list Recommendation) (h1 h2 : list WatchHistoryItem) :
  recommendation_cache db !! key = None ->
  recommendation_cache
    (setRecommendations (setRecommendations db c1 key recs1 h1) c2 key recs2 h2) !! key
  = Some {| data := JSON_stringify recs2; history_hash := hashHistory h2;
            created_at := unix_now c1; updated_at := unix_now c2 |}.
Proof.
  intros Hnew. unfold setRecommendations. cbn [recommendation_cache].
  now rewrite !lookup_insert_eq, Hnew.
Qed.

Lemma setRecommendations_upsert_witness :
  recommendation_cache empty_db !! "alice-trakt-acce:for-you" = None
  /\ recommendation_cache
       (setRecommendations
          (setRecommendations empty_db 1700000100000 "alice-trakt-acce:for-you" [] [])
          1700000200000 "alice-trakt-acce:for-you" (recs_from 0 2) history1)
       !! "alice-trakt-acce:for-you"
     = Some {| data := JSON_stringify (recs_from 0 2); history_hash := hashHistory history1;
               created_at := unix_now 1700000100000; updated_at := unix_now 1700000200000 |}.
Proof.
  assert (H : recommendation_cache empty_db !! "alice-trakt-acce:for-you" = None)
    by reflexivity.
  exact (conj H (setRecommendations_upsert empty_db 1700000100000 1700000200000
                   "alice-trakt-acce:for-you" [] (recs_from 0 2) [] history1 H)).
Defined.

(** X4. After [invalidateRecommendations] the read under that key
    misses, at every time and for every history; the rows of other keys
    and the history table are left as they were. Likewise for
    [invalidateHistory]. *)
Theorem invalidate_forgets_one_key (db : Database) (key : string) :
  (forall clock h, getRecommendations (invalidateRecommendations db key) clock key h = None)
  /\ (forall other, other <> key ->
        recommendation_cache (invalidateRecommendations db key) !! other
        = recommendation_cache db !! other)
  /\ history_cache (invalidateRecommendations db key) = history_cache db
  /\ (forall clock, getHistory (invalidateHistory db key) clock key = None)
  /\ (forall other, other <> key ->
        history_cache (invalidateHistory db key) !! other = history_cache db !! other)
  /\ recommendation_cache (invalidateHistory db key) = recommendation_cache db.
Proof.
  repeat split.
  - intros clock h. unfold getRecommendations, invalidateRecommendations.
    cbn [recommendation_cache]. now rewrite lookup_delete_eq.
  - intros other Hne. unfold invalidateRecommendations. cbn [recommendation_cache].
    now rewrite lookup_delete_ne by congruence.
  - intros clock. unfold getHistory, invalidateHistory.
    cbn [history_cache]. now rewrite lookup_delete_eq.
  - intros other Hne. unfold invalidateHistory. cbn [history_cache].
    now rewrite lookup_delete_ne by congruence.
Qed.

(** X5. [cleanupExpired] is invisible to readers: at the time of the
    clean-up and at any later time, [getHistory] and
    [getRecommendations] answer on the cleaned database what they would
    have answered without the clean-up. *)
Theorem cleanupExpired_invisible (db : Database) (clock clock' : Z) :
  clock <= clock' ->
  (forall userId, getHistory (snd (cleanupExpired db clock)) clock' userId
                  = getHistory db clock' userId)
  /\ (forall key h, getRecommendations (snd (cleanupExpired db clock)) clock' key h
                    = getRecommendations db clock' key h).
Proof.
  intros Hle. apply unix_now_mono in Hle. split.
  - intros userId. unfold getHistory, cleanupExpired. cbn [snd history_cache].
    destruct (history_cache db !! userId) as [row|] eqn:Hrow.
    + destruct (decide (history_expired (unix_now clock - CACHE_TTL_history) (userId, row)))
        as [Hexp|Hkeep].
      * rewrite (proj2 (map_lookup_filter_None _ _ _)).
        2:{ right. intros x Hx. rewrite Hrow in Hx. injection Hx as <-. auto. }
        unfold history_expired in Hexp. simpl in Hexp. unfold isValid.
        destruct (Z.ltb_spec (unix_now clock' - hc_updated_at row) CACHE_TTL_history);
          [lia|reflexivity].
      * now rewrite (map_lookup_filter_Some_2 _ _ _ _ Hrow Hkeep).
    + rewrite (proj2 (map_lookup_filter_None _ _ _)); [reflexivity|now left].
  - intros key h. unfold getRecommendations, cleanupExpired. cbn [snd recommendation_cache].
    destruct (recommendation_cache db !! key) as [row|] eqn:Hrow.
    + destruct (decide (recommendation_expired
                          (unix_now clock - CACHE_TTL_recommendations) (key, row)))
        as [Hexp|Hkeep].
      * rewrite (proj2 (map_lookup_filter_None _ _ _)).
        2:{ right. intros x Hx. rewrite Hrow in Hx. injection Hx as <-. auto. }
        unfold recommendation_expired in Hexp. simpl in Hexp. unfold isValid.
        destruct (Z.ltb_spec (unix_now clock' - updated_at row) CACHE_TTL_recommendations);
          [lia|reflexivity].
      * now rewrite (map_lookup_filter_Some_2 _ _ _ _ Hrow Hkeep).
    + rewrite (proj2 (map_lookup_filter_None _ _ _)); [reflexivity|now left].
Qed.

Lemma cleanupExpired_invisible_witness :
  let db := database (cached_world 3) in
  t0 + two_hours_ms <= t0 + two_hours_ms + 1000
  /\ (forall userId,
        getHistory (snd (cleanupExpired db (t0 + two_hours_ms))) (t0 + two_hours_ms + 1000) userId
        = getHistory db (t0 + two_hours_ms + 1000) userId)
  /\ (forall key h,
        getRecommendations (snd (cleanupExpired db (t0 + two_hours_ms)))
                           (t0 + two_hours_ms + 1000) key h
        = getRecommendations db (t0 + two_hours_ms + 1000) key h).
Proof.
  intros db.
  assert (H : t0 + two_hours_ms <= t0 + two_hours_ms + 1000) by lia.
  exact (conj H (cleanupExpired_invisible db _ _ H)).
Defined.

(** X6. The counts reported by [cleanupExpired] are the numbers of rows
    it removed: added to the counts [getStats] reports afterwards they
    give the counts [getStats] reported before. *)
Theorem cleanupExpired_counts (db : Database) (clock : Z) :
  let result := cleanupExpired db clock in
  (historyDeleted (fst result) + historyCount (getStats (snd result)))%nat
    = historyCount (getStats db)
  /\ (recommendationsDeleted (fst result) + recommendationCount (getStats (snd result)))%nat
     = recommendationCount (getStats db).
Proof.
  unfold cleanupExpired, getStats. cbn. split.
  - rewrite <- map_size_disj_union by apply map_disjoint_filter_complement.
    now rewrite map_filter_union_complement.
  - rewrite <- map_size_disj_union by apply map_disjoint_filter_complement.
    now rewrite map_filter_union_complement.
Qed.

(** X7. [cleanupExpired] keeps exactly the rows whose age is at most
    the TTL. A row whose age is exactly the TTL is therefore kept,
    although [getRecommendations] already refuses it (its test is
    [now - updated_at < ttl]). *)
Theorem cleanupExpired_keeps_up_to_ttl (db : Database) (clock : Z) (key : string)
    (row : RecommendationCacheRow) :
  (recommendation_cache (snd (cleanupExpired db clock)) !! key = Some row
   <-> recommendation_cache db !! key = Some row
       /\ unix_now clock - updated_at row <= CACHE_TTL_recommendations)
  /\ (recommendation_cache db !! key = Some row ->
      unix_now clock - updated_at row = CACHE_TTL_recommendations ->
      recommendation_cache (snd (cleanupExpired db clock)) !! key = Some row
      /\ forall h, getRecommendations db clock key h = None).
Proof.
  assert (Hkept : recommendation_cache (snd (cleanupExpired db clock)) !! key = Some row
                  <-> recommendation_cache db !! key = Some row
                      /\ unix_now clock - updated_at row <= CACHE_TTL_recommendations).
  { unfold cleanupExpired. cbn [snd recommendation_cache].
    rewrite map_lookup_filter_Some. unfold recommendation_expired. simpl.
    split; intros [Hrow Hage]; (split; [exact Hrow|lia]). }
  split; [exact Hkept|].
  intros Hrow Hage. split; [apply Hkept; split; [exact Hrow|lia]|].
  intros h. unfold getRecommendations. rewrite Hrow. unfold isValid.
  destruct (Z.ltb_spec (unix_now clock - updated_at row) CACHE_TTL_recommendations);
    [lia|reflexivity].
Qed.

Lemma cleanupExpired_keeps_up_to_ttl_witness :
  let db := database (cached_world 3) in
  let key := catalogKey alice_id "for-you" in
  let clock := t0 + 4 * 60 * 60 * 1000 in
  let row := {| data := JSON_stringify (recs_from 0 3);
                history_hash := "53be0698dc19da96";
                created_at := 1700000100; updated_at := 1700000100 |} in
  recommendation_cache db !! key = Some row
  /\ unix_now clock - updated_at row = CACHE_TTL_recommendations
  /\ recommendation_cache (snd (cleanupExpired db clock)) !! key = Some row
  /\ forall h, getRecommendations db clock key h = None.
Proof.
  intros db key clock row.
  assert (H1 : recommendation_cache db !! key = Some row) by (vm_compute; reflexivity).
  assert (H2 : unix_now clock - updated_at row = CACHE_TTL_recommendations)
    by (vm_compute; reflexivity).
  exact (conj H1 (conj H2
           (proj2 (cleanupExpired_keeps_up_to_ttl db clock key row) H1 H2))).
Defined.

(* ===================================================================== *)
(** * Further properties of the catalog handler *)
(* ===================================================================== *)

(** ** Provider selection *)

(** X8. [selectProvider] throws exactly when the configuration has no
    usable OAuth token and no API key. With at least one OAuth token
    the API key is not used (the call carries an empty key and the
    token of the chosen provider) and the round-robin counter advances
    by one; with the API key alone the provider is Gemini and the
    counter is left alone. *)
Theorem selectProvider_outcomes (msg : string) (config : UserConfig) (n : nat) :
  (selectProvider msg config n = inl (PlainError msg)
   <-> getAvailableProviders config = []
       /\ (geminiApiKey config = None \/ geminiApiKey config = Some ""%string))
  /\ (getAvailableProviders config <> [] ->
      exists selected,
        nth_error (getAvailableProviders config)
                  (n mod length (getAvailableProviders config)) = Some selected
        /\ selectProvider msg config n
           = inr (pi_type selected,
                  {| apiKey := ""; ai_accessToken := Some (pi_accessToken selected);
                     ai_temperature := temperature config; excludeImdbIds := None;
                     count := None; categoryId := None; similarTo := None |},
                  S n))
  /\ (getAvailableProviders config = [] ->
      forall key, geminiApiKey config = Some key -> key <> ""%string ->
      selectProvider msg config n
      = inr (gemini,
             {| apiKey := key; ai_accessToken := None;
                ai_temperature := temperature config; excludeImdbIds := None;
                count := None; categoryId := None; similarTo := None |},
             n)).
Proof.
  unfold selectProvider.
  destruct (getAvailableProviders config) as [|info rest] eqn:Hprov.
  - cbn [length Nat.ltb Nat.leb]. split; [|split].
    + destruct (geminiApiKey config) as [key|]; [|intuition].
      destruct (String.eqb_spec key ""); subst; split; intros H; try discriminate;
        try (split; [reflexivity|right; reflexivity]); try reflexivity.
      destruct H as [_ [H|H]]; [discriminate|]. congruence.
    + intros H. contradiction.
    + intros _ key -> Hkey. destruct (String.eqb_spec key ""); [contradiction|reflexivity].
  - assert (Hpos : (0 <? length (info :: rest))%nat = true) by reflexivity.
    rewrite Hpos.
    destruct (nth_error (info :: rest) (n mod length (info :: rest))) as [selected|] eqn:Hnth.
    + split; [|split].
      * split; [discriminate|]. intros [H _]. discriminate.
      * intros _. exists selected. split; reflexivity.
      * intros H. discriminate.
    + apply nth_error_None in Hnth.
      pose proof (Nat.mod_upper_bound n (length (info :: rest))) as Hlt.
      simpl length in *. lia.
Qed.

(** X9. Round robin. Whatever the counter is, every connected OAuth
    provider is the one chosen by one of the next [n] selections, [n]
    being the number of connected providers. *)
Theorem selectProvider_round_robin (msg : string) (config : UserConfig)
    (counter i : nat) (info : ProviderInfo) :
  nth_error (getAvailableProviders config) i = Some info ->
  exists j aiConfig,
    (j < length (getAvailableProviders config))%nat
    /\ selectProvider msg config (counter + j) = inr (pi_type info, aiConfig, S (counter + j))
    /\ ai_accessToken aiConfig = Some (pi_accessToken info).
Proof.
  intros Hnth.
  set (providers := getAvailableProviders config) in *.
  assert (Hi : (i < length providers)%nat) by (apply nth_error_Some; congruence).
  set (n := length providers) in *.
  set (j := ((i + n - counter mod n) mod n)%nat).
  assert (Hj : (j < n)%nat) by (apply Nat.mod_upper_bound; lia).
  assert (Hmod : ((counter + j) mod n = i)%nat).
  { subst j. rewrite Nat.Div0.add_mod_idemp_r.
    pose proof (Nat.mod_upper_bound counter n ltac:(lia)) as Hr.
    pose proof (Nat.div_mod_eq counter n) as Hc.
    replace (counter + (i + n - counter mod n))%nat
      with (i + (counter / n + 1) * n)%nat by nia.
    rewrite Nat.Div0.mod_add. now apply Nat.mod_small. }
  assert (Hpos : (0 <? length providers)%nat = true) by (apply Nat.ltb_lt; fold n; lia).
  eexists j, _. split; [exact Hj|].
  unfold selectProvider. fold providers. rewrite Hpos. fold n. rewrite Hmod, Hnth.
  split; reflexivity.
Qed.

Lemma selectProvider_round_robin_witness :
  nth_error (getAvailableProviders bob) 1 = Some {| pi_type := claude; pi_accessToken := "sk-ant-bob" |}
  /\ exists j aiConfig,
       (j < length (getAvailableProviders bob))%nat
       /\ selectProvider no_credentials_catalog bob (6 + j)
          = inr (claude, aiConfig, S (6 + j))
       /\ ai_accessToken aiConfig = Some "sk-ant-bob"%string.
Proof.
  assert (H : nth_error (getAvailableProviders bob) 1
              = Some {| pi_type := claude; pi_accessToken := "sk-ant-bob" |}) by reflexivity.
  exact (conj H (selectProvider_round_robin no_credentials_catalog bob 6 1 _ H)).
Defined.

(** ** Batch sizes *)

(** X10. The batch size never shrinks as the list grows, and is always
    one of the three tier sizes. *)
Theorem getBatchSize_monotone (n m : Z) :
  0 <= n <= m ->
  fst (getBatchSize n) <= fst (getBatchSize m)
  /\ (fst (getBatchSize n) = FIRST_BATCH_SIZE
      \/ fst (getBatchSize n) = SECOND_BATCH_SIZE
      \/ fst (getBatchSize n) = BATCH_SIZE).
Proof.
  intros [Hn Hnm]. unfold getBatchSize, FIRST_BATCH_SIZE, SECOND_BATCH_SIZE, BATCH_SIZE.
  destruct (Z.eqb_spec n 0), (Z.eqb_spec m 0), (Z.leb_spec n 15), (Z.leb_spec m 15);
    simpl; split; try lia; auto.
Qed.

Lemma getBatchSize_monotone_witness :
  0 <= 15 <= 16
  /\ fst (getBatchSize 15) <= fst (getBatchSize 16)
  /\ (fst (getBatchSize 15) = FIRST_BATCH_SIZE
      \/ fst (getBatchSize 15) = SECOND_BATCH_SIZE
      \/ fst (getBatchSize 15) = BATCH_SIZE).
Proof.
  assert (H : 0 <= 15 <= 16) by lia.
  exact (conj H (getBatchSize_monotone 15 16 H)).
Defined.

(** ** Pages *)

Lemma slice_length {A} (l : list A) (s e : Z) :
  Z.of_nat (length (slice l s e))
  = Z.max 0 (Z.min
      ((if e <? 0 then Z.max (Z.of_nat (length l) + e) 0 else Z.min e (Z.of_nat (length l)))
       - (if s <? 0 then Z.max (Z.of_nat (length l) + s) 0 else Z.min s (Z.of_nat (length l))))
      (Z.of_nat (length l)
       - (if s <? 0 then Z.max (Z.of_nat (length l) + s) 0 else Z.min s (Z.of_nat (length l))))).
Proof.
  unfold slice. rewrite length_firstn, length_skipn.
  destruct (Z.ltb_spec s 0), (Z.ltb_spec e 0); lia.
Qed.

Lemma slice_length_le {A} (l : list A) (s n : Z) :
  0 <= n -> Z.of_nat (length (slice l s (s + n))) <= n.
Proof.
  intros Hn. rewrite slice_length.
  destruct (Z.ltb_spec s 0), (Z.ltb_spec (s + n) 0); lia.
Qed.

Lemma slice_in_range {A} (l : list A) (s n : Z) :
  0 <= s -> 0 <= n -> s + n <= Z.of_nat (length l) ->
  slice l s (s + n) = firstn (Z.to_nat n) (skipn (Z.to_nat s) l)
  /\ Z.of_nat (length (slice l s (s + n))) = n.
Proof.
  intros Hs Hn Hlen. split.
  - unfold slice.
    destruct (Z.ltb_spec s 0), (Z.ltb_spec (s + n) 0); try lia.
    do 2 f_equal; try f_equal; lia.
  - rewrite slice_length.
    destruct (Z.ltb_spec s 0), (Z.ltb_spec (s + n) 0); lia.
Qed.

Lemma recommendationsToMetas_length (recs : list Recommendation) (ty : ContentType) :
  length (recommendationsToMetas recs ty) = length recs.
Proof. unfold recommendationsToMetas. apply length_map. Qed.

Lemma getCatalog_catch_length (e : Error) : length (getCatalog_catch e) = 1%nat.
Proof. destruct e; reflexivity. Qed.

Lemma getCatalog_serve_bound (w : World) (rq : Request)
    (history : list WatchHistoryItem) (all : list Recommendation) (metas : list StremioMeta) :
  fst (getCatalog_serve w rq history all) = Returned metas ->
  Z.of_nat (length metas) <= PAGE_SIZE.
Proof.
  rewrite getCatalog_serve_returns. intros [= <-].
  rewrite recommendationsToMetas_length. apply slice_length_le. unfold PAGE_SIZE. lia.
Qed.

Lemma getCatalog_withHistory_bound (w : World) (clock : Z) (rq : Request)
    (history : list WatchHistoryItem) (metas : list StremioMeta) :
  fst (getCatalog_withHistory w clock rq history) = Returned metas ->
  Z.of_nat (length metas) <= PAGE_SIZE.
Proof.
  unfold getCatalog_withHistory.
  destruct (length history =? 0)%nat.
  - intros [= <-]. unfold PAGE_SIZE. simpl. lia.
  - destruct (_ <? _).
    + destruct (generateBatch _ _). discriminate.
    + apply getCatalog_serve_bound.
Qed.

Lemma getCatalog_resume_generate_bound (w : World) (clock : Z) (rq : Request)
    (history : list WatchHistoryItem) (cached : list Recommendation) (p : nat)
    (metas : list StremioMeta) :
  fst (getCatalog_resume w clock rq (AwaitGenerate history cached p) Tick) = Returned metas ->
  Z.of_nat (length metas) <= PAGE_SIZE.
Proof.
  simpl. destruct (settled w !! p) as [[newRecs|e]|].
  - apply getCatalog_serve_bound.
  - intros [= <-]. rewrite getCatalog_catch_length. unfold PAGE_SIZE. lia.
  - discriminate.
Qed.

Lemma after_history_bound (w : World) (clock : Z) (rq : Request)
    (history : list WatchHistoryItem) (backend : Settled AIResponse)
    (metas : list StremioMeta) :
  fst (after_history w clock rq history backend) = Returned metas ->
  Z.of_nat (length metas) <= PAGE_SIZE.
Proof.
  unfold after_history.
  destruct (getCatalog_resume w clock rq (AwaitWatchHistory history) Tick) as [st w1] eqn:Hs.
  assert (Hst : forall m, st = Returned m -> Z.of_nat (length m) <= PAGE_SIZE).
  { intros m ->. apply (getCatalog_withHistory_bound w clock rq history).
    simpl in Hs. now rewrite Hs. }
  cbn [fst snd]. destruct st; try discriminate.
  - apply getCatalog_resume_generate_bound.
  - intros [= <-]. now apply Hst.
Qed.

(** X11. A page never holds more than [PAGE_SIZE] entries: whatever
    the store, the request (its [skip] may be negative or beyond the
    list) and the answers of Trakt and of the backend, a request that
    returns, returns at most 15 entries. *)
Theorem getCatalog_page_bound (env : Env) (w : World) (clock : Z) (rq : Request)
    (trakt : Settled (list WatchHistoryItem)) (profile : option string)
    (backend : Settled AIResponse) (metas : list StremioMeta) :
  fst (getCatalog_alone env w clock rq trakt profile backend) = Returned metas ->
  Z.of_nat (length metas) <= PAGE_SIZE.
Proof.
  unfold getCatalog_alone, getCatalog.
  destruct (String.eqb (TRAKT_CLIENT_ID env) "" || String.eqb (TRAKT_CLIENT_SECRET env) "").
  - cbn. intros [= <-]. unfold PAGE_SIZE. simpl. lia.
  - destruct (getHistory (database w) clock (extractUserId (rq_config rq))) as [history|].
    + cbn [fst snd]. apply after_history_bound.
    + cbn [fst snd]. destruct trakt as [history|e]; cbn.
      * apply after_history_bound.
      * intros [= <-]. rewrite getCatalog_catch_length. unfold PAGE_SIZE. lia.
Qed.

Lemma getCatalog_page_bound_witness :
  let metas := recommendationsToMetas (slice (recs_from 0 60) 15 30) movie in
  fst (getCatalog_alone env0 (cached_world 60) (t0 + 1000) (page alice "for-you" 15)
         (Rejected (PlainError "unused")) None (Rejected (PlainError "unused")))
  = Returned metas
  /\ Z.of_nat (length metas) <= PAGE_SIZE.
Proof.
  intros metas.
  assert (H : fst (getCatalog_alone env0 (cached_world 60) (t0 + 1000)
                     (page alice "for-you" 15)
                     (Rejected (PlainError "unused")) None (Rejected (PlainError "unused")))
              = Returned metas) by (vm_compute; reflexivity).
  exact (conj H (getCatalog_page_bound env0 (cached_world 60) (t0 + 1000)
                   (page alice "for-you" 15) (Rejected (PlainError "unused")) None
                   (Rejected (PlainError "unused")) metas H)).
Defined.

Lemma generateBatch_dispatch_call (w : World) (a : GenArgs) :
  generationInProgress w !! generateKey a = None ->
  has_credentials (g_config a) = true ->
  exists call,
    backendCalls (snd (generateBatch w a)) = backendCalls w ++ [(generateKey a, call)]
    /\ bc_history call = g_history a
    /\ excludeImdbIds (bc_config call) = Some (map imdbId (g_existingRecs a))
    /\ count (bc_config call)
       = Some (fst (getBatchSize (Z.of_nat (length (g_existingRecs a)))))
    /\ categoryId (bc_config call) = Some (g_categoryId a)
    /\ generationInProgress (snd (generateBatch w a))
       = <[generateKey a := nextPromise w]> (generationInProgress w)
    /\ database (snd (generateBatch w a)) = database w.
Proof.
  intros Hfree Hcred. unfold generateBatch. rewrite Hfree.
  destruct (selectProvider_ok no_credentials_catalog (g_config a) (providerCounter w) Hcred)
    as (provider & aiConfig & n' & ->).
  eexists. cbn. repeat split; reflexivity.
Qed.

(** The page lies within the usable cached list: the request goes
    straight to its serving step. *)
Lemma after_history_serves_cache (w : World) (clock : Z) (rq : Request)
    (history : list WatchHistoryItem) (cached : list Recommendation)
    (backend : Settled AIResponse) :
  history <> [] ->
  getRecommendations (database w) clock
    (catalogKey (extractUserId (rq_config rq)) (rq_categoryId rq)) history = Some cached ->
  rq_skip rq + PAGE_SIZE <= Z.of_nat (length cached) ->
  after_history w clock rq history backend = getCatalog_serve w rq history cached.
Proof.
  intros Hne Hcached Hlen. unfold after_history. simpl.
  unfold getCatalog_withHistory. rewrite (length_eqb_0 history Hne), Hcached.
  change (default [] (Some cached)) with cached.
  destruct (Z.ltb_spec (Z.of_nat (length cached)) (rq_skip rq + PAGE_SIZE)); [lia|].
  reflexivity.
Qed.

(** X12. A page inside the cache with a comfortable margin is served
    without any effect: when the snapshot and the cached list are
    usable and at least [PREFETCH_THRESHOLD] items remain after the
    page, the request returns the 15 cached items of the page and the
    state is exactly what it was (no backend call, no write, nothing
    registered). *)
Theorem cached_page_is_served_without_effect
    (env : Env) (w : World) (clock : Z) (rq : Request)
    (trakt : Settled (list WatchHistoryItem)) (profile : option string)
    (backend : Settled AIResponse)
    (history : list WatchHistoryItem) (cached : list Recommendation) :
  trakt_configured env = true ->
  getHistory (database w) clock (extractUserId (rq_config rq)) = Some history ->
  history <> [] ->
  getRecommendations (database w) clock
    (catalogKey (extractUserId (rq_config rq)) (rq_categoryId rq)) history = Some cached ->
  0 <= rq_skip rq ->
  rq_skip rq + PAGE_SIZE + PREFETCH_THRESHOLD <= Z.of_nat (length cached) ->
  getCatalog_alone env w clock rq trakt profile backend
  = (Returned (recommendationsToMetas
                 (firstn 15 (skipn (Z.to_nat (rq_skip rq)) cached)) (rq_contentType rq)), w)
  /\ length (firstn 15 (skipn (Z.to_nat (rq_skip rq)) cached)) = 15%nat.
Proof.
  intros Henv Hhist Hne Hcached Hskip Hlen.
  unfold PAGE_SIZE, PREFETCH_THRESHOLD in *.
  rewrite (getCatalog_alone_history _ _ _ _ _ _ _ Henv).
  unfold getWatchHistory_alone. rewrite Hhist.
  rewrite (after_history_serves_cache w clock rq history cached backend Hne Hcached)
    by (unfold PAGE_SIZE; lia).
  unfold getCatalog_serve, PAGE_SIZE, PREFETCH_THRESHOLD.
  destruct (Z.ltb_spec (Z.of_nat (length cached) - (rq_skip rq + 15)) 30); [lia|].
  destruct (slice_in_range cached (rq_skip rq) 15 Hskip ltac:(lia) ltac:(lia)) as [Hslice Hl].
  rewrite Hslice in *. split; [reflexivity|]. change (Z.to_nat 15) with 15%nat in Hl. lia.
Qed.

Lemma cached_page_is_served_without_effect_witness :
  let w := cached_world 60 in
  let rq := page alice "for-you" 15 in
  let trakt : Settled (list WatchHistoryItem) := Rejected (PlainError "unused") in
  let backend : Settled AIResponse := Rejected (PlainError "unused") in
  trakt_configured env0 = true
  /\ getHistory (database w) (t0 + 1000) (extractUserId (rq_config rq)) = Some history1
  /\ history1 <> []
  /\ getRecommendations (database w) (t0 + 1000)
       (catalogKey (extractUserId (rq_config rq)) (rq_categoryId rq)) history1
     = Some (recs_from 0 60)
  /\ 0 <= rq_skip rq
  /\ rq_skip rq + PAGE_SIZE + PREFETCH_THRESHOLD <= Z.of_nat (length (recs_from 0 60))
  /\ getCatalog_alone env0 w (t0 + 1000) rq trakt None backend
     = (Returned (recommendationsToMetas
                    (firstn 15 (skipn (Z.to_nat (rq_skip rq)) (recs_from 0 60)))
                    (rq_contentType rq)), w)
  /\ length (firstn 15 (skipn (Z.to_nat (rq_skip rq)) (recs_from 0 60))) = 15%nat.
Proof.
  intros w rq trakt backend.
  assert (H1 : trakt_configured env0 = true) by reflexivity.
  assert (H2 : getHistory (database w) (t0 + 1000) (extractUserId (rq_config rq))
               = Some history1) by (vm_compute; reflexivity).
  assert (H3 : history1 <> []) by discriminate.
  assert (H4 : getRecommendations (database w) (t0 + 1000)
                 (catalogKey (extractUserId (rq_config rq)) (rq_categoryId rq)) history1
               = Some (recs_from 0 60)) by (vm_compute; reflexivity).
  assert (H5 : 0 <= rq_skip rq) by (vm_compute; discriminate).
  assert (H6 : rq_skip rq + PAGE_SIZE + PREFETCH_THRESHOLD
               <= Z.of_nat (length (recs_from 0 60))) by (vm_compute; discriminate).
  exact (conj H1 (conj H2 (conj H3 (conj H4 (conj H5 (conj H6
           (cached_page_is_served_without_effect env0 w (t0 + 1000) rq trakt None backend
              history1 (recs_from 0 60) H1 H2 H3 H4 H5 H6))))))).
Defined.

Lemma getCatalog_serve_database (w : World) (rq : Request)
    (history : list WatchHistoryItem) (all : list Recommendation) :
  database (snd (getCatalog_serve w rq history all)) = database w.
Proof.
  unfold getCatalog_serve. cbn [snd]. destruct (_ <? _); [|reflexivity].
  unfold triggerPrefetch. destruct (decide _); [reflexivity|apply generateBatch_database].
Qed.

(** X13. A page inside the cache with fewer than [PREFETCH_THRESHOLD]
    items left after it is served from the cache all the same, and the
    database is not written. If nothing is registered for the key (and
    there are credentials) one backend call is dispatched in the
    background, asking for the batch size of the cached length and
    excluding every cached identifier; if a generation is already
    registered the state is left exactly as it was. *)
Theorem low_margin_page_prefetches
    (env : Env) (w : World) (clock : Z) (rq : Request)
    (trakt : Settled (list WatchHistoryItem)) (profile : option string)
    (backend : Settled AIResponse)
    (history : list WatchHistoryItem) (cached : list Recommendation) :
  trakt_configured env = true ->
  getHistory (database w) clock (extractUserId (rq_config rq)) = Some history ->
  history <> [] ->
  getRecommendations (database w) clock
    (catalogKey (extractUserId (rq_config rq)) (rq_categoryId rq)) history = Some cached ->
  rq_skip rq + PAGE_SIZE <= Z.of_nat (length cached) ->
  Z.of_nat (length cached) < rq_skip rq + PAGE_SIZE + PREFETCH_THRESHOLD ->
  let r := getCatalog_alone env w clock rq trakt profile backend in
  let k := generateKey (genArgs rq history cached) in
  fst r = Returned (recommendationsToMetas
                      (slice cached (rq_skip rq) (rq_skip rq + PAGE_SIZE)) (rq_contentType rq))
  /\ database (snd r) = database w
  /\ (is_Some (generationInProgress w !! k) -> snd r = w)
  /\ (generationInProgress w !! k = None ->
      has_credentials (rq_config rq) = true ->
      exists call,
        backendCalls (snd r) = backendCalls w ++ [(k, call)]
        /\ count (bc_config call) = Some (fst (getBatchSize (Z.of_nat (length cached))))
        /\ excludeImdbIds (bc_config call) = Some (map imdbId cached)
        /\ generationInProgress (snd r) !! k = Some (nextPromise w)).
Proof.
  intros Henv Hhist Hne Hcached Hlen Hmargin r k. subst r.
  rewrite (getCatalog_alone_history _ _ _ _ _ _ _ Henv).
  unfold getWatchHistory_alone. rewrite Hhist.
  rewrite (after_history_serves_cache w clock rq history cached backend Hne Hcached Hlen).
  split; [apply getCatalog_serve_returns|].
  split; [apply getCatalog_serve_database|].
  unfold getCatalog_serve. cbn [snd].
  destruct (Z.ltb_spec (Z.of_nat (length cached) - (rq_skip rq + PAGE_SIZE)) PREFETCH_THRESHOLD);
    [|lia].
  unfold triggerPrefetch. fold k. split.
  - intros Hreg. destruct (decide (is_Some (generationInProgress w !! k))); [reflexivity|].
    contradiction.
  - intros Hfree Hcred.
    destruct (decide (is_Some (generationInProgress w !! k))) as [[q Hq]|_]; [congruence|].
    destruct (generateBatch_dispatch_call w (genArgs rq history cached) Hfree Hcred)
      as (call & Hlog & _ & Hex & Hcount & _ & Hregistry & _).
    exists call. fold k in Hlog, Hregistry. rewrite Hregistry, lookup_insert_eq.
    repeat split; assumption.
Qed.

Lemma low_margin_page_prefetches_witness :
  let w := cached_world 60 in
  let rq := page alice "for-you" 30 in
  let trakt : Settled (list WatchHistoryItem) := Rejected (PlainError "unused") in
  let backend : Settled AIResponse := Rejected (PlainError "unused") in
  let r := getCatalog_alone env0 w (t0 + 1000) rq trakt None backend in
  let k := generateKey (genArgs rq history1 (recs_from 0 60)) in
  trakt_configured env0 = true
  /\ getHistory (database w) (t0 + 1000) (extractUserId (rq_config rq)) = Some history1
  /\ history1 <> []
  /\ getRecommendations (database w) (t0 + 1000)
       (catalogKey (extractUserId (rq_config rq)) (rq_categoryId rq)) history1
     = Some (recs_from 0 60)
  /\ rq_skip rq + PAGE_SIZE <= Z.of_nat (length (recs_from 0 60))
  /\ Z.of_nat (length (recs_from 0 60)) < rq_skip rq + PAGE_SIZE + PREFETCH_THRESHOLD
  /\ generationInProgress w !! k = None
  /\ has_credentials (rq_config rq) = true
  /\ exists call,
       backendCalls (snd r) = backendCalls w ++ [(k, call)]
       /\ count (bc_config call)
          = Some (fst (getBatchSize (Z.of_nat (length (recs_from 0 60)))))
       /\ excludeImdbIds (bc_config call) = Some (map imdbId (recs_from 0 60))
       /\ generationInProgress (snd r) !! k = Some (nextPromise w).
Proof.
  intros w rq trakt backend r k.
  assert (H1 : trakt_configured env0 = true) by reflexivity.
  assert (H2 : getHistory (database w) (t0 + 1000) (extractUserId (rq_config rq))
               = Some history1) by (vm_compute; reflexivity).
  assert (H3 : history1 <> []) by discriminate.
  assert (H4 : getRecommendations (database w) (t0 + 1000)
                 (catalogKey (extractUserId (rq_config rq)) (rq_categoryId rq)) history1
               = Some (recs_from 0 60)) by (vm_compute; reflexivity).
  assert (H5 : rq_skip rq + PAGE_SIZE <= Z.of_nat (length (recs_from 0 60)))
    by (vm_compute; discriminate).
  assert (H6 : Z.of_nat (length (recs_from 0 60)) < rq_skip rq + PAGE_SIZE + PREFETCH_THRESHOLD)
    by (vm_compute; reflexivity).
  assert (H7 : generationInProgress w !! k = None) by reflexivity.
  assert (H8 : has_credentials (rq_config rq) = true) by reflexivity.
  exact (conj H1 (conj H2 (conj H3 (conj H4 (conj H5 (conj H6 (conj H7 (conj H8
           (proj2 (proj2 (proj2
              (low_margin_page_prefetches env0 w (t0 + 1000) rq trakt None backend
                 history1 (recs_from 0 60) H1 H2 H3 H4 H5 H6))) H7 H8))))))))).
Defined.

(** The page reaches past the usable cached list, nothing is
    registered for the key and there are credentials: the request
    awaits the generation it has dispatched. *)
Lemma after_history_dispatches (w : World) (clock : Z) (rq : Request)
    (history : list WatchHistoryItem) (backend : Settled AIResponse) :
  history <> [] ->
  let cached :=
    default [] (getRecommendations (database w) clock
                  (catalogKey (extractUserId (rq_config rq)) (rq_categoryId rq)) history) in
  let a := genArgs rq history cached in
  Z.of_nat (length cached) < rq_skip rq + PAGE_SIZE ->
  getCatalog_resume w clock rq (AwaitWatchHistory history) Tick
  = (AwaitGenerate history cached (fst (generateBatch w a)), snd (generateBatch w a))
  /\ after_history w clock rq history backend
     = getCatalog_resume
         (generation_completes (snd (generateBatch w a)) clock (fst (generateBatch w a))
                               (generateKey a) backend)
         clock rq (AwaitGenerate history cached (fst (generateBatch w a))) Tick.
Proof.
  intros Hne cached a Hlen.
  assert (Hstep : getCatalog_resume w clock rq (AwaitWatchHistory history) Tick
                  = (AwaitGenerate history cached (fst (generateBatch w a)),
                     snd (generateBatch w a))).
  { simpl. unfold getCatalog_withHistory. rewrite (length_eqb_0 history Hne). fold cached.
    destruct (Z.ltb_spec (Z.of_nat (length cached)) (rq_skip rq + PAGE_SIZE)); [|lia].
    fold a. now destruct (generateBatch w a). }
  split; [exact Hstep|]. unfold after_history. rewrite Hstep. reflexivity.
Qed.

Lemma filter_nothing_excluded (recs : list Recommendation) :
  List.filter (fun r => negb (includes [] (imdbId r))) recs = recs.
Proof. induction recs as [|r rs IH]; [reflexivity|]. cbn [List.filter]. now rewrite IH. Qed.

(** X14. Fingerprint invalidation. When the stored list was generated
    for a history with another fingerprint than the current one, the
    list is not served, however fresh: the request dispatches a first
    batch (15 items, nothing excluded) for the current history, and
    what it returns is made of the backend's answer alone. *)
Theorem changed_history_starts_over
    (env : Env) (w : World) (clock : Z) (rq : Request)
    (trakt : Settled (list WatchHistoryItem)) (profile : option string)
    (history : list WatchHistoryItem) (row : RecommendationCacheRow)
    (response : AIResponse) :
  trakt_configured env = true ->
  getHistory (database w) clock (extractUserId (rq_config rq)) = Some history ->
  history <> [] ->
  recommendation_cache (database w)
    !! catalogKey (extractUserId (rq_config rq)) (rq_categoryId rq) = Some row ->
  history_hash row <> hashHistory history ->
  - PAGE_SIZE < rq_skip rq ->
  generationInProgress w !! generateKey (genArgs rq history []) = None ->
  has_credentials (rq_config rq) = true ->
  (exists call,
     backendCalls (snd (getCatalog_resume w clock rq (AwaitWatchHistory history) Tick))
     = backendCalls w ++ [(generateKey (genArgs rq history []), call)]
     /\ bc_history call = history
     /\ count (bc_config call) = Some FIRST_BATCH_SIZE
     /\ excludeImdbIds (bc_config call) = Some [])
  /\ fst (getCatalog_alone env w clock rq trakt profile (Fulfilled response))
     = Returned (recommendationsToMetas
                   (slice (recommendations response) (rq_skip rq) (rq_skip rq + PAGE_SIZE))
                   (rq_contentType rq)).
Proof.
  intros Henv Hhist Hne Hrow Hhash Hskip Hfree Hcred.
  assert (Hmiss : getRecommendations (database w) clock
                    (catalogKey (extractUserId (rq_config rq)) (rq_categoryId rq)) history
                  = None).
  { unfold getRecommendations. rewrite Hrow.
    destruct (negb (isValid _ _ _)); [reflexivity|].
    destruct (String.eqb_spec (history_hash row) (hashHistory history)); [contradiction|].
    reflexivity. }
  pose proof (after_history_dispatches w clock rq history (Fulfilled response) Hne) as Hd.
  cbv zeta in Hd. rewrite Hmiss in Hd. change (default [] None) with (@nil Recommendation) in Hd.
  destruct (Hd ltac:(simpl; lia)) as [Hstep Hafter]. clear Hd.
  split.
  - rewrite Hstep. cbn [snd].
    destruct (generateBatch_dispatch_call w (genArgs rq history []) Hfree Hcred)
      as (call & Hlog & Hh & Hex & Hcount & _).
    exists call. repeat split; assumption.
  - rewrite (getCatalog_alone_history _ _ _ _ _ _ _ Henv).
    unfold getWatchHistory_alone. rewrite Hhist, Hafter.
    destruct (generateBatch_dispatches w (genArgs rq history []) Hfree Hcred)
      as (call & Hp & _ & Hin).
    rewrite Hp.
    destruct (generation_completes_in_flight _ _ _ _ _ clock (Fulfilled response) Hin)
      as (_ & _ & Hres & _).
    rewrite (getCatalog_resume_fulfilled _ _ _ _ _ _ _ Hres).
    simpl. now rewrite filter_nothing_excluded.
Qed.

Lemma changed_history_starts_over_witness :
  let w := changed_world in
  let rq := page alice "for-you" 0 in
  let trakt : Settled (list WatchHistoryItem) := Rejected (PlainError "unused") in
  let response := response_of (recs_from 100 15) in
  let row := {| data := JSON_stringify (recs_from 0 20);
                history_hash := "53be0698dc19da96";
                created_at := 1700000100; updated_at := 1700000100 |} in
  trakt_configured env0 = true
  /\ getHistory (database w) (t0 + 1000) (extractUserId (rq_config rq)) = Some history2
  /\ history2 <> []
  /\ recommendation_cache (database w)
       !! catalogKey (extractUserId (rq_config rq)) (rq_categoryId rq) = Some row
  /\ history_hash row <> hashHistory history2
  /\ - PAGE_SIZE < rq_skip rq
  /\ generationInProgress w !! generateKey (genArgs rq history2 []) = None
  /\ has_credentials (rq_config rq) = true
  /\ fst (getCatalog_alone env0 w (t0 + 1000) rq trakt None (Fulfilled response))
     = Returned (recommendationsToMetas
                   (slice (recommendations response) (rq_skip rq) (rq_skip rq + PAGE_SIZE))
                   (rq_contentType rq)).
Proof.
  intros w rq trakt response row.
  assert (H1 : trakt_configured env0 = true) by reflexivity.
  assert (H2 : getHistory (database w) (t0 + 1000) (extractUserId (rq_config rq))
               = Some history2) by (vm_compute; reflexivity).
  assert (H3 : history2 <> []) by discriminate.
  assert (H4 : recommendation_cache (database w)
                 !! catalogKey (extractUserId (rq_config rq)) (rq_categoryId rq) = Some row)
    by (vm_compute; reflexivity).
  assert (H5 : history_hash row <> hashHistory history2)
    by (intros H; vm_compute in H; discriminate H).
  assert (H6 : - PAGE_SIZE < rq_skip rq) by (vm_compute; reflexivity).
  assert (H7 : generationInProgress w !! generateKey (genArgs rq history2 []) = None)
    by reflexivity.
  assert (H8 : has_credentials (rq_config rq) = true) by reflexivity.
  exact (conj H1 (conj H2 (conj H3 (conj H4 (conj H5 (conj H6 (conj H7 (conj H8
           (proj2 (changed_history_starts_over env0 w (t0 + 1000) rq trakt None history2
                     row response H1 H2 H3 H4 H5 H6 H7 H8)))))))))).
Defined.



(** X16. A user whose Trakt account has nothing watched gets the
    "no watch history" entry, no backend is called, and the empty
    snapshot is stored like any other: until the history TTL has
    passed, every later request of that user gets the same entry
    without Trakt being asked again, whatever Trakt would answer by
    then. *)
Theorem empty_history_is_cached
    (env : Env) (w : World) (clock clock2 : Z) (rq rq2 : Request)
    (profile profile2 : option string) (trakt2 : Settled (list WatchHistoryItem))
    (backend backend2 : Settled AIResponse) :
  trakt_configured env = true ->
  getHistory (database w) clock (extractUserId (rq_config rq)) = None ->
  extractUserId (rq_config rq2) = extractUserId (rq_config rq) ->
  unix_now clock2 - unix_now clock < CACHE_TTL_history ->
  let placeholder :=
    createFallbackCatalog "No watch history found. Watch some content on Trakt first!" in
  let r := getCatalog_alone env w clock rq (Fulfilled []) profile backend in
  let r2 := getCatalog_alone env (snd r) clock2 rq2 trakt2 profile2 backend2 in
  fst r = Returned placeholder
  /\ backendCalls (snd r) = backendCalls w
  /\ getHistory (database (snd r)) clock2 (extractUserId (rq_config rq)) = Some []
  /\ r2 = (Returned placeholder, snd r).
Proof.
  intros Henv Hmiss Hsame Hfresh placeholder r r2.
  assert (Hr : r = (Returned placeholder,
                    with_database w (setHistory (database w) clock
                                       (extractUserId (rq_config rq)) [] profile))).
  { unfold r. rewrite (getCatalog_alone_history _ _ _ _ _ _ _ Henv).
    unfold getWatchHistory_alone. rewrite Hmiss. reflexivity. }
  assert (Hget : getHistory (database (snd r)) clock2 (extractUserId (rq_config rq)) = Some []).
  { rewrite Hr. cbn [snd database with_database]. rewrite getHistory_after_set.
    apply Z.ltb_lt in Hfresh. now rewrite Hfresh. }
  split; [now rewrite Hr|]. split; [now rewrite Hr|]. split; [exact Hget|].
  unfold r2. rewrite (getCatalog_alone_history _ _ _ _ _ _ _ Henv).
  unfold getWatchHistory_alone. rewrite Hsame, Hget. reflexivity.
Qed.

Lemma empty_history_is_cached_witness :
  let placeholder :=
    createFallbackCatalog "No watch history found. Watch some content on Trakt first!" in
  let r := getCatalog_alone env0 initial t0 (page alice "for-you" 0)
             (Fulfilled []) (Some "alice") (Fulfilled (response_of (recs_from 0 15))) in
  let r2 := getCatalog_alone env0 (snd r) (t0 + 1800000) (page alice "hidden-gems" 0)
              (Fulfilled history1) (Some "alice") (Fulfilled (response_of (recs_from 0 15))) in
  trakt_configured env0 = true
  /\ getHistory (database initial) t0 (extractUserId alice) = None
  /\ unix_now (t0 + 1800000) - unix_now t0 < CACHE_TTL_history
  /\ fst r = Returned placeholder
  /\ r2 = (Returned placeholder, snd r).
Proof.
  intros placeholder r r2.
  assert (H1 : trakt_configured env0 = true) by reflexivity.
  assert (H2 : getHistory (database initial) t0
                 (extractUserId (rq_config (page alice "for-you" 0))) = None)
    by reflexivity.
  assert (H3 : extractUserId (rq_config (page alice "hidden-gems" 0))
               = extractUserId (rq_config (page alice "for-you" 0))) by reflexivity.
  assert (H4 : unix_now (t0 + 1800000) - unix_now t0 < CACHE_TTL_history)
    by (vm_compute; reflexivity).
  pose proof (empty_history_is_cached env0 initial t0 (t0 + 1800000)
                (page alice "for-you" 0) (page alice "hidden-gems" 0)
                (Some "alice") (Some "alice") (Fulfilled history1)
                (Fulfilled (response_of (recs_from 0 15)))
                (Fulfilled (response_of (recs_from 0 15))) H1 H2 H3 H4) as T.
  exact (conj H1 (conj H2 (conj H4 (conj (proj1 T) (proj2 (proj2 (proj2 T))))))).
Defined.

Lemma generateBatch_registers (w : World) (a : GenArgs) :
  generationInProgress w !! generateKey a = None ->
  generationInProgress (snd (generateBatch w a))
  = <[generateKey a := nextPromise w]> (generationInProgress w).
Proof.
  intros Hfree. unfold generateBatch. rewrite Hfree.
  destruct (selectProvider _ _ _) as [e|[[provider aiConfig] n']]; reflexivity.
Qed.

(** X17. A generation that has run to its end leaves the registry as
    it was before the call that started it, whether the backend
    answered or failed: its promise is settled with the filtered
    answer or with the backend's error, exactly one backend call was
    made, a failure writes nothing to the database, and the key is free,
    so the next call for it goes to the backend again. *)
Theorem completed_generation_frees_its_key
    (w : World) (a : GenArgs) (clock : Z) (outcome : Settled AIResponse) :
  generationInProgress w !! generateKey a = None ->
  has_credentials (g_config a) = true ->
  let d := generateBatch w a in
  let w' := generation_completes (snd d) clock (fst d) (generateKey a) outcome in
  generationInProgress w' = generationInProgress w
  /\ settled w' !! fst d = Some (generatePromise_result (closure_of a) outcome)
  /\ length (backendCalls w') = S (length (backendCalls w))
  /\ (forall e, outcome = Rejected e -> database w' = database w)
  /\ length (backendCalls (snd (generateBatch w' a))) = S (S (length (backendCalls w))).
Proof.
  intros Hfree Hcred d w'.
  destruct (generateBatch_dispatch_call w a Hfree Hcred) as (call0 & Hlog & _).
  destruct (generateBatch_dispatches w a Hfree Hcred) as (call & Hp & Hdb & Hin).
  destruct (generation_completes_in_flight _ _ _ _ _ clock outcome Hin)
    as (Hcalls & Hreg & Hres & Hdb').
  destruct (resume_in_flight _ _ _ _ _ clock outcome Hin) as (_ & _ & _ & _ & Hdb'').
  cbv zeta in Hcalls, Hreg, Hres, Hdb', Hdb''.
  assert (Hregistry : generationInProgress w' = generationInProgress w).
  { unfold w', d. rewrite Hp, Hreg, (generateBatch_registers w a Hfree).
    now apply delete_insert_id. }
  assert (Hlen : length (backendCalls w') = S (length (backendCalls w))).
  { unfold w', d. rewrite Hp, Hcalls, Hlog, length_app. simpl. lia. }
  split; [exact Hregistry|]. split; [unfold w', d; rewrite Hp; exact Hres|].
  split; [exact Hlen|]. split.
  - intros e ->. unfold w', d. rewrite Hp, Hdb', Hdb''. exact Hdb.
  - assert (Hfree' : generationInProgress w' !! generateKey a = None)
      by (now rewrite Hregistry).
    destruct (generateBatch_dispatch_call w' a Hfree' Hcred) as (call1 & Hlog1 & _).
    rewrite Hlog1, length_app, Hlen. simpl. lia.
Qed.

Lemma completed_generation_frees_its_key_witness :
  let a := genArgs (page alice "for-you" 0) history1 [] in
  let outcome : Settled AIResponse := Rejected (AIProviderError "quota") in
  let d := generateBatch initial a in
  let w' := generation_completes (snd d) t0 (fst d) (generateKey a) outcome in
  generationInProgress initial !! generateKey a = None
  /\ has_credentials (g_config a) = true
  /\ generationInProgress w' = generationInProgress initial
  /\ settled w' !! fst d = Some (generatePromise_result (closure_of a) outcome).
Proof.
  intros a outcome d w'.
  assert (H1 : generationInProgress initial !! generateKey a = None) by reflexivity.
  assert (H2 : has_credentials (g_config a) = true) by reflexivity.
  pose proof (completed_generation_frees_its_key initial a t0 outcome H1 H2) as T.
  exact (conj H1 (conj H2 (conj (proj1 T) (proj1 (proj2 T))))).
Defined.

(** X18. The list a request accumulates has no identifier twice when
    the usable cached list has none and the backend's answer has none
    of its own: everything the answer shares with the cached list is
    filtered out before the two are joined. *)
Theorem accumulated_keeps_NoDup (cached : list Recommendation) (skip : Z)
    (response : AIResponse) :
  List.NoDup (map imdbId cached) ->
  List.NoDup (map imdbId (recommendations response)) ->
  List.NoDup (map imdbId (accumulated cached skip response)).
Proof.
  intros Hold Hnew. unfold accumulated.
  destruct (Z.of_nat (length cached) <? skip + PAGE_SIZE); [|exact Hold].
  set (a := {| g_userId := ""; g_config := alice; g_history := [];
               g_existingRecs := cached; g_categoryId := "" |}).
  exact (expansion_keeps_NoDup a response _ Hold Hnew eq_refl).
Qed.

Lemma accumulated_keeps_NoDup_witness :
  List.NoDup (map imdbId (recs_from 0 15))
  /\ List.NoDup (map imdbId (recommendations (response_of (recs_from 10 20))))
  /\ List.NoDup (map imdbId (accumulated (recs_from 0 15) 15 (response_of (recs_from 10 20))))
  /\ length (accumulated (recs_from 0 15) 15 (response_of (recs_from 10 20))) = 30%nat.
Proof.
  assert (H1 : List.NoDup (map imdbId (recs_from 0 15)))
    by (apply NoDup_ListNoDup, (@bool_decide_unpack _ (NoDup_dec _));
        vm_compute; reflexivity).
  assert (H2 : List.NoDup (map imdbId (recommendations (response_of (recs_from 10 20)))))
    by (apply NoDup_ListNoDup, (@bool_decide_unpack _ (NoDup_dec _));
        vm_compute; reflexivity).
  exact (conj H1 (conj H2
           (conj (accumulated_keeps_NoDup (recs_from 0 15) 15
                    (response_of (recs_from 10 20)) H1 H2) eq_refl))).
Defined.

(* ===================================================================== *)
(** * Further properties of the similar-titles and meta handlers *)
(* ===================================================================== *)

(** What [getSimilar] does when the cache has no non-empty usable list. *)
Lemma getSimilar_miss (w : Similar.World) (clock : Z) (config : UserConfig)
    (sourceImdbId sourceTitle : string) (contentType : ContentType) :
  (forall r rs, getRecommendations (Similar.database w) clock
                  (Similar.similarKey sourceImdbId) [] <> Some (r :: rs)) ->
  Similar.getSimilar w clock config sourceImdbId sourceTitle contentType
  = match selectProvider "No AI credentials configured" config (Similar.providerCounter w) with
    | inl _ => (Similar.Returned [], w)
    | inr (provider, aiConfig, counter') =>
        (Similar.AwaitBackend,
         {| Similar.database := Similar.database w;
            Similar.providerCounter := counter';
            Similar.backendCalls :=
              Similar.backendCalls w
              ++ [(Similar.similarKey sourceImdbId,
                   {| bc_provider := provider; bc_history := [];
                      bc_config :=
                        {| apiKey := apiKey aiConfig;
                           ai_accessToken := ai_accessToken aiConfig;
                           ai_temperature := ai_temperature aiConfig;
                           excludeImdbIds := None;
                           count := Some Similar.SIMILAR_COUNT;
                           categoryId := Some "similar";
                           similarTo := Some {| st_imdbId := sourceImdbId;
                                                st_title := sourceTitle;
                                                st_type := contentType |} |} |})] |})
    end.
Proof.
  intros Hmiss. unfold Similar.getSimilar.
  destruct (getRecommendations _ _ _ _) as [[|r rs]|] eqn:Hget; try reflexivity.
  now destruct (Hmiss r rs).
Qed.

(** X19. [getSimilar] never fails, and a request that could not be
    answered leaves the database as it was: with no usable non-empty
    list in the cache, it returns the empty list and writes nothing
    when the user has no AI credentials (no backend is called then) or
    when the backend call fails. *)
Theorem getSimilar_failure_leaves_no_trace
    (w : Similar.World) (clock : Z) (config : UserConfig)
    (sourceImdbId sourceTitle : string) (contentType : ContentType)
    (backend : Settled AIResponse) :
  (forall r rs, getRecommendations (Similar.database w) clock
                  (Similar.similarKey sourceImdbId) [] <> Some (r :: rs)) ->
  has_credentials config = false \/ (exists e, backend = Rejected e) ->
  let r := Similar.getSimilar_alone w clock config sourceImdbId sourceTitle
             contentType backend in
  fst r = []
  /\ Similar.database (snd r) = Similar.database w
  /\ (has_credentials config = false -> snd r = w).
Proof.
  intros Hmiss Hfail r. unfold r, Similar.getSimilar_alone.
  rewrite (getSimilar_miss _ _ _ _ _ _ Hmiss).
  destruct (has_credentials config) eqn:Hcred.
  - destruct Hfail as [Hno|[e ->]]; [discriminate|].
    destruct (selectProvider_ok "No AI credentials configured" config
                (Similar.providerCounter w) Hcred) as (provider & aiConfig & n' & ->).
    cbn. repeat split. discriminate.
  - rewrite (selectProvider_none _ _ _ Hcred). repeat split.
Qed.

Lemma getSimilar_failure_leaves_no_trace_witness :
  let r := Similar.getSimilar_alone Similar.initial t0 alice "tt0111161" "The Film" movie
             (Rejected (AIProviderError "quota")) in
  (forall r rs, getRecommendations (Similar.database Similar.initial) t0
                  (Similar.similarKey "tt0111161") [] <> Some (r :: rs))
  /\ (has_credentials alice = false
      \/ exists e, Rejected (AIProviderError "quota") = @Rejected AIResponse e)
  /\ fst r = []
  /\ Similar.database (snd r) = Similar.database Similar.initial.
Proof.
  intros r.
  assert (H1 : forall r rs, getRecommendations (Similar.database Similar.initial) t0
                              (Similar.similarKey "tt0111161") [] <> Some (r :: rs))
    by (intros x xs; discriminate).
  assert (H2 : has_credentials alice = false
               \/ exists e, Rejected (AIProviderError "quota") = @Rejected AIResponse e)
    by (right; eexists; reflexivity).
  pose proof (getSimilar_failure_leaves_no_trace Similar.initial t0 alice "tt0111161"
                "The Film" movie (Rejected (AIProviderError "quota")) H1 H2) as T.
  exact (conj H1 (conj H2 (conj (proj1 T) (proj1 (proj2 T))))).
Defined.

(** X20. An empty answer of the backend is stored like any other, but
    it is never served: a stored list is used only when it has an
    item, so every later request for the same title, however soon,
    goes to the backend again. *)
Theorem empty_similar_answer_is_asked_again
    (w : Similar.World) (clock clock2 : Z) (config config2 : UserConfig)
    (sourceImdbId sourceTitle sourceTitle2 : string) (contentType contentType2 : ContentType)
    (note : option string) :
  (forall r rs, getRecommendations (Similar.database w) clock
                  (Similar.similarKey sourceImdbId) [] <> Some (r :: rs)) ->
  has_credentials config = true ->
  has_credentials config2 = true ->
  let r := Similar.getSimilar_alone w clock config sourceImdbId sourceTitle contentType
             (Fulfilled {| recommendations := []; analysis := note |}) in
  let again := Similar.getSimilar (snd r) clock2 config2 sourceImdbId sourceTitle2
                 contentType2 in
  fst r = []
  /\ data <$> (recommendation_cache (Similar.database (snd r))
                 !! Similar.similarKey sourceImdbId) = Some (JSON_stringify [])
  /\ fst again = Similar.AwaitBackend
  /\ length (Similar.backendCalls (snd again)) = S (S (length (Similar.backendCalls w))).
Proof.
  intros Hmiss Hcred Hcred2 r again.
  assert (Hr : exists n' log,
             r = ([], {| Similar.database :=
                           setRecommendations (Similar.database w) clock
                             (Similar.similarKey sourceImdbId) [] [];
                         Similar.providerCounter := n';
                         Similar.backendCalls := Similar.backendCalls w ++ [log] |})).
  { unfold r, Similar.getSimilar_alone. rewrite (getSimilar_miss _ _ _ _ _ _ Hmiss).
    destruct (selectProvider_ok "No AI credentials configured" config
                (Similar.providerCounter w) Hcred) as (provider & aiConfig & n' & ->).
    cbn. eauto. }
  destruct Hr as (n' & log & Hr).
  assert (Hmiss2 : forall x xs, getRecommendations (Similar.database (snd r)) clock2
                                  (Similar.similarKey sourceImdbId) [] <> Some (x :: xs)).
  { intros x xs. rewrite Hr. cbn [snd Similar.database].
    rewrite (getRecommendations_after_set _ _ clock clock2 _ [] [] [] eq_refl).
    destruct (_ && _); discriminate. }
  split; [now rewrite Hr|]. split.
  - rewrite Hr. cbn [snd Similar.database].
    destruct (setRecommendations_lookup (Similar.database w) clock
                (Similar.similarKey sourceImdbId) [] []) as [created ->]. reflexivity.
  - unfold again. rewrite (getSimilar_miss _ _ _ _ _ _ Hmiss2).
    destruct (selectProvider_ok "No AI credentials configured" config2
                (Similar.providerCounter (snd r)) Hcred2) as (provider & aiConfig & n2 & ->).
    cbn [fst snd Similar.backendCalls]. split; [reflexivity|].
    rewrite Hr. cbn [snd Similar.backendCalls]. rewrite !length_app. simpl. lia.
Qed.

Lemma empty_similar_answer_is_asked_again_witness :
  let r := Similar.getSimilar_alone Similar.initial t0 alice "tt0111161" "The Film" movie
             (Fulfilled {| recommendations := []; analysis := None |}) in
  let again := Similar.getSimilar (snd r) (t0 + 1000) bob "tt0111161" "The Film" series in
  (forall r rs, getRecommendations (Similar.database Similar.initial) t0
                  (Similar.similarKey "tt0111161") [] <> Some (r :: rs))
  /\ has_credentials alice = true
  /\ has_credentials bob = true
  /\ fst r = []
  /\ fst again = Similar.AwaitBackend.
Proof.
  intros r again.
  assert (H1 : forall r rs, getRecommendations (Similar.database Similar.initial) t0
                              (Similar.similarKey "tt0111161") [] <> Some (r :: rs))
    by (intros x xs; discriminate).
  assert (H2 : has_credentials alice = true) by reflexivity.
  assert (H3 : has_credentials bob = true) by reflexivity.
  pose proof (empty_similar_answer_is_asked_again Similar.initial t0 (t0 + 1000) alice bob
                "tt0111161" "The Film" "The Film" movie series None H1 H2 H3) as T.
  exact (conj H1 (conj H2 (conj H3 (conj (proj1 T) (proj1 (proj2 (proj2 T))))))).
Defined.

Lemma tt_digits_length (lo hi : nat) (id : string) :
  ImdbParser.tt_digits lo hi id = true ->
  (lo + 2 <= String.length id <= hi + 2)%nat.
Proof.
  destruct id as [|c1 [|c2 digits]]; try discriminate.
  - simpl. destruct c1 as [[] [] [] [] [] [] [] []]; discriminate.
  - unfold ImdbParser.tt_digits.
    destruct c1 as [[] [] [] [] [] [] [] []]; try discriminate.
    destruct c2 as [[] [] [] [] [] [] [] []]; try discriminate.
    intros H. apply andb_true_iff in H as [H Hhi]. apply andb_true_iff in H as [_ Hlo].
    apply Nat.leb_le in Hhi, Hlo. simpl. lia.
Qed.

Lemma tt_digits_narrow (lo hi hi' : nat) (id : string) :
  ImdbParser.tt_digits lo hi' id
  = ImdbParser.tt_digits lo hi id && (String.length id <=? hi' + 2)%nat
    || ImdbParser.tt_digits lo hi' id && negb (String.length id <=? hi + 2)%nat.
Proof.
  destruct id as [|c1 [|c2 digits]]; try reflexivity.
  - simpl. destruct c1 as [[] [] [] [] [] [] [] []]; reflexivity.
  - unfold ImdbParser.tt_digits.
    destruct c1 as [[] [] [] [] [] [] [] []]; try reflexivity.
    destruct c2 as [[] [] [] [] [] [] [] []]; try reflexivity.
    cbn [String.length].
    destruct (forallb _ _); cbn [andb orb]; [|reflexivity].
    destruct (Nat.leb_spec lo (String.length digits)); cbn [andb orb]; [|reflexivity].
    destruct (Nat.leb_spec (String.length digits) hi), (Nat.leb_spec (String.length digits) hi'),
             (Nat.leb_spec (S (S (String.length digits))) (hi' + 2)),
             (Nat.leb_spec (S (S (String.length digits))) (hi + 2));
      cbn [andb orb negb]; try reflexivity; lia.
Qed.

(** What [getMeta] answers for an identifier that passes its check. *)
Lemma getMeta_alone_well_formed (w : Similar.World) (clock : Z) (config : UserConfig)
    (contentType : ContentType) (imdbId : string) (title : option string)
    (backend : Settled AIResponse) :
  ImdbParser.tt_digits 7 8 imdbId = true ->
  Meta.getMeta_alone w clock config contentType imdbId title backend
  = let r := Similar.getSimilar_alone w clock config imdbId
               (Meta.or_else title ("Content " +:+ imdbId)) contentType backend in
    (Some (Meta.getMeta_return contentType imdbId title (fst r)), snd r).
Proof.
  intros Hok. unfold Meta.getMeta_alone, Meta.getMeta, Similar.getSimilar_alone.
  rewrite Hok. cbn [negb].
  destruct (Similar.getSimilar _ _ _ _ _ _) as [[|metas] w']; reflexivity.
Qed.

(** X21. [getMeta] accepts fewer identifiers than the parser of the
    backends' answers: among the identifiers [isValidImdbId] accepts
    (two letters and seven to nine digits), [getMeta] answers [null],
    without touching anything, exactly for those with nine digits. *)
Theorem getMeta_refuses_nine_digits
    (w : Similar.World) (clock : Z) (config : UserConfig)
    (contentType : ContentType) (imdbId : string) (title : option string)
    (backend : Settled AIResponse) :
  ImdbParser.isValidImdbId imdbId = true ->
  let r := Meta.getMeta_alone w clock config contentType imdbId title backend in
  (fst r = None <-> String.length imdbId = 11%nat)
  /\ (String.length imdbId = 11%nat -> snd r = w).
Proof.
  intros Hvalid r. unfold ImdbParser.isValidImdbId in Hvalid.
  pose proof (tt_digits_length _ _ _ Hvalid) as Hlen.
  pose proof (tt_digits_narrow 7 9 8 imdbId) as Hnarrow. rewrite Hvalid in Hnarrow.
  destruct (ImdbParser.tt_digits 7 8 imdbId) eqn:Hmeta.
  - pose proof (tt_digits_length _ _ _ Hmeta) as Hlen8.
    unfold r. rewrite (getMeta_alone_well_formed _ _ _ _ _ _ _ Hmeta). cbn [fst snd].
    split; [split; [discriminate|lia]|lia].
  - cbn [andb orb] in Hnarrow. symmetry in Hnarrow. apply orb_false_iff in Hnarrow as [H _].
    apply Nat.leb_gt in H.
    unfold r, Meta.getMeta_alone, Meta.getMeta. rewrite Hmeta. cbn.
    split; [split; [lia|reflexivity]|reflexivity].
Qed.

Lemma getMeta_refuses_nine_digits_witness :
  let r := Meta.getMeta_alone Similar.initial t0 alice movie "tt123456789" None
             (Fulfilled (response_of (recs_from 0 10))) in
  ImdbParser.isValidImdbId "tt123456789" = true
  /\ (fst r = None <-> String.length "tt123456789" = 11%nat)
  /\ (String.length "tt123456789" = 11%nat -> snd r = Similar.initial).
Proof.
  intros r.
  assert (H1 : ImdbParser.isValidImdbId "tt123456789" = true) by reflexivity.
  exact (conj H1 (getMeta_refuses_nine_digits Similar.initial t0 alice movie "tt123456789"
                    None (Fulfilled (response_of (recs_from 0 10))) H1)).
Defined.

Lemma getSimilar_alone_types (w : Similar.World) (clock : Z) (config : UserConfig)
    (sourceImdbId sourceTitle : string) (contentType : ContentType)
    (backend : Settled AIResponse) :
  Forall (fun item => meta_type item = contentType)
         (fst (Similar.getSimilar_alone w clock config sourceImdbId sourceTitle
                 contentType backend)).
Proof.
  assert (Hmetas : forall recs,
             Forall (fun item => meta_type item = contentType)
                    (Similar.recommendationsToMetas recs contentType)).
  { intros recs. unfold Similar.recommendationsToMetas.
    induction recs; simpl; constructor; [reflexivity|assumption]. }
  unfold Similar.getSimilar_alone, Similar.getSimilar.
  destruct (getRecommendations _ _ _ _) as [[|r rs]|]; cbn [fst].
  - destruct (selectProvider _ _ _) as [e|[[provider aiConfig] n']]; cbn [fst snd].
    + constructor.
    + destruct backend; cbn [fst]; [apply Hmetas|constructor].
  - apply Hmetas.
  - destruct (selectProvider _ _ _) as [e|[[provider aiConfig] n']]; cbn [fst snd].
    + constructor.
    + destruct backend; cbn [fst]; [apply Hmetas|constructor].
Qed.

(** X22. For an identifier that passes its check [getMeta] always
    answers with a meta object, whatever happens to the similar-titles
    lookup: it carries the requested id and type; its links are absent
    when the lookup gave nothing (never an empty list), and otherwise
    there is one link per similar title, in the category "Similar",
    leading to the detail page of that title under the requested
    content type. *)
Theorem getMeta_links
    (w : Similar.World) (clock : Z) (config : UserConfig)
    (contentType : ContentType) (imdbId : string) (title : option string)
    (backend : Settled AIResponse) :
  ImdbParser.tt_digits 7 8 imdbId = true ->
  let similar := fst (Similar.getSimilar_alone w clock config imdbId
                        (Meta.or_else title ("Content " +:+ imdbId)) contentType backend) in
  exists meta,
    fst (Meta.getMeta_alone w clock config contentType imdbId title backend) = Some meta
    /\ Meta.md_id meta = imdbId
    /\ Meta.md_type meta = contentType
    /\ (similar = [] -> Meta.md_links meta = None)
    /\ (similar <> [] ->
        exists links,
          Meta.md_links meta = Some links
          /\ map Meta.link_url links
             = map (fun item => "stremio:///detail/" +:+ Meta.type_name contentType
                                +:+ "/" +:+ meta_id item) similar
          /\ map Meta.link_name links = map meta_name similar
          /\ Forall (fun l => Meta.link_category l = "Similar") links).
Proof.
  intros Hok similar.
  rewrite (getMeta_alone_well_formed _ _ _ _ _ _ _ Hok). cbn [fst]. fold similar.
  eexists. split; [reflexivity|]. split; [reflexivity|]. split; [reflexivity|].
  pose proof (getSimilar_alone_types w clock config imdbId
                (Meta.or_else title ("Content " +:+ imdbId)) contentType backend) as Htypes.
  fold similar in Htypes. split.
  - intros ->. reflexivity.
  - intros Hne. unfold Meta.getMeta_return. cbn [Meta.md_links].
    rewrite length_map. destruct similar as [|item items]; [contradiction|].
    cbn [length Nat.ltb Nat.leb]. eexists. split; [reflexivity|].
    clear Hne. split; [|split].
    + rewrite map_map. cbn [Meta.link_url].
      induction Htypes as [|x xs Hx _ IH]; [reflexivity|]. simpl. now rewrite Hx, IH.
    + rewrite map_map. reflexivity.
    + clear Htypes. induction (item :: items); simpl; constructor; [reflexivity|assumption].
Qed.

Lemma getMeta_links_witness :
  ImdbParser.tt_digits 7 8 "tt0111161" = true
  /\ exists meta,
       fst (Meta.getMeta_alone Similar.initial t0 carol series "tt0111161" None
              (Fulfilled (response_of (recs_from 0 10)))) = Some meta
       /\ Meta.md_id meta = "tt0111161"
       /\ Meta.md_type meta = series.
Proof.
  assert (H1 : ImdbParser.tt_digits 7 8 "tt0111161" = true) by reflexivity.
  destruct (getMeta_links Similar.initial t0 carol series "tt0111161" None
              (Fulfilled (response_of (recs_from 0 10))) H1)
    as (meta & Hmeta & Hid & Htype & _).
  exact (conj H1 (ex_intro _ meta (conj Hmeta (conj Hid Htype)))).
Defined.

(* ===================================================================== *)
(** * Properties of the parser of the backends' answers *)
(* ===================================================================== *)

Import ImdbParser.

Ltac split_ifs :=
  repeat match goal with
         | |- context [if ?b then _ else _] => destruct b eqn:?
         | H : context [if ?b then _ else _] |- _ => destruct b eqn:?
         end.

Lemma scan_bounds (text : list ascii) : forall i depth inString escaped j,
  scan text i depth inString escaped = Some j ->
  (i <= j < i + length text)%nat /\ nth_error text (j - i) = Some RBRACKET.
Proof.
  induction text as [|c rest IH]; intros i depth inString escaped j H; [discriminate|].
  cbn [scan] in H.
  assert (Hrec : forall d s e, scan rest (S i) d s e = Some j ->
            (i <= j < i + length (c :: rest))%nat
            /\ nth_error (c :: rest) (j - i) = Some RBRACKET).
  { intros d s e Hs. apply IH in Hs as [Hb Hn]. cbn [length]. split; [lia|].
    replace (j - i)%nat with (S (j - S i)) by lia. exact Hn. }
  split_ifs; try (eapply Hrec; eassumption).
  injection H as <-. cbn [length]. split; [lia|].
  rewrite Nat.sub_diag. cbn. f_equal. now apply Ascii.eqb_eq.
Qed.

Lemma scan_prefix (text : list ascii) : forall i depth inString escaped j,
  scan text i depth inString escaped = Some j ->
  scan (firstn (S (j - i)) text) i depth inString escaped = Some j.
Proof.
  induction text as [|c rest IH]; intros i depth inString escaped j H; [discriminate|].
  cbn [firstn scan]. cbn [scan] in H.
  assert (Hrec : forall d s e, scan rest (S i) d s e = Some j ->
            scan (firstn (j - i) rest) (S i) d s e = Some j).
  { intros d s e Hs. pose proof (scan_bounds _ _ _ _ _ _ Hs) as [Hb _].
    replace (j - i)%nat with (S (j - S i)) by lia. now apply IH. }
  split_ifs; try (eapply Hrec; eassumption); try exact H.
Qed.

Lemma string_of_list_ascii_app (l1 l2 : list ascii) :
  string_of_list_ascii (l1 ++ l2) = string_of_list_ascii l1 +:+ string_of_list_ascii l2.
Proof. induction l1 as [|c l1 IH]; [reflexivity|]. simpl. now rewrite IH. Qed.

Lemma firstn_bracketed {A} (l : list A) (m : nat) (a b : A) :
  (1 <= m)%nat -> nth_error l 0 = Some a -> nth_error l m = Some b ->
  exists body, firstn (S m) l = a :: body ++ [b].
Proof.
  intros Hm Ha Hb. destruct l as [|x l]; [discriminate|]. injection Ha as ->.
  destruct m as [|m]; [lia|]. cbn [nth_error] in Hb. clear Hm.
  exists (firstn m l). cbn [firstn]. f_equal.
  revert m Hb. induction l as [|y l IH]; intros [|m] Hb; try discriminate.
  - injection Hb as ->. reflexivity.
  - cbn [nth_error] in Hb. cbn [firstn]. simpl. f_equal. now apply IH.
Qed.

Lemma slice_window {A} (l : list A) (s e : Z) :
  0 <= s <= e -> e <= Z.of_nat (length l) ->
  slice l s e = firstn (Z.to_nat (e - s)) (skipn (Z.to_nat s) l).
Proof.
  intros Hs He. unfold slice.
  destruct (Z.ltb_spec s 0), (Z.ltb_spec e 0); try lia.
  rewrite !Z.min_l by lia. now rewrite Z.max_l by lia.
Qed.

Lemma startsWith_nth (text : list ascii) (c : ascii) :
  startsWith text c = true -> nth_error text 0 = Some c.
Proof.
  destruct text as [|x r]; [discriminate|]. simpl. intros H.
  apply Ascii.eqb_eq in H. now subst.
Qed.

(** What [extractBalanced] returns: the text up to the bracket the
    scan stops at. *)
Lemma extractBalanced_inv (text s : string) :
  extractBalanced text = Some s ->
  exists i body,
    scan (list_ascii_of_string text) 0 0 false false = Some i
    /\ (i < length (list_ascii_of_string text))%nat
    /\ s = string_of_list_ascii (firstn (S i) (list_ascii_of_string text))
    /\ firstn (S i) (list_ascii_of_string text) = LBRACKET :: body ++ [RBRACKET].
Proof.
  unfold extractBalanced.
  destruct (startsWith (list_ascii_of_string text) LBRACKET) eqn:Hstart; [|discriminate].
  cbn [negb].
  destruct (scan (list_ascii_of_string text) 0 0 false false) as [i|] eqn:Hscan;
    [|discriminate].
  intros [= <-].
  destruct (scan_bounds _ _ _ _ _ _ Hscan) as [Hb Hnth].
  rewrite Nat.sub_0_r in Hnth.
  set (chars := list_ascii_of_string text) in *.
  rewrite (slice_window chars 0 (Z.of_nat i + 1)) by lia.
  replace (Z.to_nat (Z.of_nat i + 1 - 0)) with (S i) by lia.
  change (skipn (Z.to_nat 0) chars) with chars.
  assert (Hi : (1 <= i)%nat).
  { destruct i; [|lia]. rewrite (startsWith_nth _ _ Hstart) in Hnth. discriminate. }
  destruct (firstn_bracketed chars i LBRACKET RBRACKET Hi (startsWith_nth _ _ Hstart) Hnth)
    as [body Hbody].
  exists i, body. repeat split; [lia|exact Hbody].
Qed.

Lemma extractBalanced_bracketed (text s : string) :
  extractBalanced text = Some s ->
  (exists rest, text = s +:+ rest) /\ (exists body, s = "[" +:+ body +:+ "]").
Proof.
  intros H. destruct (extractBalanced_inv text s H) as (i & body & _ & _ & -> & Hbody).
  split.
  - exists (string_of_list_ascii (skipn (S i) (list_ascii_of_string text))).
    rewrite <- string_of_list_ascii_app, firstn_skipn.
    now rewrite string_of_list_ascii_of_string.
  - exists (string_of_list_ascii body). rewrite Hbody.
    change (LBRACKET :: body ++ [RBRACKET]) with ([LBRACKET] ++ body ++ [RBRACKET]).
    now rewrite !string_of_list_ascii_app.
Qed.

(** X23. What [extractBalanced] returns is the beginning of the text
    it was given, and is balanced in its own right: given its own
    result, [extractBalanced] returns it unchanged. *)
Theorem extractBalanced_closed (text s : string) :
  extractBalanced text = Some s ->
  (exists rest, text = s +:+ rest) /\ extractBalanced s = Some s.
Proof.
  intros H. split; [exact (proj1 (extractBalanced_bracketed text s H))|].
  destruct (extractBalanced_inv text s H) as (i & body & Hscan & Hi & -> & Hbody).
  pose proof (scan_prefix _ _ _ _ _ _ Hscan) as Hpre. rewrite Nat.sub_0_r in Hpre.
  set (chars := list_ascii_of_string text) in *.
  unfold extractBalanced. rewrite list_ascii_of_string_of_list_ascii.
  assert (Hlen : length (firstn (S i) chars) = S i) by (rewrite length_firstn; lia).
  rewrite Hbody at 1. cbn [startsWith]. rewrite Ascii.eqb_refl. cbn [negb].
  rewrite Hpre.
  rewrite (slice_window (firstn (S i) chars) 0 (Z.of_nat i + 1)) by lia.
  replace (Z.to_nat (Z.of_nat i + 1 - 0)) with (S i) by lia.
  change (skipn (Z.to_nat 0) (firstn (S i) chars)) with (firstn (S i) chars).
  now rewrite firstn_firstn, Nat.min_id.
Qed.

Lemma extractBalanced_closed_witness :
  extractBalanced "[[1,2],[3]] and more" = Some "[[1,2],[3]]"%string
  /\ (exists rest, "[[1,2],[3]] and more"%string = "[[1,2],[3]]" +:+ rest)
  /\ extractBalanced "[[1,2],[3]]" = Some "[[1,2],[3]]"%string.
Proof.
  assert (H : extractBalanced "[[1,2],[3]] and more" = Some "[[1,2],[3]]"%string)
    by (vm_compute; reflexivity).
  exact (conj H (extractBalanced_closed "[[1,2],[3]] and more" "[[1,2],[3]]" H)).
Defined.

Lemma indexOf_from_spec (text : list ascii) (c : ascii) : forall i,
  let r := indexOf_from text c i in
  r = -1 \/ (i <= r < i + Z.of_nat (length text)
             /\ nth_error text (Z.to_nat (r - i)) = Some c).
Proof.
  induction text as [|x rest IH]; intros i; [left; reflexivity|].
  cbn [indexOf_from]. destruct (Ascii.eqb x c) eqn:Hx.
  - right. apply Ascii.eqb_eq in Hx as ->. rewrite Z.sub_diag. cbn [length]. split; [lia|reflexivity].
  - destruct (IH (i + 1)) as [Hr|[Hb Hn]]; [left; exact Hr|right].
    cbn [length]. split; [lia|].
    replace (Z.to_nat (indexOf_from rest c (i + 1) - i))
      with (S (Z.to_nat (indexOf_from rest c (i + 1) - (i + 1)))) by lia.
    exact Hn.
Qed.

Lemma lastIndexOf_from_spec (text : list ascii) (c : ascii) : forall i found,
  let r := lastIndexOf_from text c i found in
  r = found \/ (i <= r < i + Z.of_nat (length text)
                /\ nth_error text (Z.to_nat (r - i)) = Some c).
Proof.
  induction text as [|x rest IH]; intros i found; [left; reflexivity|].
  cbn [lastIndexOf_from length].
  destruct (IH (i + 1) (if Ascii.eqb x c then i else found)) as [Hr|[Hb Hn]].
  - rewrite Hr. destruct (Ascii.eqb x c) eqn:Hx; [right|left; reflexivity].
    apply Ascii.eqb_eq in Hx as ->. rewrite Z.sub_diag. split; [lia|reflexivity].
  - right. split; [lia|].
    set (r := lastIndexOf_from rest c (i + 1) (if Ascii.eqb x c then i else found)) in *.
    replace (Z.to_nat (r - i)) with (S (Z.to_nat (r - (i + 1)))) by lia.
    exact Hn.
Qed.

Lemma nth_error_skipn {A} (l : list A) (n m : nat) :
  nth_error (skipn n l) m = nth_error l (n + m).
Proof.
  revert l. induction n as [|n IH]; intros [|x l]; try reflexivity.
  - now destruct m.
  - cbn [skipn]. rewrite IH. reflexivity.
Qed.

(** X24. Whatever [extractJsonArray] hands on to [JSON.parse] is a
    piece of the text it was given that starts with an opening and ends
    with a closing square bracket. *)
Theorem extractJsonArray_bracketed (text s : string) :
  extractJsonArray text = Some s ->
  exists pre body post,
    text = pre +:+ s +:+ post /\ s = "[" +:+ body +:+ "]".
Proof.
  unfold extractJsonArray.
  destruct (startsWith (list_ascii_of_string text) LBRACKET) eqn:Hstart.
  - intros H. destruct (extractBalanced_bracketed text s H) as ([rest Hrest] & [body Hbody]).
    exists "", body, rest. split; [exact Hrest|exact Hbody].
  - set (chars := list_ascii_of_string text) in *.
    pose proof (indexOf_from_spec chars LBRACKET 0) as Hi.
    pose proof (lastIndexOf_from_spec chars RBRACKET 0 (-1)) as Hl.
    cbv zeta in Hi, Hl.
    set (start := indexOf_from chars LBRACKET 0) in *.
    set (end_ := lastIndexOf_from chars RBRACKET 0 (-1)) in *.
    destruct (Z.eqb_spec start (-1)); [discriminate|].
    destruct (Z.eqb_spec end_ (-1)); [discriminate|].
    destruct (Z.leb_spec end_ start); [discriminate|]. cbn [orb].
    intros [= <-].
    destruct Hi as [?|[Hsb Hsn]]; [contradiction|].
    destruct Hl as [?|[Heb Hen]]; [contradiction|].
    rewrite Z.sub_0_r in Hsn, Hen.
    rewrite (slice_window chars start (end_ + 1)) by lia.
    set (tail := skipn (Z.to_nat start) chars).
    replace (Z.to_nat (end_ + 1 - start)) with (S (Z.to_nat (end_ - start))) by lia.
    assert (H0 : nth_error tail 0 = Some LBRACKET).
    { unfold tail. rewrite nth_error_skipn, Nat.add_0_r. exact Hsn. }
    assert (Hm : nth_error tail (Z.to_nat (end_ - start)) = Some RBRACKET).
    { unfold tail. rewrite nth_error_skipn.
      replace (Z.to_nat start + Z.to_nat (end_ - start))%nat with (Z.to_nat end_) by lia.
      exact Hen. }
    destruct (firstn_bracketed tail (Z.to_nat (end_ - start)) LBRACKET RBRACKET
                ltac:(lia) H0 Hm) as [body Hbody].
    exists (string_of_list_ascii (firstn (Z.to_nat start) chars)),
           (string_of_list_ascii body),
           (string_of_list_ascii (skipn (S (Z.to_nat (end_ - start))) tail)).
    split.
    + rewrite <- !string_of_list_ascii_app, firstn_skipn. unfold tail.
      rewrite firstn_skipn. unfold chars. now rewrite string_of_list_ascii_of_string.
    + rewrite Hbody.
      change (LBRACKET :: body ++ [RBRACKET]) with ([LBRACKET] ++ body ++ [RBRACKET]).
      now rewrite !string_of_list_ascii_app.
Qed.

Lemma extractJsonArray_bracketed_witness :
  extractJsonArray "Sure: [1,2] done" = Some "[1,2]"%string
  /\ exists pre body post,
       "Sure: [1,2] done"%string = pre +:+ "[1,2]" +:+ post
       /\ "[1,2]"%string = "[" +:+ body +:+ "]".
Proof.
  assert (H : extractJsonArray "Sure: [1,2] done" = Some "[1,2]"%string)
    by (vm_compute; reflexivity).
  exact (conj H (extractJsonArray_bracketed "Sure: [1,2] done" "[1,2]" H)).
Defined.

Lemma parseImdbList_loop_spec (parsed : list JsonItem) :
  forall (seen : gset string) (results : list string),
  (forall x, x ∈ seen <-> In x results) ->
  List.NoDup results ->
  Forall (fun x => isValidImdbId x = true) results ->
  let out := parseImdbList_loop parsed seen results in
  List.NoDup out
  /\ Forall (fun x => isValidImdbId x = true) out
  /\ (forall x, In x out <-> In x results \/ (In (JString x) parsed /\ isValidImdbId x = true))
  /\ exists added, out = results ++ added.
Proof.
  induction parsed as [|item rest IH]; intros seen results Hseen Hnd Hvalid.
  - cbn. repeat split; try assumption; [tauto|tauto|exists []; now rewrite app_nil_r].
  - assert (Hskip : forall out,
               out = parseImdbList_loop rest seen results ->
               (forall x, In (JString x) [item] -> isValidImdbId x = true -> In x results) ->
               List.NoDup out
               /\ Forall (fun x => isValidImdbId x = true) out
               /\ (forall x, In x out <->
                             In x results \/ (In (JString x) (item :: rest)
                                              /\ isValidImdbId x = true))
               /\ exists added, out = results ++ added).
    { intros out -> Hitem. destruct (IH seen results Hseen Hnd Hvalid) as (H1 & H2 & H3 & H4).
      repeat split; try assumption.
      - intros Hx. apply H3 in Hx as [Hx|[Hx Hv]]; [now left|right]. split; [now right|exact Hv].
      - intros [Hx|[[Hx|Hx] Hv]]; apply H3.
        + now left.
        + left. apply Hitem; [now left|exact Hv].
        + right. now split. }
    destruct item as [s|]; cbn [parseImdbList_loop].
    + destruct (isValidImdbId s) eqn:Hs; cbn [negb].
      * destruct (decide (s ∈ seen)) as [Hin|Hnew].
        -- cbv zeta; apply (Hskip _ eq_refl). intros x [[= <-]|[]] _. now apply Hseen.
        -- assert (Hseen' : forall x, x ∈ ({[s]} ∪ seen : gset string) <-> In x (results ++ [s])).
           { intros x. rewrite elem_of_union, elem_of_singleton, in_app_iff, Hseen.
             simpl. intuition congruence. }
           assert (Hnd' : List.NoDup (results ++ [s])).
           { apply List.NoDup_app; [exact Hnd|constructor; [intros []|constructor]|].
             intros x Hx [<-|[]]. apply Hnew. now apply Hseen. }
           assert (Hvalid' : Forall (fun x => isValidImdbId x = true) (results ++ [s])).
           { apply Forall_app. split; [exact Hvalid|]. constructor; [exact Hs|constructor]. }
           destruct (IH _ _ Hseen' Hnd' Hvalid') as (H1 & H2 & H3 & [added H4]).
           repeat split; try assumption.
           ++ intros Hx. apply H3 in Hx as [Hx|[Hx Hv]].
              ** apply in_app_iff in Hx as [Hx|[<-|[]]]; [now left|right].
                 split; [now left|exact Hs].
              ** right. split; [now right|exact Hv].
           ++ intros [Hx|[[[= <-]|Hx] Hv]]; apply H3.
              ** left. apply in_app_iff. now left.
              ** left. apply in_app_iff. right. now left.
              ** right. now split.
           ++ exists (s :: added). rewrite H4, <- app_assoc. reflexivity.
      * cbv zeta; apply (Hskip _ eq_refl). intros x [[= <-]|[]] Hv. congruence.
    + cbv zeta; apply (Hskip _ eq_refl). intros x [Hx|[]]. discriminate.
Qed.

(** X25. The identifiers [parseImdbList] collects from the parsed
    array: no identifier twice, and exactly the strings of the array
    that are valid IMDb identifiers (everything else in the array is
    passed over). *)
Theorem parseImdbList_loop_valid_and_unique (parsed : list JsonItem) :
  let out := parseImdbList_loop parsed ∅ [] in
  List.NoDup out
  /\ (forall x, In x out <-> In (JString x) parsed /\ isValidImdbId x = true).
Proof.
  intros out.
  destruct (parseImdbList_loop_spec parsed ∅ []) as (H1 & _ & H3 & _).
  - intros x. split; [intros H; now apply not_elem_of_empty in H|intros []].
  - constructor.
  - constructor.
  - split; [exact H1|]. intros x. unfold out. rewrite (H3 x). simpl. tauto.
Qed.


(* ===================================================================== *)
(** * Properties of the Trakt history *)
(* ===================================================================== *)

Import Trakt.

Lemma insert_sorted_perm (x : WatchHistoryItem) (l : list WatchHistoryItem) :
  Permutation (insert_sorted x l) (x :: l).
Proof.
  induction l as [|y l IH]; [reflexivity|]. cbn [insert_sorted].
  destruct (h_watchedAt y <=? h_watchedAt x); [reflexivity|].
  rewrite IH. apply perm_swap.
Qed.

Lemma sort_recent_first_perm (l : list WatchHistoryItem) :
  Permutation (sort_recent_first l) l.
Proof.
  induction l as [|x l IH]; [reflexivity|]. cbn [sort_recent_first fold_right].
  fold (sort_recent_first l). rewrite insert_sorted_perm. now constructor.
Qed.

Lemma insert_sorted_sorted (x : WatchHistoryItem) (l : list WatchHistoryItem) :
  StronglySorted (fun a b => h_watchedAt b <= h_watchedAt a) l ->
  StronglySorted (fun a b => h_watchedAt b <= h_watchedAt a) (insert_sorted x l).
Proof.
  induction 1 as [|y l Hl IH Hy]; cbn [insert_sorted].
  - repeat constructor.
  - destruct (Z.leb_spec (h_watchedAt y) (h_watchedAt x)).
    + constructor; [now constructor|]. constructor; [assumption|].
      eapply List.Forall_impl; [|exact Hy]. cbn. intros; lia.
    + constructor; [exact IH|].
      apply (Permutation.Permutation_Forall (Permutation_sym (insert_sorted_perm x l))).
      constructor; [lia|exact Hy].
Qed.

Lemma sort_recent_first_sorted (l : list WatchHistoryItem) :
  StronglySorted (fun a b => h_watchedAt b <= h_watchedAt a) (sort_recent_first l).
Proof.
  induction l as [|x l IH]; [constructor|]. cbn [sort_recent_first fold_right].
  now apply insert_sorted_sorted.
Qed.

Lemma slice_from_0 {A} (l : list A) (e : Z) :
  exists n, slice l 0 e = firstn n l
            /\ (0 <= e -> Z.of_nat n = Z.min e (Z.of_nat (length l))).
Proof.
  unfold slice. change (0 <? 0) with false. cbv iota.
  rewrite (Z.min_l 0) by lia. change (skipn (Z.to_nat 0) l) with l.
  eexists. split; [reflexivity|]. intros He.
  destruct (Z.ltb_spec e 0); lia.
Qed.

Lemma StronglySorted_firstn_skipn {A} (R : A -> A -> Prop) (l : list A) (n : nat) :
  StronglySorted R l ->
  StronglySorted R (firstn n l)
  /\ forall x y, In x (firstn n l) -> In y (skipn n l) -> R x y.
Proof.
  intros Hs. revert n. induction Hs as [|a l Hl IH Ha]; intros n.
  - rewrite firstn_nil, skipn_nil. split; [constructor|intros ? ? []].
  - destruct n as [|n]; [split; [constructor|intros ? ? []]|].
    cbn [firstn skipn]. destruct (IH n) as [Hf Hc]. split.
    + constructor; [exact Hf|].
      rewrite List.Forall_forall in *. intros y Hy. apply Ha.
      rewrite <- (firstn_skipn n l). apply in_app_iff. now left.
    + intros x y [<-|Hx] Hy.
      * rewrite List.Forall_forall in Ha. apply Ha.
        rewrite <- (firstn_skipn n l). apply in_app_iff. now right.
      * now apply Hc.
Qed.

Lemma convert_imdbId (kind : HistoryKind) (lookup : gmap string Z)
    (watched : list TraktWatched) :
  Forall (fun h => h_imdbId h <> ""%string /\ h_type h = kind
                   /\ h_rating h = lookup !! h_imdbId h)
         (convert kind lookup watched).
Proof.
  unfold convert. induction watched as [|item rest IH]; [constructor|].
  cbn [flat_map]. apply Forall_app. split; [|exact IH].
  unfold truthy. destruct (t_imdb (watched_title item)) as [id|]; [|constructor].
  destruct (String.eqb_spec id ""); constructor; [|constructor].
  cbn. repeat split. assumption.
Qed.

(** X26. [getWatchHistory(limit)] returns the [limit] most recently
    watched titles, most recent first (all of them when there are
    fewer): every title it returns has an IMDb id, and whatever was
    left out of the titles with an id was watched no later than
    anything returned. *)
Theorem getWatchHistory_most_recent
    (watchedMovies watchedShows : list TraktWatched)
    (ratedMovies ratedShows : list TraktRated) (limit : Z) :
  0 <= limit ->
  let all := unified watchedMovies watchedShows ratedMovies ratedShows in
  let result := getWatchHistory watchedMovies watchedShows ratedMovies ratedShows limit in
  Z.of_nat (length result) = Z.min limit (Z.of_nat (length all))
  /\ StronglySorted (fun a b => h_watchedAt b <= h_watchedAt a) result
  /\ Forall (fun h => h_imdbId h <> ""%string) result
  /\ exists dropped,
       Permutation (result ++ dropped) all
       /\ forall x y, In x result -> In y dropped -> h_watchedAt y <= h_watchedAt x.
Proof.
  intros Hlimit all result. unfold result, getWatchHistory. fold all.
  destruct (slice_from_0 (sort_recent_first all) limit) as (n & -> & Hn).
  pose proof (sort_recent_first_perm all) as Hperm.
  pose proof (sort_recent_first_sorted all) as Hsorted.
  destruct (StronglySorted_firstn_skipn _ _ n Hsorted) as [Hf Hc].
  assert (Hids : Forall (fun h => h_imdbId h <> ""%string) all).
  { unfold all, unified. apply Forall_app. split;
      (eapply List.Forall_impl; [|apply convert_imdbId]); cbn; tauto. }
  split; [|split; [exact Hf|split]].
  - rewrite length_firstn. specialize (Hn Hlimit).
    rewrite (Permutation_length Hperm) in Hn |- *. lia.
  - rewrite List.Forall_forall in *. intros h Hh. apply Hids.
    apply (Permutation_in _ Hperm).
    rewrite <- (firstn_skipn n (sort_recent_first all)). apply in_app_iff. now left.
  - exists (skipn n (sort_recent_first all)). split; [|exact Hc].
    now rewrite firstn_skipn.
Qed.

Lemma getWatchHistory_most_recent_witness :
  let film id at_ms :=
    {| last_watched_at := at_ms;
       watched_title := {| t_title := "a title"; t_year := 1999; t_imdb := id;
                           t_runtime := None; t_certification := None;
                           t_genres := None |} |} in
  let movies := [film (Some "tt0133093"%string) 1000; film None 5000;
                 film (Some "tt0088763"%string) 3000] in
  let shows := [film (Some "tt0903747"%string) 2000] in
  let result := getWatchHistory movies shows [] [] 2 in
  0 <= 2
  /\ Z.of_nat (length result) = Z.min 2 (Z.of_nat (length (unified movies shows [] [])))
  /\ map h_imdbId result = ["tt0088763"%string; "tt0903747"%string].
Proof.
  intros film movies shows result.
  assert (H : 0 <= 2) by lia.
  exact (conj H (conj (proj1 (getWatchHistory_most_recent movies shows [] [] 2 H)) eq_refl)).
Defined.

(* ===================================================================== *)
(** * Further properties of the history fingerprint *)
(* ===================================================================== *)

(** X27. The fingerprint of a history looks at nothing but the
    identifiers and the watch times, in their order: two histories
    that agree on those (whatever their ratings, titles or genres) have
    the same fingerprint, so a list stored for one is served for the
    other. *)
Theorem fingerprint_ignores_ratings (db : Database) (clock : Z) (key : string)
    (h h' : list WatchHistoryItem) :
  map (fun x => (h_imdbId x, h_watchedAt x)) h
  = map (fun x => (h_imdbId x, h_watchedAt x)) h' ->
  hashHistory h = hashHistory h'
  /\ getRecommendations db clock key h = getRecommendations db clock key h'.
Proof.
  intros Hsame.
  assert (Hhash : hashHistory h = hashHistory h').
  { unfold hashHistory.
    assert (Hmap : forall l : list WatchHistoryItem,
               map (fun x => h_imdbId x +:+ ":" +:+ string_of_Z (h_watchedAt x)) l
               = map (fun p : string * Z => fst p +:+ ":" +:+ string_of_Z (snd p))
                     (map (fun x => (h_imdbId x, h_watchedAt x)) l))
      by (intros l; now rewrite map_map).
    now rewrite (Hmap h), (Hmap h'), Hsame. }
  split; [exact Hhash|]. unfold getRecommendations. now rewrite Hhash.
Qed.

Lemma fingerprint_ignores_ratings_witness :
  let rated :=
    [ {| h_imdbId := "tt0111161"; h_title := "another title"; h_year := 1994;
         h_type := movie_item; h_genres := []; h_rating := Some 9;
         h_watchedAt := 1700000000000; h_runtime := Some 142;
         h_certification := None |} ] in
  map (fun x => (h_imdbId x, h_watchedAt x)) history1
  = map (fun x => (h_imdbId x, h_watchedAt x)) rated
  /\ hashHistory history1 = hashHistory rated
  /\ getRecommendations (database (cached_world 20)) (t0 + 1000)
       (catalogKey alice_id "for-you") history1
     = getRecommendations (database (cached_world 20)) (t0 + 1000)
         (catalogKey alice_id "for-you") rated.
Proof.
  intros rated.
  assert (H : map (fun x => (h_imdbId x, h_watchedAt x)) history1
              = map (fun x => (h_imdbId x, h_watchedAt x)) rated) by reflexivity.
  exact (conj H (fingerprint_ignores_ratings (database (cached_world 20)) (t0 + 1000)
                   (catalogKey alice_id "for-you") history1 rated H)).
Defined.
